(** * PR Reviewer: a shallow embedding of [src/extension.ts]

    The extension reads the local diff, asks a model for a review and shows
    the findings.  This development embeds the response parser
    ([safeParseReview]), the spec filter ([filterIssuesAgainstSpec]), the
    path clean-up ([toAbsolutePath]), the panel markup ([showReviewPanel],
    [escapeHtml]) and the command pipeline ([activate], [getReview],
    [ensureOllamaReady]) and checks the specification's statements on them.

    Conventions.
    - A JavaScript string is its sequence of UTF-16 code units ([list N]).
    - A JavaScript number is [NaN], an infinity or an exact rational; every
      finite double is one of these, and the operations the code applies to
      numbers (comparison, [Math.max], [x - 1] followed by a clamp at 0) give
      the same result on doubles as on the rationals they denote.
    - The built-ins whose result depends on double rounding ([JSON.parse],
      string to number, number to string) are parameters of the embedding
      (class [Runtime]); a reference instance is given for evaluating
      concrete inputs. *)

From Stdlib Require Import List String Ascii ZArith NArith QArith Qround Qabs Bool Lia.
From Stdlib Require Import DecimalString.
From stdpp Require Import gmap list.
Import ListNotations.

#[local] Set Warnings "-register-all".

Local Open Scope N_scope.
Local Open Scope list_scope.

(** ** Strings *)

Module JsString.

Abbreviation jsstring := (list N).

(** An ASCII literal as a JavaScript string. *)
Definition js (s : string) : jsstring :=
  List.map N_of_ascii (list_ascii_of_string s).

Definition eqb (a b : jsstring) : bool := bool_decide (a = b).

(** [WhiteSpace] and [LineTerminator] of ECMAScript: what [String.prototype.trim]
    strips and what the regular expression class [\s] matches. *)
Definition isSpace (c : N) : bool :=
  ((9 <=? c) && (c <=? 13)) || (c =? 32) || (c =? 160) || (c =? 5760)
  || ((8192 <=? c) && (c <=? 8202)) || (c =? 8232) || (c =? 8233)
  || (c =? 8239) || (c =? 8287) || (c =? 12288) || (c =? 65279).

(** The class [\d]. *)
Definition isDigit (c : N) : bool := (48 <=? c) && (c <=? 57).

Fixpoint dropSpaces (s : jsstring) : jsstring :=
  match s with
  | c :: r => if isSpace c then dropSpaces r else s
  | [] => []
  end.

(** [s.trim()] *)
Definition trim (s : jsstring) : jsstring :=
  rev (dropSpaces (rev (dropSpaces s))).

(** [s.slice(0, n)] for a non-negative [n]. *)
Definition slice0 (n : nat) (s : jsstring) : jsstring := firstn n s.

(** [s.startsWith(p)], the test behind an anchored literal such as [/^a\//]. *)
Fixpoint startsWith (p s : jsstring) : bool :=
  match p, s with
  | [], _ => true
  | a :: p', b :: s' => (a =? b) && startsWith p' s'
  | _ :: _, [] => false
  end.

(** Canonicalisation of the [i] flag (without [u]) restricted to a pattern
    of ASCII letters: a code unit matches the letter when it is that letter
    in either case.  Code units above 127 never match an ASCII letter. *)
Definition lower (c : N) : N :=
  if (65 <=? c) && (c <=? 90) then c + 32 else c.

Fixpoint startsWithCI (p s : jsstring) : bool :=
  match p, s with
  | [], _ => true
  | a :: p', b :: s' => (lower a =? lower b) && startsWithCI p' s'
  | _ :: _, [] => false
  end.

(** [s.split(sep)] for a one-unit separator: never empty. *)
Fixpoint split (sep : N) (s : jsstring) : list jsstring :=
  match s with
  | [] => [[]]
  | c :: r =>
      if c =? sep then [] :: split sep r
      else match split sep r with
           | l :: ls => (c :: l) :: ls
           | [] => [[c]]
           end
  end.

(** [(s.match(/c/g) || []).length] for a one-unit pattern. *)
Definition countChar (c : N) (s : jsstring) : nat :=
  length (List.filter (fun x => x =? c) s).

(** Is [p] a substring of [s] (with the units compared by [test])? *)
Fixpoint containsBy (test : jsstring -> jsstring -> bool)
    (p s : jsstring) : bool :=
  test p s || match s with
              | [] => false
              | _ :: r => containsBy test p r
              end.

Definition includes (p s : jsstring) : bool := containsBy startsWith p s.
Definition includesCI (p s : jsstring) : bool := containsBy startsWithCI p s.

(** Surrogate code units. *)
Definition isLead (c : N) : bool := (55296 <=? c) && (c <=? 56319).
Definition isTrail (c : N) : bool := (56320 <=? c) && (c <=? 57343).

(** The [for ... of] over a string yields its code points. *)
Fixpoint codePoints (s : jsstring) : list jsstring :=
  match s with
  | [] => []
  | c :: r =>
      match r with
      | d :: r' => if isLead c && isTrail d then [c; d] :: codePoints r'
                   else [c] :: codePoints r
      | [] => [[c]]
      end
  end.

(** [l.join(sep)] on strings. *)
Fixpoint joinWith (sep : jsstring) (l : list jsstring) : jsstring :=
  match l with
  | [] => []
  | [x] => x
  | x :: r => x ++ sep ++ joinWith sep r
  end.

End JsString.
Export JsString.

Module Html.

(** [escapeHtml]: the callback of the global replace, applied to one code
    unit; units outside the class (ampersand, angle brackets, double and
    single quote) are left in place. *)
Definition escapeUnit (c : N) : jsstring :=
  if c =? 38 then js "&amp;"
  else if c =? 60 then js "&lt;"
  else if c =? 62 then js "&gt;"
  else if c =? 34 then js "&quot;"
  else if c =? 39 then js "&#39;"
  else [c].

Definition escapeHtml (s : jsstring) : jsstring := flat_map escapeUnit s.

End Html.
Export Html.

(** ** Numbers and values *)

Module JsValue.

Inductive number : Type :=
| NaN
| Inf (negative : bool)
| Fin (q : Q).

Definition num_of_nat (n : nat) : number := Fin (inject_Z (Z.of_nat n)).
Definition num_of_Z (z : Z) : number := Fin (inject_Z z).

(** [a < b]; false when either is [NaN]. *)
Definition num_ltb (a b : number) : bool :=
  match a, b with
  | NaN, _ | _, NaN => false
  | Inf true, Inf true => false
  | Inf true, _ => true
  | _, Inf true => false
  | Inf false, _ => false
  | Fin _, Inf false => true
  | Fin p, Fin q => negb (Qle_bool q p)
  end.

(** [a <= b]; false when either is [NaN]. *)
Definition num_leb (a b : number) : bool :=
  match a, b with
  | NaN, _ | _, NaN => false
  | _, _ => negb (num_ltb b a)
  end.

(** [a === b] on numbers. *)
Definition num_eqb (a b : number) : bool :=
  match a, b with
  | Fin p, Fin q => Qeq_bool p q
  | Inf x, Inf y => Bool.eqb x y
  | _, _ => false
  end.

(** [Math.max] of two numbers. *)
Definition num_max (a b : number) : number :=
  match a, b with
  | NaN, _ | _, NaN => NaN
  | _, _ => if num_ltb a b then b else a
  end.

(** [a - b] on numbers. *)
Definition num_sub (a b : number) : number :=
  match a, b with
  | NaN, _ | _, NaN => NaN
  | Inf x, Inf y => if Bool.eqb x y then NaN else Inf x
  | Inf x, Fin _ => Inf x
  | Fin _, Inf y => Inf (negb y)
  | Fin p, Fin q => Fin (p - q)
  end.

(** [ToBoolean] of a number: [NaN] and zero are falsy. *)
Definition num_truthy (n : number) : bool :=
  match n with
  | NaN => false
  | Inf _ => true
  | Fin q => negb (Qeq_bool q 0)
  end.

(** Is the number an integer, and which one. *)
Definition num_integer (n : number) : option Z :=
  match n with
  | Fin q => if Qeq_bool (inject_Z (Qfloor q)) q then Some (Qfloor q) else None
  | _ => None
  end.

(** A JavaScript value as [JSON.parse] can produce it, together with
    [undefined] (what a read of an absent property gives).  An array carries
    its elements and, apart from them, the named properties assigned to it;
    an object carries its own properties in insertion order. *)
Inductive value : Type :=
| VUndefined
| VNull
| VBool (b : bool)
| VNum (n : number)
| VStr (s : jsstring)
| VArr (elems : list value) (props : list (jsstring * value))
| VObj (props : list (jsstring * value)).

Fixpoint lookupProp (k : jsstring) (ps : list (jsstring * value)) : option value :=
  match ps with
  | [] => None
  | (k', v) :: r => if JsString.eqb k k' then Some v else lookupProp k r
  end.

(** Assignment to a property: an existing key keeps its place. *)
Fixpoint assignProp (k : jsstring) (v : value) (ps : list (jsstring * value))
    : list (jsstring * value) :=
  match ps with
  | [] => [(k, v)]
  | (k', v') :: r =>
      if JsString.eqb k k' then (k', v) :: r else (k', v') :: assignProp k v r
  end.

Definition hasOwn (k : jsstring) (ps : list (jsstring * value)) : bool :=
  match lookupProp k ps with Some _ => true | None => false end.

(** [o.k] for a name [k] that is neither an index, [length] nor a method of
    a prototype: [None] is the [TypeError] of reading from [null] or
    [undefined]. *)
Definition getProp (o : value) (k : jsstring) : option value :=
  match o with
  | VUndefined | VNull => None
  | VBool _ | VNum _ | VStr _ => Some VUndefined
  | VArr _ ps | VObj ps =>
      Some (match lookupProp k ps with Some v => v | None => VUndefined end)
  end.

(** [o.k = v] in strict mode (module code): [None] is the [TypeError] of
    assigning to a property of a primitive, [null] or [undefined]. *)
Definition setProp (o : value) (k : jsstring) (v : value) : option value :=
  match o with
  | VArr es ps => Some (VArr es (assignProp k v ps))
  | VObj ps => Some (VObj (assignProp k v ps))
  | _ => None
  end.

(** [ToBoolean] *)
Definition truthy (v : value) : bool :=
  match v with
  | VUndefined | VNull => false
  | VBool b => b
  | VNum n => num_truthy n
  | VStr s => match s with [] => false | _ => true end
  | VArr _ _ | VObj _ => true
  end.

(** [a || b] *)
Definition jsOr (a b : value) : value := if truthy a then a else b.

(** [Array.isArray(v)] *)
Definition isArray (v : value) : bool :=
  match v with VArr _ _ => true | _ => false end.

(** [a === b] where one side is a primitive. *)
Definition strictEq (a b : value) : bool :=
  match a, b with
  | VUndefined, VUndefined | VNull, VNull => true
  | VBool x, VBool y => Bool.eqb x y
  | VNum x, VNum y => num_eqb x y
  | VStr x, VStr y => JsString.eqb x y
  | _, _ => false
  end.

(** A method call [v.replace(...)]: a [TypeError] unless [v] is a string. *)
Definition asString (v : value) : option jsstring :=
  match v with VStr s => Some s | _ => None end.

(** [v.map(...)], [v.length] of an array: a [TypeError] (or a wrong type)
    otherwise. *)
Definition asArray (v : value) : option (list value) :=
  match v with VArr es _ => Some es | _ => None end.

(** The values a [for ... of] iterates over; a [TypeError] if not iterable. *)
Definition iterate (v : value) : option (list value) :=
  match v with
  | VArr es _ => Some es
  | VStr s => Some (List.map VStr (codePoints s))
  | _ => None
  end.

(** [arr.some(cb)]; the callback may throw. *)
Fixpoint some (cb : value -> option bool) (l : list value) : option bool :=
  match l with
  | [] => Some false
  | x :: r => b ← cb x; if b : bool then Some true else some cb r
  end.

(** The built-ins of the host whose results depend on double-precision
    rounding or on the platform ([path.isAbsolute], [path.join]).
    [JSON_parse] gives [None] where [JSON.parse] throws. *)
Class Runtime : Type := {
  JSON_parse : jsstring -> option value;
  StringToNumber : jsstring -> number;
  NumberToString : number -> jsstring;
  path_isAbsolute : jsstring -> bool;
  path_join : jsstring -> jsstring -> jsstring
}.

Section Coercions.
Context `{Runtime}.

(** [ToString]; [None] is a [TypeError].  A value from [JSON.parse] has no
    callable property, so an own [toString] defeats [OrdinaryToPrimitive]
    (the inherited [valueOf] returns the object itself), and an array with
    an own [join] falls back to [Object.prototype.toString]. *)
Fixpoint ToString (v : value) : option jsstring :=
  match v with
  | VUndefined => Some (js "undefined")
  | VNull => Some (js "null")
  | VBool true => Some (js "true")
  | VBool false => Some (js "false")
  | VNum n => Some (NumberToString n)
  | VStr s => Some s
  | VObj ps =>
      if hasOwn (js "toString") ps then None else Some (js "[object Object]")
  | VArr es ps =>
      if hasOwn (js "toString") ps then None
      else if hasOwn (js "join") ps then Some (js "[object Array]")
      else
        strs ← (fix each (l : list value) : option (list jsstring) :=
                  match l with
                  | [] => Some []
                  | x :: r =>
                      sx ← match x with
                            | VUndefined | VNull => Some []
                            | _ => ToString x
                            end;
                      sr ← each r;
                      Some (sx :: sr)
                  end) es;
        Some (joinWith (js ",") strs)
  end.

(** [l.join(sep)] on an array of values. *)
Definition arrayJoin (sep : jsstring) (l : list value) : option jsstring :=
  strs ← mapM (fun x => match x with
                        | VUndefined | VNull => Some []
                        | _ => ToString x
                        end) l;
  Some (joinWith sep strs).

(** [ToNumber]; [None] is a [TypeError]. *)
Definition ToNumber (v : value) : option number :=
  match v with
  | VUndefined => Some NaN
  | VNull => Some (Fin 0)
  | VBool true => Some (Fin 1)
  | VBool false => Some (Fin 0)
  | VNum n => Some n
  | VStr s => Some (StringToNumber s)
  | VArr _ _ | VObj _ => s ← ToString v; Some (StringToNumber s)
  end.

(** [Number(v)] and [String(v)] *)
Definition Number_ (v : value) : option value := n ← ToNumber v; Some (VNum n).
Definition String_ (v : value) : option value := s ← ToString v; Some (VStr s).

(** [Math.max(a, b)] *)
Definition Math_max (a b : value) : option value :=
  x ← ToNumber a; y ← ToNumber b; Some (VNum (num_max x y)).

(** [a - b] *)
Definition jsSub (a b : value) : option value :=
  x ← ToNumber a; y ← ToNumber b; Some (VNum (num_sub x y)).

End Coercions.

End JsValue.
Export JsValue.

(** ** Regular expressions of the source, as matchers *)

Module Regex.

(** Leftmost match: the pattern is tried at every position from the left,
    the end of the string included. *)
Fixpoint firstMatch {A : Type} (tryAt : jsstring -> option A) (s : jsstring)
    : option A :=
  match tryAt s with
  | Some r => Some r
  | None => match s with
            | [] => None
            | _ :: r => firstMatch tryAt r
            end
  end.

(** The lazy [[\s\S]*?] followed by the literal [p]: the units before the
    first occurrence of [p]. *)
Fixpoint upTo (p s : jsstring) : option jsstring :=
  if startsWith p s then Some []
  else match s with
       | [] => None
       | c :: r => option_map (cons c) (upTo p r)
       end.

(** The greedy [[\s\S]*] followed by the unit [c]: the units up to and
    including the last occurrence of [c]. *)
Fixpoint throughLast (c : N) (s : jsstring) : option jsstring :=
  match s with
  | [] => None
  | x :: r =>
      match throughLast c r with
      | Some t => Some (x :: t)
      | None => if x =? c then Some [x] else None
      end
  end.

(** A greedy class repetition: the longest prefix in the class, and the rest. *)
Fixpoint span (cls : N -> bool) (s : jsstring) : jsstring * jsstring :=
  match s with
  | c :: r => if cls c then let '(a, b) := span cls r in (c :: a, b) else ([], s)
  | [] => ([], [])
  end.

Definition nonEmpty (s : jsstring) : bool :=
  match s with [] => false | _ => true end.

Definition ticks : jsstring := js "```".

(** [/```json\s*([\s\S]*?)```/i] at one position; the result is group 1. *)
Definition fenceJsonAt (s : jsstring) : option jsstring :=
  if startsWithCI (js "```json") s
  then upTo ticks (dropSpaces (skipn 7 s))
  else None.

(** [/```\s*([\s\S]*?)```/] at one position; the result is group 1. *)
Definition fenceAt (s : jsstring) : option jsstring :=
  if startsWith ticks s
  then upTo ticks (dropSpaces (skipn 3 s))
  else None.

(** [/\{[\s\S]*\}/] at one position; the result is the whole match. *)
Definition objectAt (s : jsstring) : option jsstring :=
  match s with
  | c :: r => if c =? 123 then option_map (cons c) (throughLast 125 r) else None
  | [] => None
  end.

(** [/require\s+(\d+)\s+exclamation\s*marks?/i] at one position; the result
    is group 1.  Each greedy class is followed by a unit outside the class,
    so giving back units never yields another match. *)
Definition requireAt (s : jsstring) : option jsstring :=
  if startsWithCI (js "require") s then
    let '(sp1, r1) := span isSpace (skipn 7 s) in
    let '(digits, r2) := span isDigit r1 in
    let '(sp2, r3) := span isSpace r2 in
    if nonEmpty sp1 && nonEmpty digits && nonEmpty sp2
       && startsWithCI (js "exclamation") r3
       && startsWithCI (js "mark") (dropSpaces (skipn 11 r3))
    then Some digits
    else None
  else None.

(** [s.replace(/^p/, '')] for a literal [p]. *)
Definition stripPrefix (p s : jsstring) : jsstring :=
  if startsWith p s then skipn (length p) s else s.

Fixpoint dropSlashes (s : jsstring) : jsstring :=
  match s with
  | c :: r => if c =? 47 then dropSlashes r else s
  | [] => []
  end.

(** [s.replace(/^\.\/+/, '')] *)
Definition stripDotSlashes (s : jsstring) : jsstring :=
  if startsWith (js "./") s then dropSlashes (skipn 2 s) else s.

(** [s.replace(/^\/+/, '')] *)
Definition stripSlashes (s : jsstring) : jsstring :=
  if startsWith (js "/") s then dropSlashes (skipn 1 s) else s.

(** [s.replace(/^\.\/+|^\/+/, '')]: one replacement, the first alternative
    that matches. *)
Definition stripDotSlashesOrSlashes (s : jsstring) : jsstring :=
  if startsWith (js "./") s then dropSlashes (skipn 2 s)
  else if startsWith (js "/") s then dropSlashes (skipn 1 s)
  else s.

End Regex.
Export Regex.

(** ** The response parser *)

Module Parser.

Record ReviewResult : Type := { summary : jsstring; issues : value }.

(** [['blocker','major','nit'].includes(v)] *)
Definition isSeverity (v : value) : bool :=
  match v with
  | VStr s =>
      JsString.eqb s (js "blocker") || JsString.eqb s (js "major")
      || JsString.eqb s (js "nit")
  | _ => false
  end.

(** The chain of replacements applied to [it.file] in [safeParseReview]. *)
Definition normalizeFile (s : jsstring) : jsstring :=
  stripDotSlashesOrSlashes (stripPrefix (js "b/") (stripPrefix (js "a/") s)).

Section WithRuntime.
Context `{Runtime}.

(** The body of the loop over the issues; [None] is a thrown exception. *)
Definition sanitizeIssue (it : value) : option value :=
  a ← getProp it (js "startLine");
  n ← Number_ a;
  m ← Math_max (VNum (Fin 1)) (jsOr n (VNum (Fin 1)));
  it ← setProp it (js "startLine") m;
  s ← getProp it (js "startLine");
  b ← getProp it (js "endLine");
  n ← Number_ b;
  s' ← getProp it (js "startLine");
  m ← Math_max s (jsOr n s');
  it ← setProp it (js "endLine") m;
  sev ← getProp it (js "severity");
  it ← (if isSeverity sev then Some it
        else setProp it (js "severity") (VStr (js "major")));
  f ← getProp it (js "file");
  fs ← ToString (jsOr f (VStr []));
  it ← setProp it (js "file") (VStr (trim fs));
  f ← getProp it (js "file");
  fs ← asString f;
  setProp it (js "file") (VStr (normalizeFile fs)).

(** The body of the [try] block, given the parsed value. *)
Definition coerceReview (parsed : value) : option ReviewResult :=
  pi ← getProp parsed (js "issues");
  let issues := if isArray pi then pi else VArr [] [] in
  issues ← match issues with
            | VArr es ps => es' ← mapM sanitizeIssue es; Some (VArr es' ps)
            | _ => None
            end;
  ps ← getProp parsed (js "summary");
  s ← ToString (jsOr ps (VStr []));
  Some {| summary := s; issues := issues |}.

(** The string handed to [JSON.parse]. *)
Definition extractJson (text : jsstring) : jsstring :=
  let fence := match firstMatch fenceJsonAt text with
               | Some g => Some g
               | None => firstMatch fenceAt text
               end in
  let candidate := match fence with Some g => g | None => text end in
  match firstMatch objectAt candidate with
  | Some m => m
  | None => candidate
  end.

Definition safeParseReview (modelText : jsstring) : ReviewResult :=
  let text := trim modelText in
  let jsonStr := extractJson text in
  match parsed ← JSON_parse jsonStr; coerceReview parsed with
  | Some r => r
  | None => {| summary := slice0 800 text; issues := VArr [] [] |}
  end.

End WithRuntime.

End Parser.
Export Parser.

(** ** A reference runtime

    An executable instance of [Runtime], used to evaluate the embedding on
    concrete inputs.  Numbers are read exactly (no rounding to a double), so
    it agrees with an engine on every literal that a double represents
    exactly. *)

Module Reference.

(** *** [JSON.parse] *)

(** JSON white space: tab, line feed, carriage return and space. *)
Fixpoint skipWs (s : jsstring) : jsstring :=
  match s with
  | c :: r => if (c =? 9) || (c =? 10) || (c =? 13) || (c =? 32) then skipWs r else s
  | [] => []
  end.

Definition hexVal (c : N) : option N :=
  if (48 <=? c) && (c <=? 57) then Some (c - 48)
  else if (65 <=? c) && (c <=? 70) then Some (c - 55)
  else if (97 <=? c) && (c <=? 102) then Some (c - 87)
  else None.

Definition escapeVal (c : N) : option N :=
  if c =? 34 then Some 34          (* quote *)
  else if c =? 92 then Some 92     (* backslash *)
  else if c =? 47 then Some 47     (* slash *)
  else if c =? 98 then Some 8      (* b *)
  else if c =? 102 then Some 12    (* f *)
  else if c =? 110 then Some 10    (* n *)
  else if c =? 114 then Some 13    (* r *)
  else if c =? 116 then Some 9     (* t *)
  else None.

(** The body of a string literal after its opening quote, and the rest. *)
Fixpoint parseString (s : jsstring) : option (jsstring * jsstring) :=
  match s with
  | [] => None
  | c :: r =>
      if c =? 34 then Some ([], r)
      else if c =? 92 then
        match r with
        | [] => None
        | e :: r1 =>
            if e =? 117 then
              match r1 with
              | h1 :: h2 :: h3 :: h4 :: r2 =>
                  a ← hexVal h1; b ← hexVal h2; c ← hexVal h3; d ← hexVal h4;
                  '(str, rest) ← parseString r2;
                  Some ((((a * 16 + b) * 16 + c) * 16 + d) :: str, rest)
              | _ => None
              end
            else
              u ← escapeVal e;
              '(str, rest) ← parseString r1;
              Some (u :: str, rest)
        end
      else if c <? 32 then None
      else '(str, rest) ← parseString r; Some (c :: str, rest)
  end.

Definition digitsVal (ds : jsstring) : Z :=
  fold_left (fun acc c => (acc * 10 + Z.of_N (c - 48))%Z) ds 0%Z.

(** [m * 10^e] *)
Definition decimal (m e : Z) : Q :=
  if (0 <=? e)%Z then inject_Z (m * 10 ^ e)
  else Qred (Qmake m (Z.to_pos (10 ^ (- e)))).

(** Optional exponent part: [e] or [E], an optional sign, digits. *)
Definition parseExponent (s : jsstring) : option (Z * jsstring) :=
  match s with
  | c :: r =>
      if (c =? 101) || (c =? 69) then
        let '(neg, r1) := match r with
                          | x :: r' => if x =? 45 then (true, r')
                                       else if x =? 43 then (false, r')
                                       else (false, r)
                          | [] => (false, r)
                          end in
        let '(ds, r2) := span isDigit r1 in
        if nonEmpty ds
        then Some (if neg then (- digitsVal ds)%Z else digitsVal ds, r2)
        else None
      else Some (0%Z, s)
  | [] => Some (0%Z, s)
  end.

(** A JSON number: an optional minus, an integer part without a leading
    zero, an optional fraction, an optional exponent. *)
Definition parseNumber (s : jsstring) : option (number * jsstring) :=
  let '(neg, r0) := match s with
                    | c :: r => if c =? 45 then (true, r) else (false, s)
                    | [] => (false, s)
                    end in
  let '(ip, r1) := span isDigit r0 in
  match ip with
  | [] => None
  | d :: ds =>
      if (d =? 48) && nonEmpty ds then None
      else
        fr ← match r1 with
              | c :: r =>
                  if c =? 46 then
                    let '(fp, r2) := span isDigit r in
                    if nonEmpty fp then Some (fp, r2) else None
                  else Some ([], r1)
              | [] => Some ([], r1)
              end;
        let '(fp, r2) := fr in
        '(e, r3) ← parseExponent r2;
        let m := digitsVal (ip ++ fp) in
        let q := decimal (if neg then - m else m)%Z (e - Z.of_nat (length fp)) in
        Some (Fin q, r3)
  end.

Fixpoint parseValue (fuel : nat) (s : jsstring) : option (value * jsstring) :=
  match fuel with
  | O => None
  | S fuel =>
      match skipWs s with
      | [] => None
      | c :: r =>
          if c =? 123 then
            match skipWs r with
            | x :: r' => if x =? 125 then Some (VObj [], r')
                         else parseMembers fuel r []
            | [] => None
            end
          else if c =? 91 then
            match skipWs r with
            | x :: r' => if x =? 93 then Some (VArr [] [], r')
                         else parseElements fuel r []
            | [] => None
            end
          else if c =? 34 then
            '(str, rest) ← parseString r; Some (VStr str, rest)
          else if startsWith (js "true") (c :: r) then Some (VBool true, skipn 4 (c :: r))
          else if startsWith (js "false") (c :: r) then Some (VBool false, skipn 5 (c :: r))
          else if startsWith (js "null") (c :: r) then Some (VNull, skipn 4 (c :: r))
          else '(n, rest) ← parseNumber (c :: r); Some (VNum n, rest)
      end
  end
with parseElements (fuel : nat) (s : jsstring) (acc : list value)
    : option (value * jsstring) :=
  match fuel with
  | O => None
  | S fuel =>
      '(v, r) ← parseValue fuel s;
      match skipWs r with
      | c :: r' =>
          if c =? 44 then parseElements fuel r' (v :: acc)
          else if c =? 93 then Some (VArr (rev (v :: acc)) [], r')
          else None
      | [] => None
      end
  end
with parseMembers (fuel : nat) (s : jsstring) (acc : list (jsstring * value))
    : option (value * jsstring) :=
  match fuel with
  | O => None
  | S fuel =>
      match skipWs s with
      | q :: r =>
          if q =? 34 then
            '(k, r1) ← parseString r;
            match skipWs r1 with
            | c :: r2 =>
                if c =? 58 then
                  '(v, r3) ← parseValue fuel r2;
                  match skipWs r3 with
                  | d :: r4 =>
                      if d =? 44 then parseMembers fuel r4 (assignProp k v acc)
                      else if d =? 125 then Some (VObj (assignProp k v acc), r4)
                      else None
                  | [] => None
                  end
                else None
            | [] => None
            end
          else None
      | [] => None
      end
  end.

(** [JSON.parse(s)]: one value, then only white space.  Every call of the
    parser consumes a unit before it calls again or is called at most once
    more without consuming, so twice the length is enough fuel. *)
Definition parse (s : jsstring) : option value :=
  '(v, r) ← parseValue (2 * length s + 2) s;
  match skipWs r with
  | [] => Some v
  | _ => None
  end.

(** *** String to number: [StringNumericLiteral] *)

Definition allHex (base : N) (s : jsstring) : option Z :=
  fold_left (fun acc c => a ← acc; h ← hexVal c;
                          if h <? base then Some (a * Z.of_N base + Z.of_N h)%Z
                          else None) s (Some 0%Z).

Definition radixLiteral (t : jsstring) : option number :=
  match t with
  | z :: x :: ds =>
      if (z =? 48) && nonEmpty ds then
        let base := if (x =? 120) || (x =? 88) then Some 16
                    else if (x =? 111) || (x =? 79) then Some 8
                    else if (x =? 98) || (x =? 66) then Some 2
                    else None in
        b ← base;
        Some (match allHex b ds with Some v => num_of_Z v | None => NaN end)
      else None
  | _ => None
  end.

Definition decimalLiteral (t : jsstring) : number :=
  let '(neg, u) := match t with
                   | c :: r => if c =? 45 then (true, r)
                               else if c =? 43 then (false, r)
                               else (false, t)
                   | [] => (false, t)
                   end in
  if JsString.eqb u (js "Infinity") then Inf neg
  else
    let '(ip, r1) := span isDigit u in
    let '(dot, fp, r2) := match r1 with
                          | c :: r => if c =? 46
                                      then let '(fp, r2) := span isDigit r in (true, fp, r2)
                                      else (false, [], r1)
                          | [] => (false, [], r1)
                          end in
    if nonEmpty ip || nonEmpty fp then
      match parseExponent r2 with
      | Some (e, []) =>
          let m := digitsVal (ip ++ fp) in
          Fin (decimal (if neg then - m else m)%Z (e - Z.of_nat (length fp)))
      | _ => NaN
      end
    else NaN.

Definition stringToNumber (s : jsstring) : number :=
  let t := trim s in
  match t with
  | [] => Fin 0
  | _ => match radixLiteral t with
         | Some n => n
         | None => decimalLiteral t
         end
  end.

(** *** Number to string: [Number::toString] *)

Definition digitsOf (z : Z) : jsstring :=
  js (NilZero.string_of_uint (N.to_uint (Z.to_N z))).

Definition stripTrailingZeros (ds : jsstring) : jsstring :=
  rev ((fix go (l : jsstring) : jsstring :=
          match l with
          | c :: r => if c =? 48 then go r else l
          | [] => []
          end) (rev ds)).

Definition zeros (n : Z) : jsstring := repeat 48 (Z.to_nat n).

(** The digits [ds] (there are [k] of them) and the exponent [n], with the
    number equal to [0.ds * 10^n], laid out as [Number::toString] does. *)
Definition layout (ds : jsstring) (n : Z) : jsstring :=
  let k := Z.of_nat (length ds) in
  if ((k <=? n) && (n <=? 21))%Z then ds ++ zeros (n - k)
  else if ((0 <? n) && (n <=? 21))%Z
       then firstn (Z.to_nat n) ds ++ js "." ++ skipn (Z.to_nat n) ds
  else if ((-6 <? n) && (n <=? 0))%Z then js "0." ++ zeros (- n) ++ ds
  else
    let e := (n - 1)%Z in
    let mant := match ds with
                | [d] => [d]
                | d :: r => d :: js "." ++ r
                | [] => []
                end in
    mant ++ js "e" ++ (if (e <? 0)%Z then js "-" else js "+") ++ digitsOf (Z.abs e).

(** A rational that is not a decimal of at most 17 digits is cut to 17
    significant digits. *)
Definition numberToString (x : number) : jsstring :=
  match x with
  | NaN => js "NaN"
  | Inf false => js "Infinity"
  | Inf true => js "-Infinity"
  | Fin q =>
      if Qeq_bool q 0 then js "0"
      else
        let a := Qabs q in
        let d := (Z.of_nat (length (digitsOf (Qnum a)))
                  - Z.of_nat (length (digitsOf (Zpos (Qden a)))))%Z in
        let n := if Qle_bool (decimal 1 d) a then (d + 1)%Z else d in
        let ds := stripTrailingZeros (digitsOf (Qfloor (a * decimal 1 (17 - n)))) in
        (if Qle_bool 0 q then [] else js "-") ++ layout ds n
  end.

(** *** [path.isAbsolute] and [path.join] on a POSIX platform *)

Definition isAbsolute (p : jsstring) : bool := startsWith (js "/") p.

(** [normalizeString]: the segments kept, last first. *)
Fixpoint normalizeSegments (allowAbove : bool) (segs acc : list jsstring)
    : list jsstring :=
  match segs with
  | [] => acc
  | seg :: r =>
      if JsString.eqb seg [] || JsString.eqb seg (js ".") then
        normalizeSegments allowAbove r acc
      else if JsString.eqb seg (js "..") then
        match acc with
        | top :: acc' =>
            if JsString.eqb top (js "..") then normalizeSegments allowAbove r (seg :: acc)
            else normalizeSegments allowAbove r acc'
        | [] => normalizeSegments allowAbove r (if allowAbove then [seg] else [])
        end
      else normalizeSegments allowAbove r (seg :: acc)
  end.

Definition normalize (p : jsstring) : jsstring :=
  match p with
  | [] => js "."
  | _ =>
      let isAbs := isAbsolute p in
      let trailing := match rev p with c :: _ => c =? 47 | [] => false end in
      let body := joinWith (js "/")
                    (rev (normalizeSegments (negb isAbs) (split 47 p) [])) in
      match body with
      | [] => if isAbs then js "/" else if trailing then js "./" else js "."
      | _ => (if isAbs then js "/" else []) ++ body ++ (if trailing then js "/" else [])
      end
  end.

Definition join (a b : jsstring) : jsstring :=
  normalize (joinWith (js "/") (List.filter nonEmpty [a; b])).

Definition runtime : Runtime := {|
  JSON_parse := parse;
  StringToNumber := stringToNumber;
  NumberToString := numberToString;
  path_isAbsolute := isAbsolute;
  path_join := join
|}.

End Reference.

(** ** The spec filter *)

Module Filter.

(** [SameValueZero] on the values that can be keys of [fileTextByPath]:
    primitives (an object or array is only equal to itself, and never gets
    into the map). *)
Definition sameValueZero (a b : value) : bool :=
  match a, b with
  | VUndefined, VUndefined | VNull, VNull => true
  | VBool x, VBool y => Bool.eqb x y
  | VNum NaN, VNum NaN => true
  | VNum x, VNum y => num_eqb x y
  | VStr x, VStr y => JsString.eqb x y
  | _, _ => false
  end.

(** A [Map] from values to strings, in insertion order. *)
Abbreviation textMap := (list (value * jsstring)).

(** [m.get(k)] *)
Fixpoint mapGet (m : textMap) (k : value) : option jsstring :=
  match m with
  | [] => None
  | (k', t) :: r => if sameValueZero k' k then Some t else mapGet r k
  end.

(** [m.set(k, t)] *)
Fixpoint mapSet (m : textMap) (k : value) (t : jsstring) : textMap :=
  match m with
  | [] => [(k, t)]
  | (k', t') :: r =>
      if sameValueZero k' k then (k', t) :: r else (k', t') :: mapSet r k t
  end.

(** [lines[i] ?? ''] for a number [i]: an element only at an integer index
    within the array. *)
Definition lineAt (lines : list jsstring) (i : value) : jsstring :=
  match i with
  | VNum n =>
      match num_integer n with
      | Some z => if (0 <=? z)%Z then nth (Z.to_nat z) lines [] else []
      | None => []
      end
  | _ => []
  end.

Section WithRuntime.
Context `{Runtime}.

(** The callback of [issues.filter]: is the issue kept. *)
Definition keepIssue (required : value) (fileTextByPath : textMap) (it : value)
    : option bool :=
  f ← getProp it (js "file");
  match mapGet fileTextByPath f with
  | None | Some [] => Some true
  | Some text =>
      s ← getProp it (js "startLine");
      d ← jsSub s (VNum (Fin 1));
      i ← Math_max (VNum (Fin 0)) d;
      let line := lineAt (split 10 text) i in
      let count := VNum (num_of_nat (countChar 33 line)) in
      if strictEq count required then
        m ← getProp it (js "message");
        ms ← ToString m;
        Some (negb (includesCI (js "exclamation") ms))
      else Some true
  end.

(** [issues.filter(cb)]; the callback may throw. *)
Fixpoint filterIssues (cb : value -> option bool) (l : list value)
    : option (list value) :=
  match l with
  | [] => Some []
  | x :: r =>
      b ← cb x;
      r' ← filterIssues cb r;
      Some (if b : bool then x :: r' else r')
  end.

Definition filterIssuesAgainstSpec (issues : value) (acceptance : jsstring)
    (fileTextByPath : textMap) : option value :=
  match firstMatch requireAt acceptance with
  | None => Some issues
  | Some m1 =>
      required ← Number_ (VStr m1);
      match issues with
      | VArr es _ => es' ← filterIssues (keepIssue required fileTextByPath) es;
                     Some (VArr es' [])
      | _ => None
      end
  end.

(** The replacements of [toAbsolutePath]. *)
Definition cleanPath (p : jsstring) : jsstring :=
  stripSlashes (stripDotSlashes (stripPrefix (js "b/") (stripPrefix (js "a/") p))).

Definition toAbsolutePath (p : value) (workspaceRoot : jsstring) : option jsstring :=
  if negb (truthy p) then Some workspaceRoot
  else
    s ← asString p;
    let cleaned := cleanPath s in
    Some (if path_isAbsolute cleaned then cleaned else path_join workspaceRoot cleaned).

End WithRuntime.

End Filter.
Export Filter.

(** ** The presentation layer *)

Module Presentation.

Definition dq : jsstring := [34].
Definition nl : jsstring := [10].

(** The template literal of a suggestion, around its one hole. *)
Definition sug0 : jsstring :=
    nl ++ js "      <div style=" ++ dq ++ js "margin-top:8px" ++ dq ++
    js ">" ++ nl ++ js "        <div style=" ++ dq ++
    js "opacity:.7;font-size:12px" ++ dq ++ js ">Suggestion</div>" ++ nl ++
    js "        <pre style=" ++ dq ++
    js "white-space:pre-wrap;background:#0001;padding:8px;border-rad" ++
    js "ius:8px" ++ dq ++ js ">".

Definition sug1 : jsstring :=
    js "</pre>" ++ nl ++ js "      </div>".

(** The template literal of an issue card, cut at its holes: badge colour,
    severity, file, start and end line, index, message, suggestion. *)
Definition card0 : jsstring :=
    nl ++ js "      <div style=" ++ dq ++
    js "border:1px solid #0002;border-radius:12px;padding:12px;margi" ++
    js "n:12px 0" ++ dq ++ js ">" ++ nl ++ js "        <div style=" ++ dq ++
    js "display:flex;gap:8px;align-items:center;margin-bottom:6px" ++ dq ++
    js ">" ++ nl ++ js "          <span style=" ++ dq ++
    js "display:inline-block;background:".

Definition card1 : jsstring :=
    js ";color:white;border-radius:999px;padding:2px 8px;font-size:1" ++
    js "2px;text-transform:uppercase" ++ dq ++ js ">".

Definition card2 : jsstring :=
    js "</span>" ++ nl ++ js "          <code style=" ++ dq ++
    js "opacity:.9" ++ dq ++ js ">".

Definition card3 : jsstring :=
    js "</code>" ++ nl ++ js "          <button data-i=" ++ dq.

Definition card4 : jsstring :=
    dq ++ js " style=" ++ dq ++
    js "margin-left:auto;padding:4px 10px;border-radius:8px;border:1" ++
    js "px solid #0002;background:#0001;cursor:pointer" ++ dq ++
    js ">Open</button>" ++ nl ++ js "        </div>" ++ nl ++ js "        <div>".

Definition card5 : jsstring :=
    js "</div>" ++ nl ++ js "        ".

Definition card6 : jsstring :=
    nl ++ js "      </div>" ++ nl ++ js "    ".

(** The template literal of the panel, cut at its holes: summary, heading,
    cards, and the issues serialised into the script. *)
Definition html0 : jsstring :=
    nl ++ js "    <div style=" ++ dq ++
    js "font-family: system-ui, -apple-system, Segoe UI, Roboto, Hel" ++
    js "vetica, Arial; padding:16px; line-height:1.5" ++ dq ++ js ">" ++ nl ++
    js "      <h2 style=" ++ dq ++ js "margin:0 0 8px 0" ++ dq ++
    js ">AI Review</h2>" ++ nl ++ js "      <pre style=" ++ dq ++
    js "white-space:pre-wrap;background:#0001;padding:12px;border-ra" ++
    js "dius:12px" ++ dq ++ js ">".

Definition html1 : jsstring :=
    js "</pre>" ++ nl ++ js "      ".

Definition html2 : jsstring :=
    nl ++ js "      ".

Definition html3 : jsstring :=
    nl ++ js "      <script>" ++ nl ++
    js "        const vscode = acquireVsCodeApi();" ++ nl ++
    js "        const btns = document.querySelectorAll('button[data-" ++
    js "i]');" ++ nl ++
    js "        btns.forEach(b => b.addEventListener('click', () => " ++
    js "{" ++ nl ++
    js "          const i = Number(b.getAttribute('data-i'));" ++ nl ++
    js "          const it = ".

Definition html4 : jsstring :=
    js "[i];" ++ nl ++
    js "          vscode.postMessage({ cmd: 'open', file: it.file, s" ++
    js "tartLine: it.startLine, endLine: it.endLine });" ++ nl ++
    js "        }));" ++ nl ++ js "      </script>" ++ nl ++ js "    </div>" ++
    nl ++ js "  ".

Definition heading0 : jsstring :=
    js "<h3 style=" ++ dq ++ js "margin:16px 0 8px" ++ dq ++ js ">Issues (".

Definition heading1 : jsstring :=
    js ")</h3>".

Definition noIssues : jsstring :=
    js "<p style=" ++ dq ++ js "opacity:.7;margin-top:12px" ++ dq ++
    js ">No issues reported.</p>".

(** *** [JSON.stringify] *)

Definition hexDigit (n : N) : N := if n <? 10 then 48 + n else 87 + n.

(** The escape [\uXXXX], in lower-case hexadecimal. *)
Definition unicodeEscape (c : N) : jsstring :=
  [92; 117; hexDigit (c / 4096 mod 16); hexDigit (c / 256 mod 16);
   hexDigit (c / 16 mod 16); hexDigit (c mod 16)].

(** [QuoteJSONString] without the surrounding quotes: quote, backslash and
    control characters are escaped, a lone surrogate is written as an
    escape, everything else (the angle brackets and the slash included) is
    copied. *)
Fixpoint quoteUnits (s : jsstring) : jsstring :=
  match s with
  | [] => []
  | c :: r =>
      if c =? 34 then [92; 34] ++ quoteUnits r
      else if c =? 92 then [92; 92] ++ quoteUnits r
      else if c =? 8 then [92; 98] ++ quoteUnits r
      else if c =? 9 then [92; 116] ++ quoteUnits r
      else if c =? 10 then [92; 110] ++ quoteUnits r
      else if c =? 12 then [92; 102] ++ quoteUnits r
      else if c =? 13 then [92; 114] ++ quoteUnits r
      else if c <? 32 then unicodeEscape c ++ quoteUnits r
      else if isLead c then
        match r with
        | d :: r' => if isTrail d then c :: d :: quoteUnits r'
                     else unicodeEscape c ++ quoteUnits r
        | [] => unicodeEscape c
        end
      else if isTrail c then unicodeEscape c ++ quoteUnits r
      else c :: quoteUnits r
  end.

Definition quoteJSONString (s : jsstring) : jsstring := dq ++ quoteUnits s ++ dq.

(** An array index: the canonical decimal form of an integer below
    [2^32 - 1].  Such keys are enumerated first, in ascending order. *)
Definition arrayIndex (k : jsstring) : option Z :=
  match k with
  | [] => None
  | d :: r =>
      if forallb isDigit k && (negb (d =? 48) || negb (nonEmpty r))
      then let v := Reference.digitsVal k in
           if (v <? 4294967295)%Z then Some v else None
      else None
  end.

Fixpoint insertIndexed {A : Type} (x : Z * A) (l : list (Z * A)) : list (Z * A) :=
  match l with
  | [] => [x]
  | y :: r => if (fst x <? fst y)%Z then x :: l else y :: insertIndexed x r
  end.

(** [OrdinaryOwnPropertyKeys]: index keys ascending, then the other keys in
    insertion order. *)
Definition ownEntries {A : Type} (ps : list (jsstring * A)) : list (jsstring * A) :=
  let indexed := fold_right (fun p acc =>
                   match arrayIndex (fst p) with
                   | Some i => insertIndexed (i, p) acc
                   | None => acc
                   end) [] ps in
  List.map snd indexed
  ++ List.filter (fun p => match arrayIndex (fst p) with
                           | Some _ => false | None => true end) ps.

(** The members of an object, each with its serialised value; a member
    whose value is [undefined] is left out. *)
Fixpoint members (l : list (jsstring * option jsstring)) (first : bool) : jsstring :=
  match l with
  | [] => []
  | (k, Some t) :: r =>
      (if first then [] else js ",") ++ quoteJSONString k ++ js ":" ++ t
      ++ members r false
  | (_, None) :: r => members r first
  end.

Section WithRuntime.
Context `{Runtime}.

(** [JSON.stringify(v)] without indentation; [None] is [undefined].  The
    named properties of an array are not serialised. *)
Fixpoint stringify (v : value) : option jsstring :=
  match v with
  | VUndefined => None
  | VNull => Some (js "null")
  | VBool true => Some (js "true")
  | VBool false => Some (js "false")
  | VNum (Fin q) => Some (NumberToString (Fin q))
  | VNum _ => Some (js "null")
  | VStr s => Some (quoteJSONString s)
  | VArr es _ =>
      Some (js "["
            ++ (fix elems (l : list value) : jsstring :=
                  match l with
                  | [] => []
                  | x :: r =>
                      (match stringify x with Some t => t | None => js "null" end)
                      ++ match r with [] => [] | _ => js "," ++ elems r end
                  end) es
            ++ js "]")
  | VObj ps =>
      let rendered :=
        (fix each (l : list (jsstring * value)) : list (jsstring * option jsstring) :=
           match l with
           | [] => []
           | (k, x) :: r => (k, stringify x) :: each r
           end) ps in
      Some (js "{" ++ members (ownEntries rendered) true ++ js "}")
  end.

(** The callback of [issues.map] in [showReviewPanel]: one card. *)
Definition issueCard (it : value) (i : nat) : option jsstring :=
  sev ← getProp it (js "severity");
  let badge := if strictEq sev (VStr (js "blocker")) then js "#b00020"
               else if strictEq sev (VStr (js "major")) then js "#c77800"
               else js "#5e6ad2" in
  f ← getProp it (js "file");
  file ← asString (jsOr f (VStr []));
  m ← getProp it (js "message");
  msg ← asString (jsOr m (VStr []));
  sg ← getProp it (js "suggestion");
  sug ← (if truthy sg
         then s ← asString sg; Some (sug0 ++ escapeHtml s ++ sug1)
         else Some []);
  sevText ← asString sev;
  sl ← getProp it (js "startLine");
  startLine ← ToString sl;
  el ← getProp it (js "endLine");
  endLine ← ToString el;
  Some (card0 ++ badge ++ card1 ++ escapeHtml sevText ++ card2
        ++ escapeHtml file ++ js ":" ++ startLine ++ js "-" ++ endLine
        ++ card3 ++ NumberToString (num_of_nat i) ++ card4
        ++ escapeHtml msg ++ card5 ++ sug ++ card6).

Fixpoint issueCards (l : list value) (i : nat) : option jsstring :=
  match l with
  | [] => Some []
  | it :: r => c ← issueCard it i; cs ← issueCards r (S i); Some (c ++ cs)
  end.

(** The markup assigned to [panel.webview.html]. *)
Definition panelHtml (review : ReviewResult) : option jsstring :=
  es ← asArray (jsOr (issues review) (VArr [] []));
  items ← issueCards es 0;
  let summaryText := match summary review with
                     | [] => js "No summary"
                     | s => s
                     end in
  let heading := match es with
                 | [] => noIssues
                 | _ => heading0 ++ NumberToString (num_of_nat (length es)) ++ heading1
                 end in
  json ← stringify (jsOr (issues review) (VArr [] []));
  Some (html0 ++ escapeHtml summaryText ++ html1 ++ heading ++ html2 ++ items
        ++ html3 ++ json ++ html4).

(** *** Diagnostics *)

Inductive DiagnosticSeverity : Type := SevError | SevWarning | SevHint.

(** A diagnostic: the zero-based lines of its range (the columns are 0 and
    1000), the message and the level. *)
Record diagnostic : Type := {
  startRow : value;
  endRow : value;
  message : value;
  level : DiagnosticSeverity
}.

Definition toDiagnostic (it : value) : option diagnostic :=
  sl ← getProp it (js "startLine");
  s ← jsSub sl (VNum (Fin 1));
  el ← getProp it (js "endLine");
  e ← jsSub el (VNum (Fin 1));
  sev ← getProp it (js "severity");
  m ← getProp it (js "message");
  Some {| startRow := s; endRow := e; message := m;
          level := if strictEq sev (VStr (js "blocker")) then SevError
                   else if strictEq sev (VStr (js "major")) then SevWarning
                   else SevHint |}.

(** [grouped]: the issues by absolute path, in the order the paths first
    appear. *)
Fixpoint groupPush (g : list (jsstring * list value)) (k : jsstring) (it : value)
    : list (jsstring * list value) :=
  match g with
  | [] => [(k, [it])]
  | (k', l) :: r =>
      if JsString.eqb k' k then (k', l ++ [it]) :: r else (k', l) :: groupPush r k it
  end.

Fixpoint groupIssues (l : list value) (workspaceRoot : jsstring)
    (g : list (jsstring * list value)) : option (list (jsstring * list value)) :=
  match l with
  | [] => Some g
  | it :: r =>
      f ← getProp it (js "file");
      filePath ← toAbsolutePath f workspaceRoot;
      groupIssues r workspaceRoot (groupPush g filePath it)
  end.

(** The entries handed to [diagCollection.set]. *)
Definition diagnosticEntries (issues : value) (workspaceRoot : jsstring)
    : option (list (jsstring * list diagnostic)) :=
  es ← iterate issues;
  g ← groupIssues es workspaceRoot [];
  mapM (fun '(file, l) => ds ← mapM toDiagnostic l; Some (file, ds)) g.

End WithRuntime.

End Presentation.
Export Presentation.

(** ** The command pipeline *)

Module Pipeline.

(** What the code throws: an [Error] it builds itself, or an error raised
    by the engine or the host (a [TypeError], a rejected promise), whose
    message text is theirs. *)
Inductive exn : Type :=
| Error (message : jsstring)
| EngineError.

(** The calls the command makes on the host, in order. *)
Inductive event : Type :=
| ShowErrorMessage (msg : jsstring)
| ShowInformationMessage (msg : jsstring)
| WithProgress (title : jsstring)
| ProgressReport (msg : jsstring)
| ShowInputBox
| Exec (cmd : jsstring)
| FetchGet (url : jsstring)
| FetchPost (url body : jsstring)
| OpenTextDocument (path : jsstring)
| CreateWebviewPanel
| SetWebviewHtml (html : jsstring)
| DiagnosticsClear
| DiagnosticsSet (entries : list (jsstring * list diagnostic))
| ConsoleError (err : exn)
| ShowReviewFailed (err : exn).

(** The text of [ShowReviewFailed]: [`AI Review failed: ${err?.message || String(err)}`],
    known for the errors the code builds. *)
Definition reviewFailedText (err : exn) : option jsstring :=
  match err with
  | Error [] => Some (js "AI Review failed: Error")
  | Error m => Some (js "AI Review failed: " ++ m)
  | EngineError => None
  end.

(** An HTTP response: [res.ok], [res.status] and what [res.text()] gives
    ([None] when reading the body fails). *)
Record response : Type := { ok : bool; status : N; bodyText : option jsstring }.

(** What the command finds around it. *)
Record World : Type := {
  workspaceFolder : option jsstring;     (* fsPath of the first folder *)
  specFile : option jsstring;            (* .ai-review/spec.yml, if it exists *)
  inputBox : option jsstring;            (* the user's text; None if dismissed *)
  gitVersion : bool;                     (* does git --version succeed *)
  gitDiff : option jsstring;             (* stdout of git diff; None if it fails *)
  configModel : option jsstring;
  configRemoteUrl : option jsstring;
  fetchGet : jsstring -> option response;             (* None: fetch rejects *)
  fetchPost : jsstring -> jsstring -> option response;
  textDocument : jsstring -> option jsstring          (* None: cannot be opened *)
}.

(** A computation: its result or the exception it throws, and the host
    calls it made. *)
Definition M (A : Type) : Type := (A + exn) * list event.

Definition ret {A : Type} (a : A) : M A := (inl a, []).
Definition throw {A : Type} (e : exn) : M A := (inr e, []).
Definition emit (e : event) : M unit := (inl tt, [e]).

Definition bind {A B : Type} (m : M A) (k : A -> M B) : M B :=
  match m with
  | (inl a, t) => let '(r, t') := k a in (r, t ++ t')
  | (inr e, t) => (inr e, t)
  end.

(** [try { m } catch (err) { h(err) }] *)
Definition tryCatch {A : Type} (m : M A) (h : exn -> M A) : M A :=
  match m with
  | (inl a, t) => (inl a, t)
  | (inr e, t) => let '(r, t') := h e in (r, t ++ t')
  end.

(** A pure step that may raise an engine error. *)
Definition engine {A : Type} (o : option A) : M A :=
  match o with
  | Some a => ret a
  | None => throw EngineError
  end.

Notation "'do' x <- m ; k" := (bind m (fun x => k))
  (at level 10, x pattern, m at level 100, k at level 200).
Notation "m ;; k" := (bind m (fun _ => k))
  (at level 100, k at level 200, right associativity).

Definition prompt0 : jsstring :=
    nl ++ js "You are a strict PR reviewer." ++ nl ++ nl ++
    js "AUTHORITATIVE ORDER OF TRUTH:" ++ nl ++
    js "1) Acceptance criteria (SPEC) are absolute. If code matches " ++
    js "the SPEC, do NOT suggest changes that violate it." ++ nl ++
    js "2) Correctness/security next." ++ nl ++
    js "3) Style/nits only when they do not conflict with the SPEC." ++ nl ++
    nl ++ js "Output format (JSON only; no markdown/backticks):" ++ nl ++
    js "{" ++ nl ++ js "  " ++ dq ++ js "summary" ++ dq ++ js ": " ++ dq ++
    js "short overview" ++ dq ++ js "," ++ nl ++ js "  " ++ dq ++
    js "issues" ++ dq ++ js ": [" ++ nl ++ js "    {" ++ nl ++ js "      " ++
    dq ++ js "file" ++ dq ++ js ": " ++ dq ++
    js "path (absolute or workspace-relative)" ++ dq ++ js "," ++ nl ++
    js "      " ++ dq ++ js "startLine" ++ dq ++ js ": 10," ++ nl ++
    js "      " ++ dq ++ js "endLine" ++ dq ++ js ": 12," ++ nl ++
    js "      " ++ dq ++ js "severity" ++ dq ++ js ": " ++ dq ++
    js "blocker" ++ dq ++ js " | " ++ dq ++ js "major" ++ dq ++ js " | " ++
    dq ++ js "nit" ++ dq ++ js "," ++ nl ++ js "      " ++ dq ++
    js "message" ++ dq ++ js ": " ++ dq ++
    js "what & why (reference the specific SPEC line if applicable)" ++ dq ++
    js "," ++ nl ++ js "      " ++ dq ++ js "suggestion" ++ dq ++ js ": " ++
    dq ++ js "optional minimal patch" ++ dq ++ nl ++ js "    }" ++ nl ++
    js "  ]" ++ nl ++ js "}" ++ nl ++ nl ++ js "Specific instructions:" ++
    nl ++ js "- If the SPEC explicitly asks for something unusual (e.g., " ++
    dq ++ js "Require 4 exclamation marks" ++ dq ++
    js "), treat it as correct. Do not override with generic style a" ++
    js "dvice." ++ nl ++
    js "- Where possible, use simple numeric/regex checks to verify " ++
    js "SPEC (e.g., count '!' on the changed line)." ++ nl ++
    js "- If there are zero issues, return {" ++ dq ++ js "summary" ++ dq ++
    js ": " ++ dq ++ js "why it's ok" ++ dq ++ js ", " ++ dq ++ js "issues" ++
    dq ++ js ": []}." ++ nl ++ nl ++ js "Acceptance Criteria (SPEC):" ++ nl.

Definition prompt1 : jsstring :=
    nl ++ nl ++ js "Changed Code (unified diff):" ++ nl.

Definition prompt2 : jsstring :=
    nl ++ nl ++ js "Review rules:" ++ nl ++
    js "- Focus on the changed lines in the diff; only step outside " ++
    js "for clear adjacent spec/security issues." ++ nl ++
    js "- Be precise, actionable, minimal. Use correct line ranges (" ++
    js "1-based)." ++ nl ++ js "- " ++ dq ++ js "blocker" ++ dq ++
    js " = fails spec/tests/security; " ++ dq ++ js "major" ++ dq ++
    js " = correctness/design; " ++ dq ++ js "nit" ++ dq ++
    js " = style (only if it doesn" ++ [8217] ++
    js "t conflict with the SPEC)." ++ nl.

Definition ollamaTags : jsstring := js "http://127.0.0.1:11434/api/tags".
Definition ollamaGenerate : jsstring := js "http://127.0.0.1:11434/api/generate".

Definition serverNotReachable : jsstring :=
  js "Ollama server not reachable at 127.0.0.1:11434. Run `ollama serve`.".

Definition modelNotFound (model : jsstring) : jsstring :=
  js "Model " ++ dq ++ model ++ dq ++ js " not found in Ollama. Run: ollama pull "
  ++ model.

Definition noLocalChanges : jsstring := js "No local changes (git diff is empty).".

Section WithRuntime.
Context `{Runtime}.

Definition readAcceptance (w : World) : M jsstring :=
  match specFile w with
  | Some text => ret text
  | None =>
      emit ShowInputBox ;;
      ret (match inputBox w with
           | Some (c :: s) => c :: s
           | _ => []
           end)
  end.

Definition getGitDiff (w : World) : M jsstring :=
  emit (Exec (js "git --version")) ;;
  if gitVersion w then
    emit (Exec (js "git diff --no-color")) ;;
    match gitDiff w with
    | Some stdout => ret stdout
    | None => throw EngineError
    end
  else throw (Error (js "Git not found in PATH.")).

Definition buildPrompt (acceptance diff : jsstring) : jsstring :=
  trim (prompt0
        ++ (match acceptance with [] => js "(none provided)" | _ => acceptance end)
        ++ prompt1 ++ diff ++ prompt2).

(** [res.json()] *)
Definition resJson (res : response) : option value :=
  t ← bodyText res; JSON_parse t.

(** [safeText(res)] *)
Definition safeText (res : response) : jsstring :=
  match bodyText res with
  | Some t => t
  | None => js "<no body>"
  end.

(** [!!json?.models?.some((m) => m.name === model)]; [None] is a
    [TypeError]. *)
Definition hasModel (json : value) (model : jsstring) : option bool :=
  match json with
  | VUndefined | VNull => Some false
  | _ =>
      models ← getProp json (js "models");
      match models with
      | VUndefined | VNull => Some false
      | VArr ms _ =>
          some (fun m => n ← getProp m (js "name"); Some (strictEq n (VStr model))) ms
      | _ => None
      end
  end.

Definition ensureOllamaReady (w : World) (model : jsstring) : M unit :=
  do json <- tryCatch
               (emit (FetchGet ollamaTags) ;;
                do res <- engine (fetchGet w ollamaTags) ;
                engine (resJson res))
               (fun _ => throw (Error serverNotReachable)) ;
  do found <- engine (hasModel json model) ;
  if found : bool then ret tt else throw (Error (modelNotFound model)).

(** The callback of [map] over the streamed lines. *)
Definition lineResponse (line : jsstring) : value :=
  match v ← JSON_parse line; getProp v (js "response") with
  | Some r => r
  | None => VStr []
  end.

Definition httpError (what : jsstring) (res : response) : exn :=
  Error (what ++ NumberToString (num_of_Z (Z.of_N (status res))) ++ js ": "
         ++ safeText res).

Definition getReview (w : World) (prompt model remoteUrl : jsstring)
    : M ReviewResult :=
  match remoteUrl with
  | [] =>
      ensureOllamaReady w model ;;
      do body <- engine (stringify
                   (VObj [(js "model", VStr model); (js "prompt", VStr prompt);
                          (js "options", VObj [(js "temperature", VNum (Fin 0))])])) ;
      emit (FetchPost ollamaGenerate body) ;;
      do res <- engine (fetchPost w ollamaGenerate body) ;
      if negb (ok res) then throw (httpError (js "Ollama HTTP ") res)
      else
        do text <- engine (bodyText res) ;
        let parts := List.map lineResponse (List.filter nonEmpty (split 10 text)) in
        do combined <- engine (arrayJoin [] parts) ;
        ret (safeParseReview combined)
  | _ =>
      do body <- engine (stringify (VObj [(js "prompt", VStr prompt)])) ;
      emit (FetchPost remoteUrl body) ;;
      do res <- engine (fetchPost w remoteUrl body) ;
      if negb (ok res) then throw (httpError (js "Remote reviewer HTTP ") res)
      else
        do data <- engine (resJson res) ;
        do s <- engine (ps ← getProp data (js "summary"); ToString (jsOr ps (VStr []))) ;
        do found <- engine (getProp data (js "issues")) ;
        ret {| summary := s; issues := jsOr found (VArr [] []) |}
  end.

(** The loop that loads the text of each issue's file. *)
Fixpoint loadTexts (w : World) (root : jsstring) (l : list value) (m : textMap)
    : M textMap :=
  match l with
  | [] => ret m
  | it :: r =>
      do f <- engine (getProp it (js "file")) ;
      do abs <- engine (toAbsolutePath f root) ;
      emit (OpenTextDocument abs) ;;
      loadTexts w root r (match textDocument w abs with
                          | Some text => mapSet m f text
                          | None => m
                          end)
  end.

Definition showReviewPanel (review : ReviewResult) : M unit :=
  emit CreateWebviewPanel ;;
  do html <- engine (panelHtml review) ;
  emit (SetWebviewHtml html).

Definition publishDiagnostics (issues : value) (root : jsstring) : M unit :=
  do entries <- engine (diagnosticEntries issues root) ;
  emit DiagnosticsClear ;;
  emit (DiagnosticsSet entries).

(** The body of the [try] block of the command. *)
Definition review (w : World) (root : jsstring) : M unit :=
  emit (ProgressReport (js "Reading acceptance criteria")) ;;
  do acceptance <- readAcceptance w ;
  emit (ProgressReport (js "Collecting diff (git)")) ;;
  do diff <- getGitDiff w ;
  match trim diff with
  | [] => emit (ShowInformationMessage noLocalChanges)
  | _ =>
      let prompt := buildPrompt acceptance diff in
      emit (ProgressReport (js "Calling local model (Ollama)")) ;;
      let model := match configModel w with
                   | Some (c :: s) => c :: s
                   | _ => js "llama3.1:8b"
                   end in
      let remoteUrl := match configRemoteUrl w with
                       | Some s => s
                       | None => []
                       end in
      do review <- getReview w prompt model remoteUrl ;
      do its <- engine (iterate (issues review)) ;
      do fileTextByPath <- loadTexts w root its [] ;
      do kept <- engine (filterIssuesAgainstSpec (issues review) acceptance
                           fileTextByPath) ;
      let review := {| summary := summary review; issues := kept |} in
      emit (ProgressReport (js "Publishing results")) ;;
      showReviewPanel review ;;
      publishDiagnostics kept root ;;
      do es <- engine (asArray kept) ;
      emit (ShowInformationMessage
              (js "AI Review complete: " ++ NumberToString (num_of_nat (length es))
               ++ js " issue(s)."))
  end.

(** The handler registered for [pr-reviewer.review]. *)
Definition reviewCommand (w : World) : M unit :=
  match workspaceFolder w with
  | None => emit (ShowErrorMessage (js "Open a folder/workspace first."))
  | Some root =>
      emit (WithProgress (js "AI Review: running" ++ [8230])) ;;
      tryCatch (review w root)
        (fun err => emit (ConsoleError err) ;; emit (ShowReviewFailed err))
  end.

End WithRuntime.

End Pipeline.
Export Pipeline.

(** ** Vocabulary of the statements *)

Module Statements.

(** The units that open or close markup or an attribute value. *)
Definition markupUnit (c : N) : bool :=
  (c =? 60) || (c =? 62) || (c =? 34) || (c =? 39).

(** An issue as the response parser leaves it: a start line that is a
    number not below 1, an end line that is a number not below the start
    line, one of the three severities, and a string as file. *)
Definition clamped (it : value) : Prop :=
  exists (s e : number) (sev : value) (f : jsstring),
    getProp it (js "startLine") = Some (VNum s) /\ num_leb (Fin 1) s = true
    /\ getProp it (js "endLine") = Some (VNum e) /\ num_leb s e = true
    /\ getProp it (js "severity") = Some sev /\ isSeverity sev = true
    /\ getProp it (js "file") = Some (VStr f).

(** The number a property of the model's issue converts to; [NaN] when the
    property is missing or not numeric. *)
Definition numberOf `{Runtime} (src : value) (k : jsstring) : option number :=
  v ← getProp src k; ToNumber v.

(** How the issue [it] of the result defaults the fields of the issue [src]
    the model supplied. *)
Definition defaulted `{Runtime} (src it : value) : Prop :=
  forall s e : number,
    getProp it (js "startLine") = Some (VNum s) ->
    getProp it (js "endLine") = Some (VNum e) ->
    (numberOf src (js "startLine") = Some NaN -> s = Fin 1)
    /\ (numberOf src (js "endLine") = Some NaN -> e = s)
    /\ (forall m, numberOf src (js "endLine") = Some m -> num_ltb m s = true -> e = s)
    /\ (forall sev, getProp src (js "severity") = Some sev ->
          getProp it (js "severity")
          = Some (if isSeverity sev then sev else VStr (js "major"))).

(** The path carries none of the prefixes that the normalisation strips. *)
Definition prefixFree (p : jsstring) : Prop :=
  startsWith (js "a/") p = false /\ startsWith (js "b/") p = false
  /\ startsWith (js "./") p = false /\ startsWith (js "/") p = false.

(** The number [n] when it is above [low], and [low] otherwise (so also when
    [n] is [NaN]). *)
Definition lineAtLeast (low n : number) : number :=
  if num_ltb low n then n else low.

(** The fields of the issue [it] of the result, computed from the issue
    [src] that the model supplied.  With [n0] and [n1] the numbers that the
    supplied lines convert to ([NaN] when one is missing or not numeric):
    the start line is [n0] when that is above 1 and 1 otherwise, the end
    line is [n1] when that is above the start line and the start line
    otherwise, and the severity is the supplied one when it is one of the
    three and major otherwise. *)
Definition coerced `{Runtime} (src it : value) : Prop :=
  exists (n0 n1 : number) (sev : value),
    numberOf src (js "startLine") = Some n0
    /\ numberOf src (js "endLine") = Some n1
    /\ getProp src (js "severity") = Some sev
    /\ getProp it (js "startLine") = Some (VNum (lineAtLeast (Fin 1) n0))
    /\ getProp it (js "endLine")
       = Some (VNum (lineAtLeast (lineAtLeast (Fin 1) n0) n1))
    /\ getProp it (js "severity")
       = Some (if isSeverity sev then sev else VStr (js "major")).

(** The string [s] is the pattern text [p] up to the case of ASCII letters. *)
Definition sameLetters (p s : jsstring) : Prop :=
  List.map lower p = List.map lower s.

(** The string [s] begins with the rule of the spec filter: the word
    require, white space, the digits [digits], white space, the word
    exclamation, optional white space, the word mark (in any case). *)
Definition ruleAt (digits s : jsstring) : Prop :=
  exists kw sp1 sp2 ex sp3 mk rest : jsstring,
    s = kw ++ sp1 ++ digits ++ sp2 ++ ex ++ sp3 ++ mk ++ rest
    /\ sameLetters (js "require") kw
    /\ sp1 <> [] /\ forallb isSpace sp1 = true
    /\ digits <> [] /\ forallb isDigit digits = true
    /\ sp2 <> [] /\ forallb isSpace sp2 = true
    /\ sameLetters (js "exclamation") ex
    /\ forallb isSpace sp3 = true
    /\ sameLetters (js "mark") mk.

(** The rule occurs somewhere in the acceptance text. *)
Definition ruleOccurs (acceptance : jsstring) : Prop :=
  exists pre digits s : jsstring, acceptance = pre ++ s /\ ruleAt digits s.

(** The leftmost occurrence of the rule in the acceptance text carries the
    digits [digits]. *)
Definition leftmostRule (acceptance digits : jsstring) : Prop :=
  exists pre s : jsstring,
    acceptance = pre ++ s /\ ruleAt digits s
    /\ forall pre' s' d', acceptance = pre' ++ s' -> ruleAt d' s' ->
         (length pre <= length pre')%nat.

(** The text mentions the word exclamation, in any case. *)
Definition mentionsExclamation (t : jsstring) : Prop :=
  exists pre w post : jsstring,
    t = pre ++ w ++ post /\ sameLetters (js "exclamation") w.

(** The condition under which the spec filter drops an issue, [required]
    being the number of the rule: the text of the issue's file is loaded and
    not empty, the line at index max(0, startLine - 1) of it (the empty line
    if there is none) has exactly [required] exclamation marks, and the
    message mentions the word exclamation. *)
Definition dropped `{Runtime} (required : value) (fileTextByPath : textMap)
    (it : value) : Prop :=
  exists (f : value) (text : jsstring) (start d i msg : value) (msgText : jsstring),
    getProp it (js "file") = Some f
    /\ mapGet fileTextByPath f = Some text /\ text <> []
    /\ getProp it (js "startLine") = Some start
    /\ jsSub start (VNum (Fin 1)) = Some d /\ Math_max (VNum (Fin 0)) d = Some i
    /\ strictEq (VNum (num_of_nat (countChar 33 (lineAt (split 10 text) i))))
         required = true
    /\ getProp it (js "message") = Some msg /\ ToString msg = Some msgText
    /\ mentionsExclamation msgText.

(** A request to an inference endpoint. *)
Definition isNetworkCall (e : event) : bool :=
  match e with
  | FetchGet _ | FetchPost _ _ => true
  | _ => false
  end.

(** A report of an error to the user or the console. *)
Definition isErrorReport (e : event) : bool :=
  match e with
  | ShowErrorMessage _ | ShowReviewFailed _ | ConsoleError _ => true
  | _ => false
  end.

(** The unit [c] does not occur in [s]. *)
Definition noUnit (c : N) (s : jsstring) : Prop :=
  forallb (fun x => negb (x =? c)) s = true.

(** A brace-delimited text. *)
Definition objectText (obj : jsstring) : Prop :=
  exists mid : jsstring, obj = 123 :: mid ++ [125].

(** A positive integer. *)
Definition positiveInteger (v : value) : Prop :=
  exists (n : number) (z : Z), v = VNum n /\ num_integer n = Some z /\ (0 < z)%Z.

End Statements.
Export Statements.

(** ** Concrete inputs *)

Module Samples.

(** The body a remote proxy returns in the scenario of the specification. *)
Definition proxyBody : jsstring :=
    js "{" ++ dq ++ js "summary" ++ dq ++ js ":" ++ dq ++ js "ok" ++ dq ++
    js ", " ++ dq ++ js "issues" ++ dq ++ js ":[{" ++ dq ++ js "file" ++ dq ++
    js ":" ++ dq ++ js "a/x.ts" ++ dq ++ js ", " ++ dq ++ js "startLine" ++
    dq ++ js ":5, " ++ dq ++ js "endLine" ++ dq ++ js ":3, " ++ dq ++
    js "severity" ++ dq ++ js ":" ++ dq ++ js "weird" ++ dq ++ js ", " ++ dq ++
    js "message" ++ dq ++ js ":" ++ dq ++ js "m" ++ dq ++ js "}]}".

(** The issue of [proxyBody], as parsed. *)
Definition proxyIssue : value :=
  VObj [(js "file", VStr (js "a/x.ts")); (js "startLine", VNum (Fin 5));
        (js "endLine", VNum (Fin 3)); (js "severity", VStr (js "weird"));
        (js "message", VStr (js "m"))].

Definition proxyParsed : value :=
  VObj [(js "summary", VStr (js "ok")); (js "issues", VArr [proxyIssue] [])].

(** The same issue after the clamping of the response parser. *)
Definition proxyIssueClamped : value :=
  VObj [(js "file", VStr (js "x.ts")); (js "startLine", VNum (Fin 5));
        (js "endLine", VNum (Fin 5)); (js "severity", VStr (js "major"));
        (js "message", VStr (js "m"))].

(** A model output whose issue starts at line 2.5. *)
Definition fractionalStart : jsstring :=
    js "{" ++ dq ++ js "issues" ++ dq ++ js ":[{" ++ dq ++ js "startLine" ++
    dq ++ js ":2.5}]}".

(** A model output that is not JSON and starts with a space. *)
Definition paddedProse : jsstring :=
    js " x".

(** A model output that is not JSON. *)
Definition plainProse : jsstring :=
    js "The change looks fine to me.".

(** The flagged line of the scenario, with four exclamation marks. *)
Definition fourMarksLine : jsstring :=
    js "alert(" ++ dq ++ js "hi!!!!" ++ dq ++ js ")".

(** The same line with three exclamation marks. *)
Definition threeMarksLine : jsstring :=
    js "alert(" ++ dq ++ js "hi!!!" ++ dq ++ js ")".

(** The acceptance text of the scenario and the issue it is about. *)
Definition requireFour : jsstring := js "require 4 exclamation marks".

Definition marksIssue : value :=
  VObj [(js "file", VStr (js "app.js")); (js "startLine", VNum (Fin 1));
        (js "endLine", VNum (Fin 1)); (js "severity", VStr (js "major"));
        (js "message", VStr (js "Missing required exclamation marks"))].

Definition fourMarksFile : textMap := [(VStr (js "app.js"), fourMarksLine)].
Definition threeMarksFile : textMap := [(VStr (js "app.js"), threeMarksLine)].

(** A rule that requires no exclamation mark, and a file that is loaded
    and empty. *)
Definition requireZero : jsstring := js "require 0 exclamation marks".
Definition emptyFile : textMap := [(VStr (js "app.js"), [])].

(** An acceptance text without the rule. *)
Definition noRule : jsstring := js "Given valid code, total reflects discount".

(** A world that answers nothing: a folder is open, the criteria file is
    there, git works, and every request fails. *)
Definition quietWorld : World := {|
  workspaceFolder := Some (js "/ws");
  specFile := Some requireFour;
  inputBox := None;
  gitVersion := true;
  gitDiff := Some (js "diff --git a/app.js b/app.js");
  configModel := None;
  configRemoteUrl := None;
  fetchGet := fun _ => None;
  fetchPost := fun _ _ => None;
  textDocument := fun _ => None
|}.

(** The same world with no local change. *)
Definition noChangesWorld : World := {|
  workspaceFolder := workspaceFolder quietWorld;
  specFile := specFile quietWorld;
  inputBox := inputBox quietWorld;
  gitVersion := gitVersion quietWorld;
  gitDiff := Some [];
  configModel := configModel quietWorld;
  configRemoteUrl := configRemoteUrl quietWorld;
  fetchGet := fetchGet quietWorld;
  fetchPost := fetchPost quietWorld;
  textDocument := textDocument quietWorld
|}.

(** The JSON body of an error response of the inference server. *)
Definition tagsErrorBody : jsstring :=
    js "{" ++ dq ++ js "error" ++ dq ++ js ":" ++ dq ++ js "internal error" ++
    dq ++ js "}".

(** The same world with an inference server that answers the request for
    its catalogue with the status 500 and a JSON error body. *)
Definition tagsErrorWorld : World := {|
  workspaceFolder := workspaceFolder quietWorld;
  specFile := specFile quietWorld;
  inputBox := inputBox quietWorld;
  gitVersion := gitVersion quietWorld;
  gitDiff := gitDiff quietWorld;
  configModel := configModel quietWorld;
  configRemoteUrl := configRemoteUrl quietWorld;
  fetchGet := fun _ => Some {| ok := false; status := 500; bodyText := Some tagsErrorBody |};
  fetchPost := fetchPost quietWorld;
  textDocument := textDocument quietWorld
|}.

(** The same world with a remote proxy configured, which answers with
    [proxyBody]. *)
Definition proxyUrl : jsstring := js "http://localhost:8787/review".

Definition proxyWorld : World := {|
  workspaceFolder := workspaceFolder quietWorld;
  specFile := specFile quietWorld;
  inputBox := inputBox quietWorld;
  gitVersion := gitVersion quietWorld;
  gitDiff := gitDiff quietWorld;
  configModel := configModel quietWorld;
  configRemoteUrl := Some proxyUrl;
  fetchGet := fetchGet quietWorld;
  fetchPost := fun _ _ => Some {| ok := true; status := 200; bodyText := Some proxyBody |};
  textDocument := textDocument quietWorld
|}.

(** Text that closes the script element of the panel and opens an element
    of its own. *)
Definition scriptBreakout : jsstring := js "</script><img src=x onerror=alert(1)>".

(** A model output whose message is [scriptBreakout]. *)
Definition hostileOutput : jsstring :=
    js "{" ++ dq ++ js "summary" ++ dq ++ js ":" ++ dq ++ js "s" ++ dq ++
    js "," ++ dq ++ js "issues" ++ dq ++ js ":[{" ++ dq ++ js "file" ++ dq ++
    js ":" ++ dq ++ js "x.ts" ++ dq ++ js "," ++ dq ++ js "startLine" ++ dq ++
    js ":1," ++ dq ++ js "endLine" ++ dq ++ js ":1," ++ dq ++ js "severity" ++
    dq ++ js ":" ++ dq ++ js "nit" ++ dq ++ js "," ++ dq ++ js "message" ++
    dq ++ js ":" ++ dq ++ js "</script><img src=x onerror=alert(1)>" ++ dq ++
    js "}]}".

(** An object text, and a model output that wraps it in a fence with prose around. *)
Definition okObject : jsstring :=
    js "{" ++ dq ++ js "summary" ++ dq ++ js ":" ++ dq ++ js "ok" ++ dq ++
    js "," ++ dq ++ js "issues" ++ dq ++ js ":[]}".

Definition fencedBefore : jsstring := js "Here is the review:" ++ nl.
Definition fencedInfo : jsstring := js "json" ++ nl.
Definition fencedTail : jsstring := nl.
Definition fencedAfter : jsstring := nl ++ js "Done.".

Definition fencedOutput : jsstring :=
  fencedBefore ++ ticks ++ fencedInfo ++ okObject ++ fencedTail ++ ticks
  ++ fencedAfter.

(** An object text with a fence marker inside a string, and the same text in a fence. *)
Definition tickedObject : jsstring :=
    js "{" ++ dq ++ js "summary" ++ dq ++ js ":" ++ dq ++
    js "use ``` to quote" ++ dq ++ js "," ++ dq ++ js "issues" ++ dq ++
    js ":[]}".

Definition tickedOutput : jsstring :=
  ticks ++ js "json" ++ nl ++ tickedObject ++ nl ++ ticks.

End Samples.
Export Samples.

(** ** Proof steps *)

(** Two property names are different strings. *)
Ltac keys_differ :=
  let H := fresh in intros H; vm_compute in H; discriminate H.

(** Two concatenations that differ in their bracketing. *)
Ltac list_normal :=
  repeat (rewrite <- app_assoc || rewrite <- app_comm_cons); reflexivity.

(** ** Navigation from the panel *)

Module Navigation.

Fixpoint dropDots (s : jsstring) : jsstring :=
  match s with
  | c :: r => if c =? 46 then dropDots r else s
  | [] => []
  end.

(** [s.replace(/^\/+|^\.+\//g, '')]: both alternatives are anchored, so
    also with the [g] flag only a match at the start is replaced: the
    leading slashes, or the leading dots with the slash that follows them. *)
Definition stripSlashesOrDots (s : jsstring) : jsstring :=
  if startsWith (js "/") s then dropSlashes s
  else if startsWith (js ".") s then
    match dropDots s with
    | c :: r => if c =? 47 then r else s
    | [] => s
    end
  else s.

(** The argument of [path.basename] in [resolveToExistingPath]. *)
Definition searchName (p : jsstring) : jsstring :=
  stripSlashesOrDots (stripPrefix (js "b/") (stripPrefix (js "a/") p)).

(** [path.basename] of POSIX: the part after the last slash, the trailing
    slashes left aside. *)
Fixpoint lastSegment (s acc : jsstring) : jsstring :=
  match s with
  | [] => acc
  | c :: r => if c =? 47 then lastSegment r [] else lastSegment r (acc ++ [c])
  end.

Definition posixBasename (p : jsstring) : jsstring :=
  lastSegment (rev (dropSlashes (rev p))) [].

(** What the handler of the panel finds around it: [fs.stat] (does the
    path exist), [findFiles] for an include pattern, with the exclusion of
    [node_modules] and the limit of 2 that the code fixes ([None]: the call
    is rejected), [openTextDocument], [showTextDocument], and
    [path.basename]. *)
Record Workspace : Type := {
  stat : jsstring -> bool;
  findFiles : jsstring -> option (list jsstring);
  openTextDocument : jsstring -> bool;
  showTextDocument : jsstring -> bool;
  path_basename : jsstring -> jsstring
}.

(** The calls the handler makes on the host, in order. *)
Inductive navEvent : Type :=
| Stat (path : jsstring)
| FindFiles (include : jsstring)
| OpenDocument (path : jsstring)
| ShowDocument (path : jsstring)
| SetSelection (startRow endRow : value)
| RevealRange (startRow endRow : value)
| CouldNotOpen (file startLine endLine : jsstring) (err : exn).

Definition Nav (A : Type) : Type := (A + exn) * list navEvent.

Definition navRet {A : Type} (a : A) : Nav A := (inl a, []).
Definition navThrow {A : Type} (e : exn) : Nav A := (inr e, []).
Definition navEmit (e : navEvent) : Nav unit := (inl tt, [e]).

Definition navBind {A B : Type} (m : Nav A) (k : A -> Nav B) : Nav B :=
  match m with
  | (inl a, t) => let '(r, t') := k a in (r, t ++ t')
  | (inr e, t) => (inr e, t)
  end.

Definition navTry {A : Type} (m : Nav A) (h : exn -> Nav A) : Nav A :=
  match m with
  | (inl a, t) => (inl a, t)
  | (inr e, t) => let '(r, t') := h e in (r, t ++ t')
  end.

Definition navEngine {A : Type} (o : option A) : Nav A :=
  match o with
  | Some a => navRet a
  | None => navThrow EngineError
  end.

Notation "'step' x <- m ; k" := (navBind m (fun x => k))
  (at level 10, x pattern, m at level 100, k at level 200).
Notation "m ;;; k" := (navBind m (fun _ => k))
  (at level 100, k at level 200, right associativity).

Section WithRuntime.
Context `{Runtime}.

Definition resolveToExistingPath (ws : Workspace) (p : value)
    (workspaceRoot : jsstring) : Nav jsstring :=
  step abs <- navEngine (toAbsolutePath p workspaceRoot) ;
  navEmit (Stat abs) ;;;
  if stat ws abs then navRet abs
  else
    step s <- navEngine (asString p) ;
    let base := path_basename ws (searchName s) in
    navEmit (FindFiles (js "**/" ++ base)) ;;;
    step matches <- navEngine (findFiles ws (js "**/" ++ base)) ;
    match matches with
    | first :: _ => navRet first
    | [] => navRet abs
    end.

(** [msg?.cmd] and the other reads of the message. *)
Definition msgProp (msg : value) (k : jsstring) : value :=
  match getProp msg k with
  | Some v => v
  | None => VUndefined
  end.

(** [Math.max(0, v - 1)] *)
Definition rowOf (v : value) : option value :=
  d ← jsSub v (VNum (Fin 1)); Math_max (VNum (Fin 0)) d.

(** The handler of the messages of the panel. *)
Definition onDidReceiveMessage (ws : Workspace) (workspaceRoot : jsstring)
    (msg : value) : Nav unit :=
  if strictEq (msgProp msg (js "cmd")) (VStr (js "open")) then
    navTry
      (step file <- navEngine (getProp msg (js "file")) ;
       step abs <- resolveToExistingPath ws file workspaceRoot ;
       navEmit (OpenDocument abs) ;;;
       if openTextDocument ws abs then
         navEmit (ShowDocument abs) ;;;
         if showTextDocument ws abs then
           step startRow <- navEngine (rowOf (msgProp msg (js "startLine"))) ;
           step endRow <- navEngine (rowOf (msgProp msg (js "endLine"))) ;
           navEmit (SetSelection startRow endRow) ;;;
           navEmit (RevealRange startRow endRow)
         else navThrow EngineError
       else navThrow EngineError)
      (fun e =>
         step file <- navEngine (ToString (msgProp msg (js "file"))) ;
         step startLine <- navEngine (ToString (msgProp msg (js "startLine"))) ;
         step endLine <- navEngine (ToString (msgProp msg (js "endLine"))) ;
         navEmit (CouldNotOpen file startLine endLine e))
  else navRet tt.

End WithRuntime.

End Navigation.
Export Navigation.

(** ** Vocabulary of the further statements *)

Module Further.

(** A value that is no object and no array. *)
Definition primitive (v : value) : bool :=
  match v with
  | VArr _ _ | VObj _ => false
  | _ => true
  end.

(** A value that the panel can print as text: a string, or a falsy value
    (for which the panel prints nothing). *)
Definition textual (v : value) : bool :=
  match v with
  | VStr _ => true
  | _ => negb (truthy v)
  end.

(** A value that converts to a string without a [TypeError]. *)
Definition converts `{Runtime} (v : value) : bool :=
  match ToString v with Some _ => true | None => false end.

(** An issue that the panel can print: an object or another value with
    properties, whose file, message and suggestion are textual, whose
    severity is a string and whose lines convert to strings. *)
Definition printable `{Runtime} (it : value) : bool :=
  match it with
  | VUndefined | VNull => false
  | _ =>
      textual (msgProp it (js "file")) && textual (msgProp it (js "message"))
      && textual (msgProp it (js "suggestion"))
      && (match msgProp it (js "severity") with VStr _ => true | _ => false end)
      && converts (msgProp it (js "startLine"))
      && converts (msgProp it (js "endLine"))
  end.

(** The properties that the loop of the response parser assigns. *)
Definition clampedKey (k : jsstring) : bool :=
  JsString.eqb k (js "startLine") || JsString.eqb k (js "endLine")
  || JsString.eqb k (js "severity") || JsString.eqb k (js "file").

(** A call that shows results: the panel or the diagnostics. *)
Definition isPresentation (e : event) : bool :=
  match e with
  | CreateWebviewPanel | SetWebviewHtml _ | DiagnosticsClear | DiagnosticsSet _ => true
  | _ => false
  end.

(** The template of the prompt as [trim] leaves its two ends. *)
Definition promptHead : jsstring := dropSpaces prompt0.
Definition promptFoot : jsstring := rev (dropSpaces (rev prompt2)).

(** A streamed line that carries no text: it does not parse, or it parses
    to null, or its response is missing, null or the empty string. *)
Definition silentLine `{Runtime} (line : jsstring) : bool :=
  match v ← JSON_parse line; getProp v (js "response") with
  | None | Some VUndefined | Some VNull | Some (VStr []) => true
  | Some _ => false
  end.


(** A row that is a number and is not below zero ([NaN] is no number below
    zero). *)
Definition notNegative (v : value) : Prop :=
  exists n : number, v = VNum n /\ num_ltb n (Fin 0) = false.

(** A model output whose first issue is null. *)
Definition nullIssueOutput : jsstring :=
  js "{" ++ dq ++ js "issues" ++ dq ++ js ":[null,{}]}".

(** The acceptance text, the model and the remote address that the command
    works with. *)
Definition acceptanceOf (w : World) : jsstring :=
  match specFile w with
  | Some text => text
  | None => match inputBox w with
            | Some (c :: s) => c :: s
            | _ => []
            end
  end.

Definition modelOf (w : World) : jsstring :=
  match configModel w with
  | Some (c :: s) => c :: s
  | _ => js "llama3.1:8b"
  end.

Definition remoteUrlOf (w : World) : jsstring :=
  match configRemoteUrl w with
  | Some s => s
  | None => []
  end.


(** The message that the script of the panel posts for an issue:
    [{ cmd: 'open', file: it.file, startLine: it.startLine, endLine: it.endLine }]. *)
Definition openMessage (file startLine endLine : value) : value :=
  VObj [(js "cmd", VStr (js "open")); (js "file", file);
        (js "startLine", startLine); (js "endLine", endLine)].

(** A prefix that a replacement anchored at the start can remove from a
    path without cutting a segment: nothing, or a text that ends with a
    slash. *)
Definition wholeSegments (pre : jsstring) : Prop :=
  pre = [] \/ exists pre' : jsstring, pre = pre' ++ [47].

(** A workspace in which one file exists and opens. *)
Definition oneFileWorkspace (path : jsstring) : Workspace := {|
  stat := fun p => JsString.eqb p path;
  findFiles := fun _ => Some [];
  openTextDocument := fun p => JsString.eqb p path;
  showTextDocument := fun _ => true;
  path_basename := posixBasename
|}.

End Further.
Export Further.
(** * Properties *)

(** ** Strings and patterns *)

Lemma eqb_true (a b : jsstring) : JsString.eqb a b = true <-> a = b.
Proof. unfold JsString.eqb. apply bool_decide_eq_true. Qed.

Lemma eqb_false (a b : jsstring) : JsString.eqb a b = false <-> a <> b.
Proof. unfold JsString.eqb. apply bool_decide_eq_false. Qed.

Lemma eqb_refl (a : jsstring) : JsString.eqb a a = true.
Proof. by apply eqb_true. Qed.

Lemma startsWith_app (p s : jsstring) : startsWith p (p ++ s) = true.
Proof.
  induction p as [|a p IH]; simpl; [done|].
  by rewrite N.eqb_refl, IH.
Qed.

Lemma startsWith_inv (p s : jsstring) :
  startsWith p s = true -> exists r, s = p ++ r.
Proof.
  revert s. induction p as [|a p IH]; intros s Hs; simpl in *.
  - by exists s.
  - destruct s as [|b s]; [done|].
    apply andb_true_iff in Hs as [Hab Hp]. apply N.eqb_eq in Hab as ->.
    destruct (IH _ Hp) as [r ->]. by exists r.
Qed.

Lemma dropSpaces_app_stop (a : jsstring) (c : N) (r : jsstring) :
  isSpace c = false -> dropSpaces (a ++ c :: r) = dropSpaces a ++ c :: r.
Proof.
  intros Hc. induction a as [|x a IH]; simpl.
  - by rewrite Hc.
  - destruct (isSpace x); [apply IH | done].
Qed.

(** ** [escapeHtml] *)

Lemma escapeUnit_cases (c : N) :
  (c = 38 /\ escapeUnit c = js "&amp;") \/ (c = 60 /\ escapeUnit c = js "&lt;")
  \/ (c = 62 /\ escapeUnit c = js "&gt;") \/ (c = 34 /\ escapeUnit c = js "&quot;")
  \/ (c = 39 /\ escapeUnit c = js "&#39;")
  \/ (c <> 38 /\ markupUnit c = false /\ escapeUnit c = [c]).
Proof.
  unfold escapeUnit, markupUnit.
  destruct (N.eqb_spec c 38) as [->|?]; [by left|].
  destruct (N.eqb_spec c 60) as [->|?]; [by right; left|].
  destruct (N.eqb_spec c 62) as [->|?]; [by right; right; left|].
  destruct (N.eqb_spec c 34) as [->|?]; [by right; right; right; left|].
  destruct (N.eqb_spec c 39) as [->|?]; [by right; right; right; right; left|].
  by right; right; right; right; right.
Qed.

Lemma escapeHtml_app (s t : jsstring) :
  escapeHtml (s ++ t) = escapeHtml s ++ escapeHtml t.
Proof. unfold escapeHtml. apply flat_map_app. Qed.

Lemma escapeHtml_cons (c : N) (s : jsstring) :
  escapeHtml (c :: s) = escapeUnit c ++ escapeHtml s.
Proof. reflexivity. Qed.

(** The output of [escapeHtml] has no angle bracket and no quote. *)
Lemma escapeHtml_no_markup (s : jsstring) :
  forallb (fun c => negb (markupUnit c)) (escapeHtml s) = true.
Proof.
  induction s as [|c s IH]; [done|].
  rewrite escapeHtml_cons, forallb_app, IH, andb_true_r.
  destruct (escapeUnit_cases c) as [[_ ->]|[[_ ->]|[[_ ->]|[[_ ->]|[[_ ->]|(_ & Hc & ->)]]]]];
    try reflexivity.
  simpl. by rewrite Hc.
Qed.

(** A string without the five special units is left as it is. *)
Lemma escapeHtml_plain (s : jsstring) :
  forallb (fun c => negb (markupUnit c || (c =? 38))) s = true ->
  escapeHtml s = s.
Proof.
  induction s as [|c s IH]; [done|]. intros H. simpl in H.
  apply andb_true_iff in H as [Hc Hs].
  rewrite escapeHtml_cons, (IH Hs).
  apply negb_true_iff, orb_false_iff in Hc as [Hm Ha].
  destruct (escapeUnit_cases c) as [[-> _]|[[-> _]|[[-> _]|[[-> _]|[[-> _]|(_ & _ & ->)]]]]];
    done.
Qed.

(** ** Path normalisation *)

Lemma stripPrefix_le (pre s : jsstring) :
  (length (stripPrefix pre s) <= length s)%nat.
Proof.
  unfold stripPrefix. destruct (startsWith pre s); [|done].
  rewrite length_skipn. lia.
Qed.

Lemma stripPrefix_lt (pre s : jsstring) :
  pre <> [] -> startsWith pre s = true ->
  (length (stripPrefix pre s) < length s)%nat.
Proof.
  intros Hne Hs. unfold stripPrefix. rewrite Hs.
  apply startsWith_inv in Hs as [r ->]. rewrite length_skipn, length_app.
  destruct pre; [done|]. simpl. lia.
Qed.

Lemma dropSlashes_le (s : jsstring) : (length (dropSlashes s) <= length s)%nat.
Proof.
  induction s as [|c s IH]; [done|]. cbn [dropSlashes].
  destruct (c =? 47); simpl; lia.
Qed.

Lemma strip_tail_lt (pre s : jsstring) :
  pre <> [] -> startsWith pre s = true ->
  (length (dropSlashes (skipn (length pre) s)) < length s)%nat.
Proof.
  intros Hne Hs. pose proof (dropSlashes_le (skipn (length pre) s)) as Hle.
  apply startsWith_inv in Hs as [r ->].
  rewrite length_skipn, length_app in *. destruct pre; [done|]. simpl in *. lia.
Qed.

Lemma stripDotSlashesOrSlashes_length (s : jsstring) :
  (length (stripDotSlashesOrSlashes s) <= length s)%nat
  /\ (stripDotSlashesOrSlashes s = s ->
      startsWith (js "./") s = false /\ startsWith (js "/") s = false).
Proof.
  unfold stripDotSlashesOrSlashes.
  destruct (startsWith (js "./") s) eqn:Ed.
  - pose proof (strip_tail_lt (js "./") s ltac:(done) Ed) as Hlt.
    change (length (js "./")) with 2%nat in Hlt.
    split; [lia|]. intros Heq. rewrite Heq in Hlt. lia.
  - destruct (startsWith (js "/") s) eqn:Es; [|done].
    pose proof (strip_tail_lt (js "/") s ltac:(done) Es) as Hlt.
    change (length (js "/")) with 1%nat in Hlt.
    split; [lia|]. intros Heq. rewrite Heq in Hlt. lia.
Qed.

Lemma stripDotSlashes_length (s : jsstring) :
  (length (stripDotSlashes s) <= length s)%nat
  /\ (stripDotSlashes s = s -> startsWith (js "./") s = false).
Proof.
  unfold stripDotSlashes. destruct (startsWith (js "./") s) eqn:Ed; [|done].
  pose proof (strip_tail_lt (js "./") s ltac:(done) Ed) as Hlt.
  change (length (js "./")) with 2%nat in Hlt.
  split; [lia|]. intros Heq. rewrite Heq in Hlt. lia.
Qed.

Lemma stripSlashes_length (s : jsstring) :
  (length (stripSlashes s) <= length s)%nat
  /\ (stripSlashes s = s -> startsWith (js "/") s = false).
Proof.
  unfold stripSlashes. destruct (startsWith (js "/") s) eqn:Es; [|done].
  pose proof (strip_tail_lt (js "/") s ltac:(done) Es) as Hlt.
  change (length (js "/")) with 1%nat in Hlt.
  split; [lia|]. intros Heq. rewrite Heq in Hlt. lia.
Qed.

Lemma stripPrefix_fixed (pre s : jsstring) :
  pre <> [] -> (length s <= length (stripPrefix pre s))%nat ->
  startsWith pre s = false /\ stripPrefix pre s = s.
Proof.
  intros Hne Hlen. destruct (startsWith pre s) eqn:E.
  - pose proof (stripPrefix_lt pre s Hne E). lia.
  - unfold stripPrefix. by rewrite E.
Qed.

(** C8 (as amended).  File-path normalisation, in the response parser and
    in [toAbsolutePath] alike, returns a path unchanged exactly when the
    path carries none of the prefixes [a/], [b/], [./] and [/].  (It is not
    idempotent: its output can carry a prefix again, and then a second pass
    changes it.) *)
Theorem normalize_unchanged_iff_prefix_free (p : jsstring) :
  (normalizeFile p = p <-> prefixFree p)
  /\ (cleanPath p = p <-> prefixFree p).
Proof.
  assert (Hclean : prefixFree p -> normalizeFile p = p /\ cleanPath p = p).
  { intros (Ha & Hb & Hd & Hs).
    unfold normalizeFile, cleanPath, stripDotSlashesOrSlashes, stripSlashes,
      stripDotSlashes, stripPrefix.
    by rewrite Ha, Hb, Hd, Hs. }
  split; (split; [|intros Hp; by destruct (Hclean Hp)]).
  - unfold normalizeFile. intros Heq.
    pose proof (stripPrefix_le (js "a/") p) as L1.
    pose proof (stripPrefix_le (js "b/") (stripPrefix (js "a/") p)) as L2.
    destruct (stripDotSlashesOrSlashes_length
                (stripPrefix (js "b/") (stripPrefix (js "a/") p))) as [L3 F3].
    rewrite Heq in L3.
    destruct (stripPrefix_fixed (js "a/") p ltac:(done)) as [Ha E1]; [lia|].
    rewrite E1 in *.
    destruct (stripPrefix_fixed (js "b/") p ltac:(done)) as [Hb E2]; [lia|].
    rewrite E2 in *.
    destruct (F3 Heq) as [Hd Hs]. done.
  - unfold cleanPath. intros Heq.
    pose proof (stripPrefix_le (js "a/") p) as L1.
    pose proof (stripPrefix_le (js "b/") (stripPrefix (js "a/") p)) as L2.
    destruct (stripDotSlashes_length
                (stripPrefix (js "b/") (stripPrefix (js "a/") p))) as [L3 F3].
    destruct (stripSlashes_length
                (stripDotSlashes (stripPrefix (js "b/") (stripPrefix (js "a/") p))))
      as [L4 F4].
    rewrite Heq in L4.
    destruct (stripPrefix_fixed (js "a/") p ltac:(done)) as [Ha E1]; [lia|].
    rewrite E1 in *.
    destruct (stripPrefix_fixed (js "b/") p ltac:(done)) as [Hb E2]; [lia|].
    rewrite E2 in *.
    assert (E3 : stripDotSlashes p = p).
    { unfold stripDotSlashes in *. destruct (startsWith (js "./") p) eqn:Ed; [|done].
      pose proof (strip_tail_lt (js "./") p ltac:(done) Ed) as Hlt.
      change (length (js "./")) with 2%nat in Hlt. lia. }
    pose proof (F3 E3) as Hd. rewrite E3 in *. pose proof (F4 Heq) as Hs. done.
Qed.

Lemma normalize_unchanged_iff_prefix_free_witness :
  prefixFree (js "src/x.ts")
  /\ normalizeFile (js "src/x.ts") = js "src/x.ts"
  /\ cleanPath (js "src/x.ts") = js "src/x.ts".
Proof.
  assert (Hp : prefixFree (js "src/x.ts")) by (by repeat split).
  split; [exact Hp|]. split.
  - exact (proj2 (proj1 (normalize_unchanged_iff_prefix_free (js "src/x.ts"))) Hp).
  - exact (proj2 (proj2 (normalize_unchanged_iff_prefix_free (js "src/x.ts"))) Hp).
Defined.

(** C8, counterexample: the normalisation of [b/a/x.ts] is [a/x.ts], which
    carries a prefix again; a second pass, which the command makes when it
    resolves the path of the issue, gives [x.ts]. *)
Lemma normalized_path_changes_again :
  normalizeFile (js "b/a/x.ts") = js "a/x.ts"
  /\ normalizeFile (normalizeFile (js "b/a/x.ts")) = js "x.ts"
  /\ normalizeFile (normalizeFile (js "b/a/x.ts")) <> normalizeFile (js "b/a/x.ts")
  /\ cleanPath (normalizeFile (js "b/a/x.ts")) = js "x.ts"
  /\ cleanPath (cleanPath (js "b/a/x.ts")) <> cleanPath (js "b/a/x.ts").
Proof. repeat split; vm_compute; congruence. Qed.

(** What the normalisation removes: one leading [a/], then one leading
    [b/], then a leading [./] with its slashes or the leading slashes. *)
Example normalizeFile_samples :
  normalizeFile (js "a/src/x.ts") = js "src/x.ts"
  /\ normalizeFile (js "b/./x.ts") = js "x.ts"
  /\ normalizeFile (js "///x.ts") = js "x.ts"
  /\ normalizeFile (js ".//x.ts") = js "x.ts"
  /\ normalizeFile (js "b/a/x.ts") = js "a/x.ts"
  /\ cleanPath (js ".///x.ts") = js "x.ts".
Proof. repeat split. Qed.

(** ** Numbers *)

Lemma num_ltb_irrefl (a : number) : num_ltb a a = false.
Proof.
  destruct a as [|[]|q]; simpl; try done.
  apply negb_false_iff, Qle_bool_iff, Qle_refl.
Qed.

Lemma num_ltb_asym (a b : number) : num_ltb a b = true -> num_ltb b a = false.
Proof.
  destruct a as [|[]|p], b as [|[]|q]; simpl; try done.
  intros Hlt. apply negb_true_iff in Hlt. apply negb_false_iff, Qle_bool_iff.
  destruct (Qlt_le_dec q p) as [Hqp|Hpq]; [|done].
  apply Qlt_le_weak. destruct (Qlt_le_dec p q) as [?|Hle]; [done|].
  apply Qle_bool_iff in Hle. congruence.
Qed.

Lemma num_max_is_number (a b : number) :
  a <> NaN -> b <> NaN -> num_max a b <> NaN.
Proof.
  intros Ha Hb. destruct a, b; simpl; try done; by case_match.
Qed.

Lemma num_max_ge_l (a b : number) :
  a <> NaN -> b <> NaN -> num_leb a (num_max a b) = true.
Proof.
  intros Ha Hb.
  assert (Hmax : num_max a b = if num_ltb a b then b else a)
    by (destruct a, b; done).
  rewrite Hmax. destruct (num_ltb a b) eqn:Hlt.
  - apply num_ltb_asym in Hlt. destruct a, b; simpl in *; try done; by rewrite Hlt.
  - pose proof (num_ltb_irrefl a) as Hir. destruct a; simpl in *; try done; by rewrite Hir.
Qed.

(** [Math.max(a, b)] is [a] when [b] is below [a] or is [a] itself. *)
Lemma num_max_l (a b : number) :
  a <> NaN -> b <> NaN -> num_ltb a b = false -> num_max a b = a.
Proof. intros Ha Hb Hlt. destruct a, b; simpl in *; try done; by rewrite Hlt. Qed.

Lemma num_truthy_not_nan (n : number) : num_truthy n = true -> n <> NaN.
Proof. by destruct n. Qed.

(** ** Properties of objects *)

Lemma lookup_assign_eq (k : jsstring) (v : value) (ps : list (jsstring * value)) :
  lookupProp k (assignProp k v ps) = Some v.
Proof.
  induction ps as [|[k' v'] ps IH]; simpl.
  - by rewrite eqb_refl.
  - destruct (JsString.eqb k k') eqn:E; simpl; rewrite E; [done | apply IH].
Qed.

Lemma lookup_assign_ne (k k' : jsstring) (v : value) (ps : list (jsstring * value)) :
  k <> k' -> lookupProp k' (assignProp k v ps) = lookupProp k' ps.
Proof.
  intros Hne. induction ps as [|[k0 v0] ps IH]; simpl.
  - apply eqb_false in Hne. assert (JsString.eqb k' k = false) as ->; [|done].
    apply eqb_false. intros ->. by apply eqb_false in Hne.
  - destruct (JsString.eqb k k0) eqn:E; simpl.
    + apply eqb_true in E as <-.
      assert (JsString.eqb k' k = false) as ->; [|done].
      apply eqb_false. by intros ->.
    + destruct (JsString.eqb k' k0); [done | apply IH].
Qed.

Lemma getProp_setProp_eq (o o' : value) (k : jsstring) (v : value) :
  setProp o k v = Some o' -> getProp o' k = Some v.
Proof.
  destruct o; simpl; intros [= <-]; simpl; by rewrite lookup_assign_eq.
Qed.

Lemma getProp_setProp_ne (o o' : value) (k k' : jsstring) (v : value) :
  setProp o k v = Some o' -> k <> k' -> getProp o' k' = getProp o k'.
Proof.
  destruct o; simpl; intros [= <-] Hne; simpl; by rewrite lookup_assign_ne.
Qed.

(** ** The response parser: clamping and defaults *)

Section Sanitize.
Context `{Runtime}.

Lemma Number_inv (v w : value) :
  Number_ v = Some w -> exists n, ToNumber v = Some n /\ w = VNum n.
Proof.
  unfold Number_. intros (n & Hn & [= <-])%bind_Some. by exists n.
Qed.

(** [Math.max(a, n || a)] for numbers [a] and [n]. *)
Lemma Math_max_or (a n : number) (m : value) :
  Math_max (VNum a) (jsOr (VNum n) (VNum a)) = Some m ->
  m = VNum (num_max a (if num_truthy n then n else a)).
Proof.
  unfold Math_max, jsOr. simpl. destruct (num_truthy n); simpl; by intros [= <-].
Qed.

(** What one round of the loop leaves in an issue. *)
Lemma sanitizeIssue_fields (it it' : value) :
  sanitizeIssue it = Some it' ->
  exists (n0 n1 : number) (sev : value) (f : jsstring),
    numberOf it (js "startLine") = Some n0
    /\ numberOf it (js "endLine") = Some n1
    /\ getProp it (js "severity") = Some sev
    /\ let s := num_max (Fin 1) (if num_truthy n0 then n0 else Fin 1) in
       getProp it' (js "startLine") = Some (VNum s)
       /\ getProp it' (js "endLine")
          = Some (VNum (num_max s (if num_truthy n1 then n1 else s)))
       /\ getProp it' (js "severity")
          = Some (if isSeverity sev then sev else VStr (js "major"))
       /\ getProp it' (js "file") = Some (VStr f).
Proof.
  unfold sanitizeIssue. intros Hs.
  apply bind_Some in Hs as (a & Ha & Hs).
  apply bind_Some in Hs as (n & [n0 [Hn0 ->]]%Number_inv & Hs).
  apply bind_Some in Hs as (m & ->%Math_max_or & Hs).
  apply bind_Some in Hs as (it1 & H1 & Hs).
  apply bind_Some in Hs as (s & Hs1 & Hs).
  apply bind_Some in Hs as (b & Hb & Hs).
  apply bind_Some in Hs as (n & [n1 [Hn1 ->]]%Number_inv & Hs).
  apply bind_Some in Hs as (s' & Hs1' & Hs).
  rewrite (getProp_setProp_eq _ _ _ _ H1) in Hs1, Hs1'.
  injection Hs1 as <-. injection Hs1' as <-.
  apply bind_Some in Hs as (m & ->%Math_max_or & Hs).
  apply bind_Some in Hs as (it2 & H2 & Hs).
  apply bind_Some in Hs as (sev & Hsev & Hs).
  apply bind_Some in Hs as (it3 & H3 & Hs).
  apply bind_Some in Hs as (f & Hf & Hs).
  apply bind_Some in Hs as (fs & Hfs & Hs).
  apply bind_Some in Hs as (it4 & H4 & Hs).
  apply bind_Some in Hs as (f' & Hf' & Hs).
  apply bind_Some in Hs as (fs' & Hfs' & H5).
  rewrite (getProp_setProp_ne _ _ _ (js "endLine") _ H1) in Hb by keys_differ.
  rewrite (getProp_setProp_ne _ _ _ (js "severity") _ H2),
    (getProp_setProp_ne _ _ _ (js "severity") _ H1) in Hsev by keys_differ.
  exists n0, n1, sev, (normalizeFile fs').
  unfold numberOf. rewrite Ha, Hb, Hsev. simpl. rewrite Hn0, Hn1.
  do 3 (split; [done|]).
  assert (Hsev3 : getProp it3 (js "severity")
                  = Some (if isSeverity sev then sev else VStr (js "major"))).
  { destruct (isSeverity sev).
    - injection H3 as <-.
      by rewrite (getProp_setProp_ne _ _ _ (js "severity") _ H2),
        (getProp_setProp_ne _ _ _ (js "severity") _ H1) by keys_differ.
    - apply (getProp_setProp_eq _ _ _ _ H3). }
  assert (Hend3 : getProp it3 (js "endLine")
                  = getProp it2 (js "endLine")).
  { destruct (isSeverity sev).
    - by injection H3 as <-.
    - apply (getProp_setProp_ne _ _ _ _ _ H3). keys_differ. }
  assert (Hstart3 : getProp it3 (js "startLine")
                    = getProp it2 (js "startLine")).
  { destruct (isSeverity sev).
    - by injection H3 as <-.
    - apply (getProp_setProp_ne _ _ _ _ _ H3). keys_differ. }
  repeat split.
  - rewrite (getProp_setProp_ne _ _ _ (js "startLine") _ H5),
      (getProp_setProp_ne _ _ _ (js "startLine") _ H4), Hstart3,
      (getProp_setProp_ne _ _ _ (js "startLine") _ H2) by keys_differ.
    apply (getProp_setProp_eq _ _ _ _ H1).
  - rewrite (getProp_setProp_ne _ _ _ (js "endLine") _ H5),
      (getProp_setProp_ne _ _ _ (js "endLine") _ H4), Hend3 by keys_differ.
    apply (getProp_setProp_eq _ _ _ _ H2).
  - by rewrite (getProp_setProp_ne _ _ _ (js "severity") _ H5),
      (getProp_setProp_ne _ _ _ (js "severity") _ H4) by keys_differ.
  - apply (getProp_setProp_eq _ _ _ _ H5).
Qed.

Lemma num_leb_one_fin (p : Q) : num_leb (Fin 1) (Fin p) = Qle_bool 1 p.
Proof. unfold num_leb, num_ltb. by rewrite negb_involutive. Qed.

Lemma isSeverity_major : isSeverity (VStr (js "major")) = true.
Proof. reflexivity. Qed.

Lemma sanitizeIssue_clamped (it it' : value) :
  sanitizeIssue it = Some it' -> clamped it'.
Proof.
  intros (n0 & n1 & sev & f & _ & _ & _ & Hs & He & Hv & Hf)%sanitizeIssue_fields.
  set (s := num_max (Fin 1) (if num_truthy n0 then n0 else Fin 1)) in *.
  assert (Hs1 : s <> NaN).
  { apply num_max_is_number; [done|].
    destruct (num_truthy n0) eqn:E; [by apply num_truthy_not_nan | done]. }
  eexists s, _, _, f. repeat split; try eassumption.
  - apply num_max_ge_l; [done|].
    destruct (num_truthy n0) eqn:E; [by apply num_truthy_not_nan | done].
  - apply num_max_ge_l; [done|].
    destruct (num_truthy n1) eqn:E; [by apply num_truthy_not_nan | done].
  - destruct (isSeverity sev) eqn:E; [done | apply isSeverity_major].
Qed.

Lemma sanitizeIssue_defaulted (it it' : value) :
  sanitizeIssue it = Some it' -> defaulted it it'.
Proof.
  intros (n0 & n1 & sev & f & Hn0 & Hn1 & Hsev & Hs & He & Hv & _)%sanitizeIssue_fields.
  intros s e Hs' He'. rewrite Hs in Hs'. rewrite He in He'.
  injection Hs' as <-. injection He' as <-.
  set (s := num_max (Fin 1) (if num_truthy n0 then n0 else Fin 1)) in *.
  assert (Hs1 : s <> NaN).
  { apply num_max_is_number; [done|].
    destruct (num_truthy n0) eqn:E; [by apply num_truthy_not_nan | done]. }
  repeat split.
  - rewrite Hn0. by intros [= ->].
  - rewrite Hn1. intros [= ->]. simpl.
    apply num_max_l; [done..|apply num_ltb_irrefl].
  - intros m. rewrite Hn1. intros [= ->] Hlt.
    destruct (num_truthy m).
    + apply num_max_l; [done| |by apply num_ltb_asym].
      intros ->. by destruct s.
    + apply num_max_l; [done..|apply num_ltb_irrefl].
  - intros sev'. rewrite Hsev. by intros [= <-].
Qed.

Lemma max_or_lineAtLeast (s n : number) :
  num_leb (Fin 1) s = true ->
  num_max s (if num_truthy n then n else s) = lineAtLeast s n.
Proof.
  unfold lineAtLeast. intros Hs.
  assert (Hss : num_max s s = s).
  { apply num_max_l; [by intros -> | by intros -> | apply num_ltb_irrefl]. }
  destruct n as [|b|q].
  - simpl num_truthy. cbv iota. rewrite Hss. by destruct s as [|[]|p].
  - simpl num_truthy. cbv iota. by destruct s as [|[]|p].
  - simpl num_truthy. destruct (Qeq_bool q 0) eqn:E; simpl negb; cbv iota.
    + rewrite Hss. destruct s as [|[]|p]; try done.
      rewrite num_leb_one_fin in Hs. simpl.
      assert (Qle_bool q p = true) as ->; [|done].
      apply Qle_bool_iff. apply Qeq_bool_iff in E. rewrite E.
      apply Qle_bool_iff in Hs.
      apply Qle_trans with 1%Q; [apply Qle_bool_iff; reflexivity | done].
    + by destruct s as [|[]|p].
Qed.

Lemma sanitizeIssue_coerced (it it' : value) :
  sanitizeIssue it = Some it' -> coerced it it'.
Proof.
  intros (n0 & n1 & sev & f & Hn0 & Hn1 & Hsev & Hs & He & Hv & _)%sanitizeIssue_fields.
  exists n0, n1, sev. do 3 (split; [done|]).
  assert (H1 : num_max (Fin 1) (if num_truthy n0 then n0 else Fin 1)
               = lineAtLeast (Fin 1) n0) by (by apply max_or_lineAtLeast).
  rewrite H1 in Hs, He. split; [done|]. split; [|done].
  rewrite He. do 2 f_equal. apply max_or_lineAtLeast.
  unfold lineAtLeast. destruct (num_ltb (Fin 1) n0) eqn:E; [|done].
  pose proof (num_ltb_asym _ _ E) as E'. unfold num_leb. rewrite E'.
  by destruct n0.
Qed.

End Sanitize.

Section ParserClamps.
Context `{Runtime}.

Lemma coerceReview_issues (parsed : value) (r : ReviewResult) :
  coerceReview parsed = Some r ->
  exists (pi : value) (src es : list value) (ps : list (jsstring * value)),
    getProp parsed (js "issues") = Some pi
    /\ (if isArray pi then pi else VArr [] []) = VArr src ps
    /\ Forall2 (fun x y => sanitizeIssue x = Some y) src es
    /\ issues r = VArr es ps.
Proof.
  unfold coerceReview. intros Hc.
  apply bind_Some in Hc as (pi & Hpi & Hc).
  apply bind_Some in Hc as (is' & His & Hc).
  apply bind_Some in Hc as (sm & _ & Hc).
  apply bind_Some in Hc as (s & _ & [= <-]).
  destruct (if isArray pi then pi else VArr [] []) as [| | | | |src ps|] eqn:E;
    try discriminate His.
  apply bind_Some in His as (es & Hes%mapM_Some & [= <-]).
  by exists pi, src, es, ps.
Qed.

(** C2 (as amended).  When the extracted candidate parses as JSON, the
    issues of the result form an array, and each issue of it is computed
    from the issue that the model supplied at the same place: its start
    line is the supplied value converted to a number when that is above 1
    (kept as it is, fractional or not) and 1 otherwise (missing, not
    numeric, zero or below 1); its end line is the supplied value converted
    to a number when that is above the start line, and the start line
    otherwise (missing, not numeric or smaller); its severity is the
    supplied one when that is blocker, major or nit, and major otherwise.
    So the start line is a number not below 1 and the end line a number not
    below the start line.  An issues field that is not an array gives the
    empty list, and so does a coercion that throws. *)
Theorem parsed_issues_clamped (raw : jsstring) (parsed : value) :
  JSON_parse (extractJson (trim raw)) = Some parsed ->
  exists (es : list value) (ps : list (jsstring * value)),
    issues (safeParseReview raw) = VArr es ps
    /\ Forall clamped es
    /\ (forall x, getProp parsed (js "issues") = Some x -> isArray x = false -> es = [])
    /\ (forall src qs, getProp parsed (js "issues") = Some (VArr src qs) ->
          (coerceReview parsed = None /\ es = [])
          \/ Forall2 (fun x y => coerced x y /\ defaulted x y) src es).
Proof.
  intros Hp. unfold safeParseReview. rewrite Hp. simpl.
  destruct (coerceReview parsed) as [r|] eqn:Hc.
  - destruct (coerceReview_issues _ _ Hc) as (pi & src & es & ps & Hpi & Harr & Hall & Hr).
    exists es, ps. split; [done|]. split; [|split].
    + eapply Forall2_Forall_r; [exact Hall|].
      apply Forall_forall. intros y _ x Hxy. by eapply sanitizeIssue_clamped.
    + intros x Hx Hna. rewrite Hpi in Hx. injection Hx as <-.
      rewrite Hna in Harr. injection Harr as <- <-.
      by apply Forall2_nil_inv_l in Hall.
    + intros src' qs Hx. rewrite Hpi in Hx. injection Hx as ->.
      simpl in Harr. injection Harr as <- <-. right.
      eapply Forall2_impl; [exact Hall|]. intros x y Hxy.
      split; [by apply sanitizeIssue_coerced | by apply sanitizeIssue_defaulted].
  - exists [], []. simpl. repeat split; auto.
Qed.

End ParserClamps.

Lemma parsed_issues_clamped_witness :
  @JSON_parse Reference.runtime (extractJson (trim proxyBody)) = Some proxyParsed
  /\ exists (es : list value) (ps : list (jsstring * value)),
       issues (@safeParseReview Reference.runtime proxyBody) = VArr es ps
       /\ Forall clamped es
       /\ (forall x, getProp proxyParsed (js "issues") = Some x ->
             isArray x = false -> es = [])
       /\ (forall src qs, getProp proxyParsed (js "issues") = Some (VArr src qs) ->
             (@coerceReview Reference.runtime proxyParsed = None /\ es = [])
             \/ Forall2 (fun x y => @coerced Reference.runtime x y
                                    /\ @defaulted Reference.runtime x y) src es).
Proof.
  split; [vm_compute; reflexivity|].
  apply (@parsed_issues_clamped Reference.runtime proxyBody proxyParsed).
  vm_compute; reflexivity.
Defined.

(** The scenario of the specification, on the response parser: [a/x.ts]
    becomes [x.ts], the end line 3 below the start line 5 becomes 5, and
    the severity [weird] becomes [major]. *)
Example safeParseReview_proxyBody :
  @safeParseReview Reference.runtime proxyBody
  = {| summary := js "ok"; issues := VArr [proxyIssueClamped] [] |}.
Proof. vm_compute. reflexivity. Qed.

(** C2, counterexample: the candidate parses, and the issue of the result
    has the start line 2.5, which is not a positive integer. *)
Lemma fractional_start_line_kept :
  @JSON_parse Reference.runtime (extractJson (trim fractionalStart)) <> None
  /\ exists (it : value) (es : list value) (ps : list (jsstring * value)),
       issues (@safeParseReview Reference.runtime fractionalStart) = VArr es ps
       /\ In it es
       /\ getProp it (js "startLine") = Some (VNum (Fin (5 # 2)))
       /\ ~ positiveInteger (VNum (Fin (5 # 2))).
Proof.
  split; [vm_compute; discriminate|].
  eexists _, _, _. split; [vm_compute; reflexivity|].
  split; [by left|]. split; [vm_compute; reflexivity|].
  intros (n & z & [= <-] & Hz & _). vm_compute in Hz. discriminate Hz.
Qed.

(** ** The rule pattern of the spec filter *)

Lemma firstMatch_None {A : Type} (f : jsstring -> option A) (s : jsstring) :
  firstMatch f s = None <-> forall pre t, s = pre ++ t -> f t = None.
Proof.
  induction s as [|c s IH]; simpl.
  - split.
    + destruct (f []) eqn:E; [done|]. intros _ pre t Hs.
      symmetry in Hs. apply app_eq_nil in Hs as [_ ->]. done.
    + intros Hn. by rewrite (Hn [] []).
  - split.
    + destruct (f (c :: s)) eqn:E; [done|]. intros Hs pre t Ht.
      destruct pre as [|c' pre]; simpl in Ht; [by subst t|].
      injection Ht as <- ->. by apply (proj1 IH Hs pre t).
    + intros Hn. rewrite (Hn [] (c :: s)) by done.
      apply IH. intros pre t ->. by apply (Hn (c :: pre) t).
Qed.

Lemma firstMatch_Some {A : Type} (f : jsstring -> option A) (s : jsstring) (r : A) :
  firstMatch f s = Some r <->
  exists pre t, s = pre ++ t /\ f t = Some r
    /\ forall pre' t', s = pre' ++ t' -> (length pre' < length pre)%nat -> f t' = None.
Proof.
  revert r. induction s as [|c s IH]; intros r; simpl.
  - split.
    + destruct (f []) eqn:E; [|done]. intros [= ->].
      exists [], []. repeat split; [done|]. intros pre' t' _ Hl. simpl in Hl. lia.
    + intros (pre & t & Hs & Hf & _). symmetry in Hs.
      apply app_eq_nil in Hs as [-> ->]. by rewrite Hf.
  - split.
    + destruct (f (c :: s)) eqn:E.
      * intros [= ->]. exists [], (c :: s). repeat split; [done|].
        intros pre' t' _ Hl. simpl in Hl. lia.
      * intros (pre & t & -> & Hf & Hmin)%IH.
        exists (c :: pre), t. repeat split; [done|].
        intros pre' t' Hs Hl. destruct pre' as [|c' pre']; simpl in Hs.
        -- by subst t'.
        -- injection Hs as <- Hs. apply (Hmin pre' t' Hs). simpl in Hl. lia.
    + intros (pre & t & Hs & Hf & Hmin). destruct pre as [|c' pre]; simpl in Hs.
      * subst t. by rewrite Hf.
      * injection Hs as <- ->. rewrite (Hmin [] (c :: pre ++ t)) by (simpl; done || lia).
        apply IH. exists pre, t. repeat split; [done|].
        intros pre' t' Hs Hl. apply (Hmin (c :: pre') t'); [by rewrite Hs | simpl; lia].
Qed.

Lemma sameLetters_length (p w : jsstring) : sameLetters p w -> length w = length p.
Proof.
  unfold sameLetters. intros Hm.
  by rewrite <- (length_map lower w), <- Hm, length_map.
Qed.

Lemma startsWithCI_spec (p s : jsstring) :
  startsWithCI p s = true <-> exists w r, s = w ++ r /\ sameLetters p w.
Proof.
  revert s. induction p as [|a p IH]; intros s; simpl.
  - split; [intros _; by exists [], s|done].
  - destruct s as [|b s].
    + split; [done|]. intros (w & r & Hs & Hw). symmetry in Hs.
      apply app_eq_nil in Hs as [-> _]. discriminate Hw.
    + rewrite andb_true_iff, N.eqb_eq, IH. split.
      * intros (Hab & w & r & -> & Hw). exists (b :: w), r. split; [done|].
        unfold sameLetters in *. simpl. by rewrite Hab, Hw.
      * intros (w & r & Hs & Hw). destruct w as [|b' w]; [discriminate Hw|].
        injection Hs as <- ->. unfold sameLetters in Hw. simpl in Hw.
        injection Hw as Hab Hw. split; [done|]. by exists w, r.
Qed.

Lemma skipn_sameLetters (n : nat) (p w r : jsstring) :
  sameLetters p w -> length p = n -> skipn n (w ++ r) = r.
Proof.
  intros Hw%sameLetters_length <-.
  rewrite <- Hw, skipn_app, skipn_all, Nat.sub_diag. done.
Qed.

Lemma span_spec (cls : N -> bool) (s a b : jsstring) :
  span cls s = (a, b) ->
  s = a ++ b /\ forallb cls a = true
  /\ match b with [] => True | c :: _ => cls c = false end.
Proof.
  revert a b. induction s as [|c s IH]; intros a b; simpl.
  - by intros [= <- <-].
  - destruct (cls c) eqn:Hc.
    + destruct (span cls s) as [a' b'] eqn:E. intros [= <- <-].
      destruct (IH _ _ eq_refl) as (-> & Ha & Hb). simpl. by rewrite Hc, Ha.
    + intros [= <- <-]. simpl. by rewrite Hc.
Qed.

Lemma span_app_stop (cls : N -> bool) (a r : jsstring) :
  forallb cls a = true ->
  match r with [] => True | c :: _ => cls c = false end ->
  span cls (a ++ r) = (a, r).
Proof.
  intros Ha Hr. induction a as [|c a IH]; simpl in *.
  - destruct r as [|c r]; [done|]. simpl. by rewrite Hr.
  - apply andb_true_iff in Ha as [-> Ha]. by rewrite (IH Ha).
Qed.

Lemma dropSpaces_span (s : jsstring) : dropSpaces s = snd (span isSpace s).
Proof.
  induction s as [|c s IH]; [done|]. simpl.
  destruct (isSpace c); [|done]. rewrite IH. by destruct (span isSpace s).
Qed.

Lemma isSpace_outside (c : N) : 33 <= c <= 159 -> isSpace c = false.
Proof.
  intros [Hl Hu]. unfold isSpace.
  replace (c <=? 13) with false by (symmetry; apply N.leb_gt; lia).
  replace (c =? 32) with false by (symmetry; apply N.eqb_neq; lia).
  replace (c =? 160) with false by (symmetry; apply N.eqb_neq; lia).
  replace (c =? 5760) with false by (symmetry; apply N.eqb_neq; lia).
  replace (8192 <=? c) with false by (symmetry; apply N.leb_gt; lia).
  replace (c =? 8232) with false by (symmetry; apply N.eqb_neq; lia).
  replace (c =? 8233) with false by (symmetry; apply N.eqb_neq; lia).
  replace (c =? 8239) with false by (symmetry; apply N.eqb_neq; lia).
  replace (c =? 8287) with false by (symmetry; apply N.eqb_neq; lia).
  replace (c =? 12288) with false by (symmetry; apply N.eqb_neq; lia).
  replace (c =? 65279) with false by (symmetry; apply N.eqb_neq; lia).
  by rewrite andb_false_r.
Qed.

Lemma isDigit_range (c : N) : isDigit c = true <-> 48 <= c <= 57.
Proof.
  unfold isDigit. rewrite andb_true_iff, !N.leb_le. done.
Qed.

Lemma digit_not_space (c : N) : isDigit c = true -> isSpace c = false.
Proof. intros Hd%isDigit_range. apply isSpace_outside. lia. Qed.

Lemma space_not_digit (c : N) : isSpace c = true -> isDigit c = false.
Proof.
  intros Hs. destruct (isDigit c) eqn:Hd; [|done].
  apply digit_not_space in Hd. congruence.
Qed.

(** A unit that is a letter up to case lies in the ASCII letters. *)
Lemma lower_letter (c x : N) :
  lower c = lower x -> 97 <= x <= 122 -> 65 <= c <= 90 \/ 97 <= c <= 122.
Proof.
  unfold lower. intros Hc Hx.
  replace (x <=? 90) with false in Hc by (symmetry; apply N.leb_gt; lia).
  rewrite andb_false_r in Hc.
  destruct (N.leb_spec 65 c), (N.leb_spec c 90); simpl in Hc; lia.
Qed.

Lemma letter_not_space (c x : N) :
  lower c = lower x -> 97 <= x <= 122 -> isSpace c = false.
Proof. intros Hc Hx. apply isSpace_outside. destruct (lower_letter _ _ Hc Hx); lia. Qed.

Lemma nonEmpty_true (s : jsstring) : nonEmpty s = true <-> s <> [].
Proof. by destruct s. Qed.

Lemma requireAt_sound (s d : jsstring) : requireAt s = Some d -> ruleAt d s.
Proof.
  unfold requireAt. destruct (startsWithCI (js "require") s) eqn:Hkw; [|done].
  apply startsWithCI_spec in Hkw as (kw & r0 & -> & Hkw).
  rewrite (skipn_sameLetters 7 (js "require") kw r0 Hkw eq_refl).
  destruct (span isSpace r0) as [sp1 r1] eqn:E1.
  destruct (span isDigit r1) as [ds r2] eqn:E2.
  destruct (span isSpace r2) as [sp2 r3] eqn:E3.
  destruct (_ && _) eqn:Hc; [|done]. intros [= <-].
  repeat apply andb_true_iff in Hc as [Hc ?].
  apply span_spec in E1 as (-> & Hsp1 & _).
  apply span_spec in E2 as (-> & Hds & _).
  apply span_spec in E3 as (-> & Hsp2 & _).
  match goal with H : startsWithCI (js "exclamation") _ = true |- _ =>
    apply startsWithCI_spec in H as (ex & r4 & -> & Hex) end.
  match goal with H : startsWithCI (js "mark") _ = true |- _ =>
    rewrite (skipn_sameLetters 11 (js "exclamation") ex r4 Hex eq_refl) in H;
    apply startsWithCI_spec in H as (mk & rest & Hr4 & Hmk) end.
  rewrite dropSpaces_span in Hr4.
  destruct (span isSpace r4) as [sp3 r5] eqn:E4. simpl in Hr4. subst r5.
  apply span_spec in E4 as (-> & Hsp3 & _).
  exists kw, sp1, sp2, ex, sp3, mk, rest.
  repeat split; try done; by apply nonEmpty_true.
Qed.

Lemma sameLetters_head (c : N) (p w : jsstring) :
  sameLetters (c :: p) w -> exists c' w', w = c' :: w' /\ lower c' = lower c.
Proof.
  destruct w as [|c' w']; [done|]. unfold sameLetters. simpl.
  intros [= Hc _]. by exists c', w'.
Qed.

Lemma requireAt_complete (s d : jsstring) : ruleAt d s -> requireAt s = Some d.
Proof.
  intros (kw & sp1 & sp2 & ex & sp3 & mk & rest & -> & Hkw & Hn1 & Hsp1 & Hnd & Hds
          & Hn2 & Hsp2 & Hex & Hsp3 & Hmk).
  unfold requireAt.
  assert (startsWithCI (js "require") (kw ++ sp1 ++ d ++ sp2 ++ ex ++ sp3 ++ mk ++ rest)
          = true) as -> by (apply startsWithCI_spec; eauto).
  rewrite (skipn_sameLetters 7 (js "require") kw _ Hkw eq_refl).
  destruct (sameLetters_head _ _ _ Hex) as (e & ex' & -> & He).
  destruct (sameLetters_head _ _ _ Hmk) as (m & mk' & -> & Hm).
  destruct d as [|d0 d]; [done|]. destruct sp2 as [|s0 sp2]; [done|].
  rewrite (span_app_stop isSpace sp1 _ Hsp1).
  2:{ simpl. simpl in Hds. apply andb_true_iff in Hds as [Hd0 _].
      by apply digit_not_space. }
  rewrite (span_app_stop isDigit (d0 :: d) _ Hds).
  2:{ simpl. simpl in Hsp2. apply andb_true_iff in Hsp2 as [Hs0 _].
      by apply space_not_digit. }
  rewrite (span_app_stop isSpace (s0 :: sp2) _ Hsp2).
  2:{ simpl. apply (letter_not_space e 101 He). vm_compute. split; discriminate. }
  assert (startsWithCI (js "exclamation") ((e :: ex') ++ sp3 ++ (m :: mk') ++ rest)
          = true) as -> by (apply startsWithCI_spec; eauto).
  rewrite (skipn_sameLetters 11 (js "exclamation") (e :: ex') _ Hex eq_refl).
  rewrite dropSpaces_span, (span_app_stop isSpace sp3 _ Hsp3).
  2:{ simpl. apply (letter_not_space m 109 Hm). vm_compute. split; discriminate. }
  simpl snd.
  assert (startsWithCI (js "mark") (m :: mk' ++ rest) = true) as ->
    by (apply startsWithCI_spec; by exists (m :: mk'), rest).
  assert (nonEmpty sp1 = true) as -> by by apply nonEmpty_true.
  done.
Qed.

Lemma requireAt_spec (s d : jsstring) : requireAt s = Some d <-> ruleAt d s.
Proof. split; [apply requireAt_sound | apply requireAt_complete]. Qed.

(** The matcher finds no rule exactly when the rule does not occur. *)
Lemma no_rule_spec (acceptance : jsstring) :
  firstMatch requireAt acceptance = None <-> ~ ruleOccurs acceptance.
Proof.
  rewrite firstMatch_None. split.
  - intros Hn (pre & d & s & Hs & Hr%requireAt_spec). by rewrite (Hn _ _ Hs) in Hr.
  - intros Hn pre s Hs. destruct (requireAt s) as [d|] eqn:E; [|done].
    exfalso. apply Hn. exists pre, d, s. split; [done|]. by apply requireAt_spec.
Qed.

(** The matcher returns the digits of the leftmost occurrence of the rule. *)
Lemma leftmost_rule_spec (acceptance digits : jsstring) :
  firstMatch requireAt acceptance = Some digits <-> leftmostRule acceptance digits.
Proof.
  rewrite firstMatch_Some. split.
  - intros (pre & s & Hs & Hr%requireAt_spec & Hmin). exists pre, s.
    repeat split; [done..|]. intros pre' s' d' Hs' Hr'%requireAt_spec.
    destruct (Nat.le_gt_cases (length pre) (length pre')) as [|Hlt]; [done|].
    by rewrite (Hmin _ _ Hs' Hlt) in Hr'.
  - intros (pre & s & Hs & Hr%requireAt_spec & Hmin). exists pre, s.
    repeat split; [done..|]. intros pre' s' Hs' Hlt.
    destruct (requireAt s') as [d'|] eqn:E; [|done].
    apply requireAt_spec in E. specialize (Hmin _ _ _ Hs' E). lia.
Qed.

(** ** The response parser: output that is not JSON *)

Lemma safeParseReview_fallback `{Runtime} (raw : jsstring) :
  JSON_parse (extractJson (trim raw)) = None ->
  safeParseReview raw
  = {| summary := slice0 800 (trim raw); issues := VArr [] [] |}.
Proof. intros Hp. unfold safeParseReview. by rewrite Hp. Qed.

(** C3 (as amended).  When the extracted candidate does not parse as JSON,
    the response parser returns (it is a total function: nothing is thrown)
    the first 800 code units of the trimmed raw text as summary and an empty
    issues list. *)
Theorem unparsable_output_falls_back `{Runtime} (raw : jsstring) :
  JSON_parse (extractJson (trim raw)) = None ->
  safeParseReview raw
  = {| summary := slice0 800 (trim raw); issues := VArr [] [] |}.
Proof. apply safeParseReview_fallback. Qed.

Lemma unparsable_output_falls_back_witness :
  @JSON_parse Reference.runtime (extractJson (trim plainProse)) = None
  /\ @safeParseReview Reference.runtime plainProse
     = {| summary := slice0 800 (trim plainProse); issues := VArr [] [] |}.
Proof.
  split; [vm_compute; reflexivity|].
  apply (@unparsable_output_falls_back Reference.runtime plainProse).
  vm_compute; reflexivity.
Defined.

(** C3, counterexample: the candidate does not parse, and the summary is
    not the first 800 code units of the raw text, whose leading space is
    gone. *)
Lemma padded_prose_summary_trimmed :
  @JSON_parse Reference.runtime (extractJson (trim paddedProse)) = None
  /\ summary (@safeParseReview Reference.runtime paddedProse) = js "x"
  /\ summary (@safeParseReview Reference.runtime paddedProse)
     <> slice0 800 paddedProse.
Proof. repeat split; vm_compute; (reflexivity || discriminate). Qed.

(** The summary of the fallback has at most 800 code units. *)
Lemma fallback_summary_length `{Runtime} (raw : jsstring) :
  JSON_parse (extractJson (trim raw)) = None ->
  (length (summary (safeParseReview raw)) <= 800)%nat.
Proof.
  intros Hp. rewrite (safeParseReview_fallback raw Hp). cbn [summary].
  unfold slice0. rewrite length_firstn. lia.
Qed.

(** ** The spec filter *)

(** C6.  When the rule (require, a number, exclamation mark) does not occur
    in the acceptance text, the spec filter returns the issue list it was
    given, whatever the list and the loaded texts. *)
Theorem filter_identity_without_rule `{Runtime} (acceptance : jsstring)
    (issues : value) (fileTextByPath : textMap) :
  ~ ruleOccurs acceptance ->
  filterIssuesAgainstSpec issues acceptance fileTextByPath = Some issues.
Proof.
  intros Hn%no_rule_spec. unfold filterIssuesAgainstSpec. by rewrite Hn.
Qed.

Lemma filter_identity_without_rule_witness :
  ~ ruleOccurs noRule
  /\ @filterIssuesAgainstSpec Reference.runtime (VArr [marksIssue] []) noRule
       fourMarksFile
     = Some (VArr [marksIssue] []).
Proof.
  assert (Hn : ~ ruleOccurs noRule) by (apply no_rule_spec; vm_compute; reflexivity).
  split; [exact Hn|].
  apply (@filter_identity_without_rule Reference.runtime noRule
           (VArr [marksIssue] []) fourMarksFile Hn).
Defined.

Lemma containsBy_spec (test : jsstring -> jsstring -> bool) (p s : jsstring) :
  containsBy test p s = true <-> exists pre t, s = pre ++ t /\ test p t = true.
Proof.
  induction s as [|c s IH]; simpl.
  - rewrite orb_false_r. split.
    + intros Ht. by exists [], [].
    + intros (pre & t & Hs & Ht). symmetry in Hs.
      apply app_eq_nil in Hs as [_ ->]. done.
  - rewrite orb_true_iff, IH. split.
    + intros [Ht|(pre & t & -> & Ht)]; [by exists [], (c :: s)|by exists (c :: pre), t].
    + intros (pre & t & Hs & Ht). destruct pre as [|c' pre]; simpl in Hs.
      * subst t. by left.
      * injection Hs as <- ->. right. by exists pre, t.
Qed.

Lemma includesCI_exclamation (t : jsstring) :
  includesCI (js "exclamation") t = true <-> mentionsExclamation t.
Proof.
  unfold includesCI, mentionsExclamation. rewrite containsBy_spec. split.
  - intros (pre & u & -> & (w & post & -> & Hw)%startsWithCI_spec). by exists pre, w, post.
  - intros (pre & w & post & -> & Hw). exists pre, (w ++ post). split; [done|].
    apply startsWithCI_spec. by exists w, post.
Qed.

Section SpecFilter.
Context `{Runtime}.

(** The callback of the filter answers [false] exactly for the issues that
    the condition [dropped] describes. *)
Lemma keepIssue_spec (required : value) (m : textMap) (it : value) (b : bool) :
  keepIssue required m it = Some b ->
  (b = false <-> dropped required m it).
Proof.
  unfold keepIssue. intros Hk. apply bind_Some in Hk as (f & Hf & Hk).
  destruct (mapGet m f) as [[|c text]|] eqn:Hm.
  - injection Hk as <-. split; [done|].
    intros (f' & t & ? & ? & ? & ? & ? & Hf' & Hm' & Hne & _).
    rewrite Hf in Hf'. injection Hf' as <-. rewrite Hm in Hm'. by injection Hm' as <-.
  - apply bind_Some in Hk as (s & Hs & Hk).
    apply bind_Some in Hk as (d & Hd & Hk).
    apply bind_Some in Hk as (i & Hi & Hk).
    destruct (strictEq _ required) eqn:Hc.
    + apply bind_Some in Hk as (msg & Hmsg & Hk).
      apply bind_Some in Hk as (ms & Hms & [= <-]).
      rewrite negb_false_iff, includesCI_exclamation. split.
      * intros Hmen. exists f, (c :: text), s, d, i, msg, ms. by repeat split.
      * intros (f' & t & s' & d' & i' & msg' & ms' & Hf' & Hm' & _ & Hs' & Hd' & Hi'
                & _ & Hmsg' & Hms' & Hmen).
        rewrite Hmsg in Hmsg'. injection Hmsg' as <-.
        rewrite Hms in Hms'. by injection Hms' as <-.
    + injection Hk as <-. split; [done|].
      intros (f' & t & s' & d' & i' & msg' & ms' & Hf' & Hm' & _ & Hs' & Hd' & Hi'
              & Hc' & _).
      rewrite Hf in Hf'. injection Hf' as <-. rewrite Hm in Hm'. injection Hm' as <-.
      rewrite Hs in Hs'. injection Hs' as <-. rewrite Hd in Hd'. injection Hd' as <-.
      rewrite Hi in Hi'. injection Hi' as <-. congruence.
  - injection Hk as <-. split; [done|].
    intros (f' & t & ? & ? & ? & ? & ? & Hf' & Hm' & _).
    rewrite Hf in Hf'. injection Hf' as <-. by rewrite Hm in Hm'.
Qed.

Lemma filterIssues_spec (cb : value -> option bool) (es kept : list value) :
  filterIssues cb es = Some kept ->
  kept = List.filter (fun it => default true (cb it)) es
  /\ Forall (fun it => is_Some (cb it)) es.
Proof.
  revert kept. induction es as [|x es IH]; intros kept; simpl.
  - by intros [= <-].
  - intros Hf. apply bind_Some in Hf as (b & Hb & Hf).
    apply bind_Some in Hf as (r & Hr & [= <-]).
    destruct (IH _ Hr) as [-> Hall]. rewrite Hb. simpl. split.
    + by destruct b.
    + constructor; [by eexists | done].
Qed.

(** C5 (as amended).  When the leftmost occurrence of the rule in the
    acceptance text carries the number N, the spec filter keeps the order of
    the issues and drops an issue if and only if the loaded text of its file
    is available and not empty, the line at index max(0, startLine - 1) of
    that text has exactly N exclamation marks, and the message mentions the
    word exclamation (in any case); an issue whose file text is unavailable
    is kept. *)
Theorem spec_filter_drops_contradicted_issues (acceptance digits : jsstring)
    (m : textMap) (es : list value) (ps : list (jsstring * value)) (out : value) :
  leftmostRule acceptance digits ->
  filterIssuesAgainstSpec (VArr es ps) acceptance m = Some out ->
  exists keep : value -> bool,
    out = VArr (List.filter keep es) []
    /\ (forall it, In it es ->
          (keep it = false <-> dropped (VNum (StringToNumber digits)) m it))
    /\ (forall it f, In it es -> getProp it (js "file") = Some f ->
          mapGet m f = None -> keep it = true).
Proof.
  intros Hl%leftmost_rule_spec Hf. unfold filterIssuesAgainstSpec in Hf.
  rewrite Hl in Hf. simpl in Hf.
  apply bind_Some in Hf as (kept & [-> Hall]%filterIssues_spec & [= <-]).
  set (required := VNum (StringToNumber digits)) in *.
  exists (fun it => default true (keepIssue required m it)).
  split; [done|]. rewrite List.Forall_forall in Hall. split.
  - intros it Hin. destruct (Hall it Hin) as [b Hb]. rewrite Hb. simpl.
    by apply keepIssue_spec.
  - intros it f Hin Hfile Hm. destruct (Hall it Hin) as [b Hb]. rewrite Hb. simpl.
    destruct b; [done|]. apply keepIssue_spec in Hb.
    destruct (proj1 Hb eq_refl) as (f' & t & ? & ? & ? & ? & ? & Hf' & Hm' & _).
    rewrite Hfile in Hf'. injection Hf' as <-. by rewrite Hm in Hm'.
Qed.

End SpecFilter.

(** The scenario of the specification: with four exclamation marks on the
    flagged line the issue is dropped. *)
Lemma spec_filter_drops_contradicted_issues_witness :
  leftmostRule requireFour (js "4")
  /\ @filterIssuesAgainstSpec Reference.runtime (VArr [marksIssue] []) requireFour
       fourMarksFile = Some (VArr [] [])
  /\ exists keep : value -> bool,
       VArr [] [] = VArr (List.filter keep [marksIssue]) []
       /\ (forall it, In it [marksIssue] ->
             (keep it = false
              <-> @dropped Reference.runtime
                    (VNum (@StringToNumber Reference.runtime (js "4")))
                    fourMarksFile it))
       /\ (forall it f, In it [marksIssue] -> getProp it (js "file") = Some f ->
             mapGet fourMarksFile f = None -> keep it = true).
Proof.
  assert (Hl : leftmostRule requireFour (js "4"))
    by (apply leftmost_rule_spec; vm_compute; reflexivity).
  assert (Hf : @filterIssuesAgainstSpec Reference.runtime (VArr [marksIssue] [])
                 requireFour fourMarksFile = Some (VArr [] []))
    by (vm_compute; reflexivity).
  split; [exact Hl|]. split; [exact Hf|].
  exact (@spec_filter_drops_contradicted_issues Reference.runtime requireFour (js "4")
           fourMarksFile [marksIssue] [] (VArr [] []) Hl Hf).
Defined.

(** The other scenario: with three exclamation marks the issue is kept. *)
Example three_marks_issue_kept :
  @filterIssuesAgainstSpec Reference.runtime (VArr [marksIssue] []) requireFour
    threeMarksFile = Some (VArr [marksIssue] []).
Proof. vm_compute. reflexivity. Qed.

(** C5, counterexample: the rule asks for no exclamation mark, the text of
    the file is loaded (and empty), the line at index 0 has exactly no
    exclamation mark and the message mentions the word, yet the issue is
    kept. *)
Lemma empty_file_issue_kept :
  leftmostRule requireZero (js "0")
  /\ @StringToNumber Reference.runtime (js "0") = Fin 0
  /\ mapGet emptyFile (VStr (js "app.js")) = Some []
  /\ countChar 33 (lineAt (split 10 []) (VNum (Fin 0))) = 0%nat
  /\ mentionsExclamation (js "Missing required exclamation marks")
  /\ @filterIssuesAgainstSpec Reference.runtime (VArr [marksIssue] []) requireZero
       emptyFile = Some (VArr [marksIssue] []).
Proof.
  split; [apply leftmost_rule_spec; vm_compute; reflexivity|].
  split; [vm_compute; reflexivity|]. split; [reflexivity|]. split; [reflexivity|].
  split; [apply includesCI_exclamation; vm_compute; reflexivity|].
  vm_compute; reflexivity.
Qed.

(** ** The command pipeline *)

(** C9.  When the collected diff is the empty string (or only white space),
    the command stops after collecting it: it shows the information message
    with the text No local changes (git diff is empty). and nothing after
    it, makes no request to an inference endpoint and reports no error. *)
Theorem empty_diff_stops_pipeline `{Runtime} (w : World) (root diff : jsstring) :
  workspaceFolder w = Some root ->
  gitVersion w = true ->
  gitDiff w = Some diff ->
  trim diff = [] ->
  fst (reviewCommand w) = inl tt
  /\ snd (reviewCommand w)
     = [WithProgress (js "AI Review: running" ++ [8230]);
        ProgressReport (js "Reading acceptance criteria")]
       ++ (match specFile w with Some _ => [] | None => [ShowInputBox] end)
       ++ [ProgressReport (js "Collecting diff (git)");
           Exec (js "git --version"); Exec (js "git diff --no-color");
           ShowInformationMessage (js "No local changes (git diff is empty).")]
  /\ forallb (fun e => negb (isNetworkCall e)) (snd (reviewCommand w)) = true
  /\ forallb (fun e => negb (isErrorReport e)) (snd (reviewCommand w)) = true.
Proof.
  intros Hws Hgit Hdiff Hempty.
  unfold reviewCommand, review, readAcceptance, getGitDiff.
  rewrite Hws, Hgit, Hdiff. destruct (specFile w); simpl; rewrite Hempty; by simpl.
Qed.

Lemma empty_diff_stops_pipeline_witness :
  workspaceFolder noChangesWorld = Some (js "/ws")
  /\ gitDiff noChangesWorld = Some []
  /\ fst (@reviewCommand Reference.runtime noChangesWorld) = inl tt
  /\ snd (@reviewCommand Reference.runtime noChangesWorld)
     = [WithProgress (js "AI Review: running" ++ [8230]);
        ProgressReport (js "Reading acceptance criteria")]
       ++ (match specFile noChangesWorld with Some _ => [] | None => [ShowInputBox] end)
       ++ [ProgressReport (js "Collecting diff (git)");
           Exec (js "git --version"); Exec (js "git diff --no-color");
           ShowInformationMessage (js "No local changes (git diff is empty).")]
  /\ forallb (fun e => negb (isNetworkCall e))
       (snd (@reviewCommand Reference.runtime noChangesWorld)) = true
  /\ forallb (fun e => negb (isErrorReport e))
       (snd (@reviewCommand Reference.runtime noChangesWorld)) = true.
Proof.
  split; [reflexivity|]. split; [reflexivity|].
  apply (@empty_diff_stops_pipeline Reference.runtime noChangesWorld (js "/ws") []);
    reflexivity.
Defined.

(** The preflight reads the body of the response and never its status. *)
Lemma ensureOllamaReady_body `{Runtime} (w : World) (model : jsstring) :
  ensureOllamaReady w model
  = match res ← fetchGet w ollamaTags; resJson res with
    | Some json =>
        match hasModel json model with
        | Some true => (inl tt, [FetchGet ollamaTags])
        | Some false => (inr (Error (modelNotFound model)), [FetchGet ollamaTags])
        | None => (inr EngineError, [FetchGet ollamaTags])
        end
    | None => (inr (Error serverNotReachable), [FetchGet ollamaTags])
    end.
Proof.
  unfold ensureOllamaReady.
  destruct (fetchGet w ollamaTags) as [r|]; simpl; [|done].
  destruct (resJson r) as [j|]; simpl; [|done].
  by destruct (hasModel j model) as [[]|].
Qed.

Lemma ensureOllamaReady_ignores_status `{Runtime} (w w' : World) (model : jsstring) :
  (res ← fetchGet w ollamaTags; resJson res)
  = (res ← fetchGet w' ollamaTags; resJson res) ->
  ensureOllamaReady w model = ensureOllamaReady w' model.
Proof. intros Heq. by rewrite !ensureOllamaReady_body, Heq. Qed.

(** C4, at the failing input: the inference server answers the request for
    its catalogue with the status 500 and a JSON body.  The command fails,
    and the message it shows tells the user to pull the model, not to start
    the server. *)
Theorem tags_error_reported_as_missing_model :
  snd (@reviewCommand Reference.runtime tagsErrorWorld)
  = [WithProgress (js "AI Review: running" ++ [8230]);
     ProgressReport (js "Reading acceptance criteria");
     ProgressReport (js "Collecting diff (git)");
     Exec (js "git --version"); Exec (js "git diff --no-color");
     ProgressReport (js "Calling local model (Ollama)");
     FetchGet ollamaTags;
     ConsoleError (Error (modelNotFound (js "llama3.1:8b")));
     ShowReviewFailed (Error (modelNotFound (js "llama3.1:8b")))]
  /\ reviewFailedText (Error (modelNotFound (js "llama3.1:8b")))
     = Some (js "AI Review failed: Model " ++ dq ++ js "llama3.1:8b" ++ dq
             ++ js " not found in Ollama. Run: ollama pull llama3.1:8b")
  /\ modelNotFound (js "llama3.1:8b") <> serverNotReachable.
Proof. repeat split; vm_compute; (reflexivity || discriminate). Qed.

(** C1, at the failing input: in remote mode the issue of the proxy comes
    back from [getReview] as it was sent, with the file [a/x.ts], the end
    line 3 and the severity [weird], and reaches the diagnostics with a
    range that ends before it starts; the response parser would have made
    it [proxyIssueClamped]. *)
Theorem remote_issue_not_clamped :
  (forall prompt model : jsstring,
     fst (@getReview Reference.runtime proxyWorld prompt model proxyUrl)
     = inl {| summary := js "ok"; issues := VArr [proxyIssue] [] |})
  /\ In (DiagnosticsSet
           [(js "/ws/x.ts",
             [{| startRow := VNum (Fin 4); endRow := VNum (Fin 2);
                 message := VStr (js "m"); level := SevHint |}])])
        (snd (@reviewCommand Reference.runtime proxyWorld))
  /\ issues (@safeParseReview Reference.runtime proxyBody)
     = VArr [proxyIssueClamped] [].
Proof.
  split; [|split].
  - intros prompt model. reflexivity.
  - vm_compute. repeat (first [left; reflexivity | right]).
  - vm_compute. reflexivity.
Qed.

(** C10, at the failing input: the message of the model closes the script
    element.  The panel markup holds the message once escaped, in its card,
    and once as it is, in the array literal of the script. *)
Theorem panel_script_embeds_raw_message :
  includes scriptBreakout hostileOutput = true
  /\ exists html : jsstring,
       @panelHtml Reference.runtime (@safeParseReview Reference.runtime hostileOutput)
       = Some html
       /\ includes (escapeHtml scriptBreakout) html = true
       /\ includes scriptBreakout html = true.
Proof.
  split; [vm_compute; reflexivity|].
  eexists. split; [vm_compute; reflexivity|].
  split; vm_compute; reflexivity.
Qed.

(** ** Local and remote mode *)

Section Modes.
Context `{Runtime}.

(** Whatever the model text, the issues that the response parser returns
    are clamped. *)
Lemma safeParseReview_clamped (raw : jsstring) :
  exists (es : list value) (ps : list (jsstring * value)),
    issues (safeParseReview raw) = VArr es ps /\ Forall clamped es.
Proof.
  unfold safeParseReview.
  destruct (parsed ← JSON_parse (extractJson (trim raw)); coerceReview parsed)
    as [r|] eqn:Hr.
  - apply bind_Some in Hr as (parsed & _ & Hc).
    destruct (coerceReview_issues _ _ Hc) as (pi & src & es & ps & _ & _ & Hall & Hi).
    exists es, ps. split; [done|].
    eapply Forall2_Forall_r; [exact Hall|].
    apply Forall_forall. intros y _ x Hxy. by eapply sanitizeIssue_clamped.
  - by exists [], [].
Qed.

Lemma bind_inl {A B : Type} (m : M A) (k : A -> M B) (b : B) (t : list event) :
  bind m k = (inl b, t) ->
  exists a t1 t2, m = (inl a, t1) /\ k a = (inl b, t2) /\ t = t1 ++ t2.
Proof.
  unfold bind. destruct m as [[a|e] t1]; [|done].
  destruct (k a) as [r t2] eqn:Hk. intros [= -> <-]. by exists a, t1, t2.
Qed.

(** In local mode every review that [getReview] returns comes from the
    response parser, so its issues are clamped. *)
Lemma local_review_clamped (w : World) (prompt model : jsstring)
    (r : ReviewResult) (t : list event) :
  getReview w prompt model [] = (inl r, t) ->
  exists (es : list value) (ps : list (jsstring * value)),
    issues r = VArr es ps /\ Forall clamped es.
Proof.
  unfold getReview. intros Hg.
  apply bind_inl in Hg as (? & ? & ? & _ & Hg & _).
  apply bind_inl in Hg as (body & ? & ? & _ & Hg & _).
  apply bind_inl in Hg as (? & ? & ? & _ & Hg & _).
  apply bind_inl in Hg as (res & ? & ? & _ & Hg & _).
  destruct (negb (ok res)); [done|].
  apply bind_inl in Hg as (text & ? & ? & _ & Hg & _).
  apply bind_inl in Hg as (combined & ? & ? & _ & Hg & _).
  injection Hg as Hr _. rewrite <- Hr. apply safeParseReview_clamped.
Qed.

(** In remote mode an array of issues comes back as the proxy sent it. *)
Lemma remote_review_unchanged (w : World) (prompt model url body : jsstring)
    (c : N) (res : response) (data : value) (s : jsstring)
    (es : list value) (ps : list (jsstring * value)) :
  stringify (VObj [(js "prompt", VStr prompt)]) = Some body ->
  fetchPost w (c :: url) body = Some res ->
  ok res = true ->
  resJson res = Some data ->
  (v ← getProp data (js "summary"); ToString (jsOr v (VStr []))) = Some s ->
  getProp data (js "issues") = Some (VArr es ps) ->
  fst (getReview w prompt model (c :: url)) = inl {| summary := s; issues := VArr es ps |}.
Proof.
  intros Hb Hf Hok Hj Hs Hi. unfold getReview.
  rewrite Hb. cbn [engine bind ret emit]. rewrite Hf. cbn [engine bind ret].
  rewrite Hok. cbn [negb]. rewrite Hj. cbn [engine bind ret].
  rewrite Hs. cbn [engine bind ret]. rewrite Hi. reflexivity.
Qed.

End Modes.

(** ** The reference parser on the texts that do not parse

    The failures used above are syntax errors, whatever the fuel. *)

Example plainProse_never_parses (fuel : nat) :
  Reference.parseValue fuel plainProse = None.
Proof. destruct fuel; reflexivity. Qed.

Example paddedProse_never_parses (fuel : nat) :
  Reference.parseValue fuel (trim paddedProse) = None.
Proof. destruct fuel; reflexivity. Qed.

Example cut_object_never_parses (fuel : nat) :
  extractJson (trim tickedOutput) = js "{" ++ dq ++ js "summary" ++ dq ++ js ":"
                                    ++ dq ++ js "use "
  /\ Reference.parseValue fuel (extractJson (trim tickedOutput)) = None.
Proof.
  split; [vm_compute; reflexivity|].
  destruct fuel as [|[|[|fuel]]]; vm_compute; reflexivity.
Qed.

(** ** The response parser: extraction of the JSON text *)

Lemma firstMatch_skip {A : Type} (f : jsstring -> option A) (a s : jsstring) :
  (forall p q, a = p ++ q -> q <> [] -> f (q ++ s) = None) ->
  firstMatch f (a ++ s) = firstMatch f s.
Proof.
  induction a as [|c a IH]; intros Hn; [done|].
  change ((c :: a) ++ s) with (c :: a ++ s). cbn [firstMatch].
  assert (H0 : f (c :: a ++ s) = None) by by apply (Hn [] (c :: a)).
  rewrite H0. apply IH. intros p q -> Hq. by apply (Hn (c :: p) q).
Qed.

Lemma includes_cons (p : jsstring) (c : N) (s : jsstring) :
  includes p (c :: s) = false -> includes p s = false.
Proof. unfold includes. simpl. by intros [_ ?]%orb_false_iff. Qed.

Lemma includes_head (p s : jsstring) :
  includes p s = false -> startsWith p s = false.
Proof. unfold includes. destruct s; simpl; by intros [? _]%orb_false_iff. Qed.

Lemma includes_app_r (p a s : jsstring) :
  includes p (a ++ s) = false -> includes p s = false.
Proof. induction a as [|c a IH]; [done|]. intros Hi%includes_cons. by apply IH. Qed.

Lemma startsWith_app_l (p s t : jsstring) :
  startsWith p s = true -> startsWith p (s ++ t) = true.
Proof.
  intros [r ->]%startsWith_inv. rewrite <- app_assoc. apply startsWith_app.
Qed.

Lemma includes_app_l (p s t : jsstring) :
  includes p (s ++ t) = false -> includes p s = false.
Proof.
  intros Hn. destruct (includes p s) eqn:Hi; [|done].
  unfold includes in *. apply containsBy_spec in Hi as (pre & u & -> & Hu).
  assert (containsBy startsWith p ((pre ++ u) ++ t) = true); [|congruence].
  apply containsBy_spec. exists pre, (u ++ t). split; [by rewrite app_assoc|].
  by apply startsWith_app_l.
Qed.

(** No occurrence of the pattern: [upTo] finds nothing. *)
Lemma upTo_None (p s : jsstring) : includes p s = false -> upTo p s = None.
Proof.
  induction s as [|c s IH]; intros Hi; simpl.
  - apply includes_head in Hi. by rewrite Hi.
  - rewrite (includes_head _ _ Hi), (IH (includes_cons _ _ _ Hi)). done.
Qed.

Lemma upTo_here (p s : jsstring) : upTo p (p ++ s) = Some [].
Proof. destruct p, s; simpl; by rewrite ?N.eqb_refl, ?startsWith_app. Qed.

Lemma upTo_step (p : jsstring) (c : N) (s : jsstring) :
  startsWith p (c :: s) = false ->
  upTo p (c :: s) = option_map (cons c) (upTo p s).
Proof. intros Hs. simpl upTo. by rewrite Hs. Qed.

Lemma ticks_units : ticks = [96; 96; 96].
Proof. reflexivity. Qed.

(** A fence marker begins with a backtick. *)
Lemma ticks_head (c : N) (s : jsstring) :
  c <> 96 -> startsWith ticks (c :: s) = false.
Proof.
  intros Hc. rewrite ticks_units. cbn [startsWith].
  destruct (N.eqb_spec 96 c); [congruence|done].
Qed.

Lemma noUnit_cons (c x : N) (s : jsstring) :
  noUnit c (x :: s) -> x <> c /\ noUnit c s.
Proof.
  unfold noUnit. simpl. intros [Hx Hs]%andb_true_iff. split; [|done].
  by apply negb_true_iff, N.eqb_neq in Hx.
Qed.

(** Units that are no backticks are passed over by the lazy repetition. *)
Lemma upTo_skip (a s : jsstring) :
  noUnit 96 a -> upTo ticks (a ++ s) = option_map (app a) (upTo ticks s).
Proof.
  induction a as [|c a IH]; intros Ha.
  - cbn [app]. by destruct (upTo ticks s).
  - apply noUnit_cons in Ha as [Hc Ha].
    change ((c :: a) ++ s) with (c :: a ++ s).
    rewrite upTo_step by by apply ticks_head.
    rewrite (IH Ha). by destruct (upTo ticks s).
Qed.

Lemma startsWith_ticks_long (a b c : N) (s t : jsstring) :
  startsWith ticks ((a :: b :: c :: s) ++ t) = startsWith ticks (a :: b :: c :: s).
Proof. rewrite ticks_units. reflexivity. Qed.

(** Inside an object text without fence marker no marker begins, whatever
    follows the closing brace. *)
Lemma object_suffix_no_ticks (o : jsstring) (t : jsstring) :
  includes ticks (o ++ [125]) = false ->
  startsWith ticks ((o ++ [125]) ++ t) = false.
Proof.
  intros Hi%includes_head.
  destruct o as [|a [|b [|c o]]].
  - done.
  - rewrite ticks_units. cbn [startsWith app]. simpl (96 =? 125).
    by rewrite andb_false_r.
  - rewrite ticks_units. cbn [startsWith app]. simpl (96 =? 125).
    by rewrite !andb_false_r.
  - change (((a :: b :: c :: o) ++ [125]) ++ t)
      with ((a :: b :: c :: o ++ [125]) ++ t).
    by rewrite startsWith_ticks_long.
Qed.

Lemma upTo_skip_object (o s : jsstring) :
  includes ticks (o ++ [125]) = false ->
  upTo ticks ((o ++ [125]) ++ s) = option_map (app (o ++ [125])) (upTo ticks s).
Proof.
  induction o as [|c o IH]; intros Hi.
  - simpl app. rewrite upTo_step by by apply ticks_head. done.
  - pose proof (object_suffix_no_ticks (c :: o) s Hi) as Hh.
    change (((c :: o) ++ [125]) ++ s) with (c :: (o ++ [125]) ++ s) in *.
    rewrite (upTo_step _ _ _ Hh), (IH (includes_cons _ _ _ Hi)).
    by destruct (upTo ticks s).
Qed.

(** The greedy repetition up to the last closing brace. *)
Lemma throughLast_None (c : N) (s : jsstring) :
  noUnit c s -> throughLast c s = None.
Proof.
  induction s as [|x s IH]; [done|]. intros [Hx Hs]%noUnit_cons. simpl.
  rewrite (IH Hs). by apply N.eqb_neq in Hx as ->.
Qed.

Lemma throughLast_app (c : N) (mid tail : jsstring) :
  noUnit c tail -> throughLast c (mid ++ [c] ++ tail) = Some (mid ++ [c]).
Proof.
  intros Ht. induction mid as [|x mid IH]; simpl.
  - by rewrite (throughLast_None _ _ Ht), N.eqb_refl.
  - simpl in IH. by rewrite IH.
Qed.

Lemma objectAt_head (c : N) (s : jsstring) : c <> 123 -> objectAt (c :: s) = None.
Proof. intros Hc. simpl. by apply N.eqb_neq in Hc as ->. Qed.

(** The object pattern finds the object text after units that are no
    opening braces, and takes it up to its closing brace. *)
Lemma objectAt_finds (x mid tail : jsstring) :
  noUnit 123 x -> noUnit 125 tail ->
  firstMatch objectAt (x ++ (123 :: mid ++ [125]) ++ tail)
  = Some (123 :: mid ++ [125]).
Proof.
  intros Hx Ht. rewrite firstMatch_skip.
  - change ((123 :: mid ++ [125]) ++ tail) with (123 :: (mid ++ [125]) ++ tail).
    cbn [firstMatch objectAt]. rewrite N.eqb_refl, <- app_assoc.
    by rewrite (throughLast_app 125 mid tail Ht).
  - intros p q -> Hq. destruct q as [|c q]; [done|].
    assert (Hq' : noUnit 123 (c :: q)).
    { unfold noUnit in *. rewrite forallb_app in Hx. by apply andb_true_iff in Hx as [_ ?]. }
    apply noUnit_cons in Hq' as [Hc _]. by apply objectAt_head.
Qed.

(** ** The repetitions of the patterns

    What the two matchers behind the fence and object patterns compute,
    stated on the string. *)

(** The lazy repetition: the units before the first place where the
    literal begins. *)
Lemma upTo_spec (p s a : jsstring) :
  upTo p s = Some a <->
  exists r, s = a ++ p ++ r
    /\ forall a1 a2, a = a1 ++ a2 -> a2 <> [] -> startsWith p (a2 ++ p ++ r) = false.
Proof.
  revert a. induction s as [|c s IH]; intros a.
  - simpl. destruct (startsWith p []) eqn:Hp.
    + split.
      * intros [= <-]. apply startsWith_inv in Hp as [r Hr]. exists r.
        split; [done|]. intros a1 a2 Ha. symmetry in Ha.
        by apply app_eq_nil in Ha as [_ ->].
      * intros (r & Hs & Hmin). destruct a as [|x a]; [done|]. discriminate Hs.
    + split; [done|]. intros (r & Hs & _). symmetry in Hs.
      apply app_eq_nil in Hs as [-> [-> ->]%app_eq_nil]. discriminate Hp.
  - cbn [upTo]. destruct (startsWith p (c :: s)) eqn:Hp.
    + split.
      * intros [= <-]. apply startsWith_inv in Hp as [r Hr]. exists r.
        split; [done|]. intros a1 a2 Ha. symmetry in Ha.
        by apply app_eq_nil in Ha as [_ ->].
      * intros (r & Hs & Hmin). destruct a as [|x a]; [done|].
        specialize (Hmin [] (x :: a) eq_refl ltac:(done)).
        rewrite <- Hs in Hmin. congruence.
    + destruct (upTo p s) as [a'|] eqn:Hu; simpl.
      * split.
        -- intros [= <-]. destruct (proj1 (IH a') eq_refl) as (r & Hs & Hmin).
           exists r. split; [by rewrite Hs|].
           intros a1 a2 Ha Hne. destruct a1 as [|y a1]; simpl in Ha.
           ++ subst a2. change (startsWith p (c :: (a' ++ p ++ r)) = false).
              by rewrite <- Hs.
           ++ injection Ha as _ Ha. by apply (Hmin a1 a2).
        -- intros (r' & Hs & Hmin'). destruct a as [|x a].
           ++ simpl in Hs. rewrite Hs, startsWith_app in Hp. discriminate Hp.
           ++ injection Hs as <- Hs.
              assert (Some a' = Some a) as [= ->]; [|done].
              apply IH. exists r'. split; [done|]. intros a1 a2 -> Hne.
              by apply (Hmin' (c :: a1) a2).
      * split; [done|]. intros (r & Hs & Hmin). destruct a as [|x a].
        -- simpl in Hs. rewrite Hs, startsWith_app in Hp. discriminate Hp.
        -- injection Hs as <- Hs.
           assert (None = Some a) as Hn; [|discriminate Hn].
           apply IH. exists r. split; [done|]. intros a1 a2 -> Hne.
           by apply (Hmin (c :: a1) a2).
Qed.

Lemma throughLast_None_inv (c : N) (s : jsstring) :
  throughLast c s = None -> noUnit c s.
Proof.
  induction s as [|y s IH]; [done|]. cbn [throughLast].
  destruct (throughLast c s); [done|].
  destruct (N.eqb_spec y c) as [|Hy]; [done|]. intros _.
  unfold noUnit. simpl. apply N.eqb_neq in Hy as ->. by apply IH.
Qed.

(** The greedy repetition: the units up to the last occurrence of the
    unit, that occurrence included. *)
Lemma throughLast_spec (c : N) (s t : jsstring) :
  throughLast c s = Some t <->
  exists m rest, s = (m ++ [c]) ++ rest /\ t = m ++ [c] /\ noUnit c rest.
Proof.
  revert t. induction s as [|x s IH]; intros t.
  - split; [done|]. intros (m & rest & Hs & _). by destruct m.
  - cbn [throughLast]. destruct (throughLast c s) as [t'|] eqn:Ht.
    + split.
      * intros [= <-]. destruct (proj1 (IH t') eq_refl) as (m & rest & Hs & -> & Hr).
        exists (x :: m), rest. by rewrite Hs.
      * intros (m' & rest' & Hs & -> & Hr').
        destruct m' as [|y m']; simpl in Hs; injection Hs as <- Hs.
        -- assert (Some t' = None) as Hn; [|discriminate Hn].
           rewrite <- Ht, Hs. by apply throughLast_None.
        -- assert (Some t' = Some (m' ++ [c])) as [= ->]; [|done].
           apply IH. by exists m', rest'.
    + destruct (N.eqb_spec x c) as [->|Hx].
      * split.
        -- intros [= <-]. exists [], s. repeat split; [done..|].
           by apply throughLast_None_inv.
        -- intros (m & rest & Hs & -> & Hr). destruct m as [|y m]; [done|].
           simpl in Hs. injection Hs as <- Hs. exfalso.
           assert (None = Some (m ++ [c])) as Hn; [|discriminate Hn].
           apply IH. by exists m, rest.
      * split; [done|]. intros (m & rest & Hs & -> & Hr).
        destruct m as [|y m]; simpl in Hs; injection Hs as Hxy Hs; [congruence|].
        assert (None = Some (m ++ [c])) as Hn; [|discriminate Hn].
        apply IH. by exists m, rest.
Qed.

Lemma backticks_units : js "``" = [96; 96].
Proof. reflexivity. Qed.

Lemma lower_backtick (c : N) : (lower 96 =? lower c) = true -> c = 96.
Proof.
  intros Hc%N.eqb_eq. change (lower 96) with 96 in Hc. unfold lower in Hc.
  destruct (N.leb_spec 65 c), (N.leb_spec c 90); simpl in Hc; lia.
Qed.

Lemma fenceJsonAt_ticks (s : jsstring) :
  startsWith ticks s = false -> fenceJsonAt s = None.
Proof.
  intros Hs. unfold fenceJsonAt.
  destruct (startsWithCI (js "```json") s) eqn:Hci; [|done].
  destruct s as [|a [|b [|c s]]]; try done.
  change (js "```json") with (96 :: 96 :: 96 :: js "json") in Hci.
  cbn [startsWithCI] in Hci.
  apply andb_true_iff in Hci as [->%lower_backtick Hci].
  apply andb_true_iff in Hci as [->%lower_backtick Hci].
  apply andb_true_iff in Hci as [->%lower_backtick Hci].
  by rewrite ticks_units in Hs.
Qed.

Lemma fenceAt_ticks (s : jsstring) :
  startsWith ticks s = false -> fenceAt s = None.
Proof. intros Hs. unfold fenceAt. by rewrite Hs. Qed.

(** The markers that begin in the prose before the fence would begin in
    the prose followed by two backticks. *)
Lemma ticks_across (q r : jsstring) :
  q <> [] -> startsWith ticks (q ++ ticks ++ r) = startsWith ticks (q ++ js "``").
Proof.
  intros Hq. rewrite ticks_units, backticks_units.
  destruct q as [|a [|b [|c q]]]; try done; reflexivity.
Qed.

Lemma before_no_ticks (before p q r : jsstring) :
  includes ticks (before ++ js "``") = false ->
  before = p ++ q -> q <> [] ->
  startsWith ticks (q ++ ticks ++ r) = false.
Proof.
  intros Hb -> Hq. rewrite (ticks_across q r Hq).
  rewrite <- app_assoc in Hb. by apply includes_app_r, includes_head in Hb.
Qed.

Lemma skip_before {A : Type} (f : jsstring -> option A) (before r : jsstring) :
  (forall s, startsWith ticks s = false -> f s = None) ->
  includes ticks (before ++ js "``") = false ->
  firstMatch f (before ++ ticks ++ r) = firstMatch f (ticks ++ r).
Proof.
  intros Hf Hb. apply firstMatch_skip. intros p q Hpq Hq.
  apply Hf. by eapply before_no_ticks.
Qed.

Lemma noUnit_app (c : N) (a b : jsstring) :
  noUnit c (a ++ b) <-> noUnit c a /\ noUnit c b.
Proof. unfold noUnit. by rewrite forallb_app, andb_true_iff. Qed.

Lemma dropSpaces_suffix (s : jsstring) : exists p, s = p ++ dropSpaces s.
Proof.
  induction s as [|c s [p IH]]; [by exists []|]. simpl.
  destruct (isSpace c); [|by exists []].
  exists (c :: p). simpl. by rewrite <- IH.
Qed.

Lemma noUnit_dropSpaces (c : N) (s : jsstring) : noUnit c s -> noUnit c (dropSpaces s).
Proof.
  destruct (dropSpaces_suffix s) as [p Hp]. rewrite Hp at 1.
  by intros [_ ?]%noUnit_app.
Qed.

(** A suffix of [a ++ b] that begins in [a] begins with a unit of [a]. *)
Lemma plain_or_later (c : N) (a b p q : jsstring) :
  noUnit c a -> a ++ b = p ++ q -> q <> [] ->
  (exists x q', q = x :: q' /\ x <> c) \/ (exists p', b = p' ++ q).
Proof.
  revert p. induction a as [|x a IH]; intros p Ha Hpq Hq.
  - right. by exists p.
  - apply noUnit_cons in Ha as [Hx Ha]. destruct p as [|y p]; simpl in Hpq.
    + left. subst q. by exists x, (a ++ b).
    + injection Hpq as _ Hpq. by apply (IH p).
Qed.

(** No marker begins inside an object text without marker, nor in what
    follows it when that has no backtick. *)
Lemma object_inside_no_ticks (o tail p q r : jsstring) :
  includes ticks (o ++ [125]) = false -> noUnit 96 tail ->
  (o ++ [125]) ++ tail = p ++ q -> q <> [] ->
  startsWith ticks (q ++ r) = false.
Proof.
  intros Hi Ht. revert p. induction o as [|c o IHo]; intros p Hpq Hq.
  - destruct p as [|c p].
    + change ([] ++ q) with q in Hpq. subst q. by apply ticks_head.
    + injection Hpq as _ Hpq.
      destruct (plain_or_later 96 tail [] p q Ht) as [(x & q' & -> & Hx)|(p' & Hp')];
        [by rewrite app_nil_r|done|by apply ticks_head|].
      symmetry in Hp'. by apply app_eq_nil in Hp' as [_ ->].
  - destruct p as [|c' p].
    + change ([] ++ q) with q in Hpq. subst q. rewrite <- app_assoc.
      apply (object_suffix_no_ticks (c :: o) (tail ++ r) Hi).
    + injection Hpq as _ Hpq. apply (IHo (includes_cons _ _ _ Hi) p); done.
Qed.

Lemma ticks_cons (r : jsstring) : ticks ++ r = 96 :: [96; 96] ++ r.
Proof. reflexivity. Qed.

(** After a fence marker with the tag come four letters. *)
Lemma json_tag_inv (s : jsstring) :
  startsWithCI (js "```json") (96 :: [96; 96] ++ s) = true ->
  exists j1 j2 j3 j4 s',
    s = j1 :: j2 :: j3 :: j4 :: s'
    /\ (j1 <> 123 /\ j2 <> 123 /\ j3 <> 123 /\ j4 <> 123).
Proof.
  change (js "```json") with [96; 96; 96; 106; 115; 111; 110].
  destruct s as [|j1 [|j2 [|j3 [|j4 s']]]]; cbn [startsWithCI app];
    rewrite ?andb_false_r; try discriminate.
  intros Hci. repeat apply andb_true_iff in Hci as [? Hci].
  exists j1, j2, j3, j4, s'. split; [done|].
  repeat split; intros ->; discriminate.
Qed.

Lemma tag_before_brace (info r s' : jsstring) (j1 j2 j3 j4 : N) :
  info ++ 123 :: r = j1 :: j2 :: j3 :: j4 :: s' ->
  j1 <> 123 /\ j2 <> 123 /\ j3 <> 123 /\ j4 <> 123 ->
  exists info2, info = j1 :: j2 :: j3 :: j4 :: info2 /\ s' = info2 ++ 123 :: r.
Proof.
  intros Hs (H1 & H2 & H3 & H4).
  destruct info as [|i1 [|i2 [|i3 [|i4 info2]]]]; simpl in Hs;
    injection Hs as; try congruence.
  subst. by exists info2.
Qed.

Section Fenced.
Variables (info mid tail after : jsstring).
Hypothesis (Hinfo : noUnit 96 info /\ noUnit 123 info).
Hypothesis (Hobj : includes ticks (123 :: mid ++ [125]) = false).
Hypothesis (Htail : noUnit 96 tail /\ noUnit 125 tail).
Hypothesis (Hafter : includes ticks (js "``" ++ after) = false).

(** The lazy repetition after the opening fence stops at the closing
    fence. *)
Lemma capture_to_closing_fence (x : jsstring) :
  noUnit 96 x ->
  upTo ticks (dropSpaces (x ++ (123 :: mid ++ [125]) ++ tail ++ ticks ++ after))
  = Some (dropSpaces x ++ (123 :: mid ++ [125]) ++ tail).
Proof using Hobj Htail.
  intros Hx.
  change ((123 :: mid ++ [125]) ++ tail ++ ticks ++ after)
    with (123 :: (mid ++ [125]) ++ tail ++ ticks ++ after).
  rewrite dropSpaces_app_stop by reflexivity.
  rewrite upTo_skip by by apply noUnit_dropSpaces.
  change (123 :: (mid ++ [125]) ++ tail ++ ticks ++ after)
    with (((123 :: mid) ++ [125]) ++ tail ++ ticks ++ after).
  rewrite upTo_skip_object by exact Hobj.
  rewrite upTo_skip by apply Htail. rewrite upTo_here. simpl.
  by rewrite app_nil_r.
Qed.

(** No marker begins inside the material between the fences. *)
Lemma inside_no_ticks (p q r : jsstring) :
  info ++ (123 :: mid ++ [125]) ++ tail = p ++ q -> q <> [] ->
  startsWith ticks (q ++ r) = false.
Proof using Hinfo Hobj Htail.
  destruct Hinfo as [Hi _]. destruct Htail as [Ht _]. intros Hpq Hq.
  destruct (plain_or_later 96 info ((123 :: mid ++ [125]) ++ tail) p q Hi Hpq Hq)
    as [(c & q' & -> & Hc)|(p' & Hpq')]; [by apply ticks_head|].
  by apply (object_inside_no_ticks (123 :: mid) tail p' q r).
Qed.

(** The material between the fences does not begin with a backtick. *)
Lemma inside_head : exists z zs, info ++ (123 :: mid ++ [125]) ++ tail = z :: zs /\ z <> 96.
Proof using Hinfo.
  destruct Hinfo as [Hi _]. destruct info as [|c i].
  - by exists 123, ((mid ++ [125]) ++ tail).
  - apply noUnit_cons in Hi as [Hc _]. by exists c, (i ++ (123 :: mid ++ [125]) ++ tail).
Qed.

(** After the closing fence no fenced block with the tag begins. *)
Lemma closing_fence_no_json : firstMatch fenceJsonAt (ticks ++ after) = None.
Proof using Hafter.
  rewrite backticks_units in Hafter.
  rewrite ticks_units. change ([96; 96; 96] ++ after) with (96 :: [96; 96] ++ after).
  cbn [firstMatch].
  assert (fenceJsonAt (96 :: [96; 96] ++ after) = None) as ->.
  { unfold fenceJsonAt. destruct (startsWithCI _ _); [|done].
    apply upTo_None.
    destruct (dropSpaces_suffix (skipn 7 (96 :: [96; 96] ++ after))) as [p Hp].
    apply includes_app_r with (a := [96; 96] ++ firstn 4 after ++ p).
    rewrite <- !app_assoc, <- Hp. change (skipn 7 (96 :: [96; 96] ++ after))
      with (skipn 4 after). by rewrite firstn_skipn. }
  apply firstMatch_None. intros pre t Ht. apply fenceJsonAt_ticks.
  rewrite Ht in Hafter. by apply includes_app_r, includes_head in Hafter.
Qed.

(** Behind the opening fence, no fenced block with the tag begins. *)
Lemma behind_opening_no_json :
  firstMatch fenceJsonAt ([96; 96] ++ (info ++ (123 :: mid ++ [125]) ++ tail) ++ ticks ++ after) = None.
Proof using Hinfo Hobj Htail Hafter.
  destruct inside_head as (z & zs & Hz & Hz96).
  rewrite firstMatch_skip.
  - rewrite firstMatch_skip; [apply closing_fence_no_json|].
    intros p q Hpq Hq. apply fenceJsonAt_ticks. by eapply inside_no_ticks.
  - intros p q Hpq Hq. apply fenceJsonAt_ticks. rewrite Hz.
    destruct p as [|a [|b p]]; simpl in Hpq.
    + subst q. rewrite ticks_units. cbn [startsWith app].
      destruct (N.eqb_spec 96 z); [congruence|]. by rewrite !andb_false_r.
    + injection Hpq as _ <-. rewrite ticks_units. cbn [startsWith app].
      destruct (N.eqb_spec 96 z); [congruence|]. by rewrite !andb_false_r.
    + injection Hpq as _ _ Hpq. symmetry in Hpq.
      by apply app_eq_nil in Hpq as [_ ->].
Qed.

(** The fenced block that the parser takes: the object text and what
    follows it, after units that are no opening braces. *)
Lemma fence_capture :
  exists x : jsstring,
    noUnit 123 x
    /\ match firstMatch fenceJsonAt (ticks ++ (info ++ (123 :: mid ++ [125]) ++ tail) ++ ticks ++ after) with
       | Some g => Some g
       | None => firstMatch fenceAt (ticks ++ (info ++ (123 :: mid ++ [125]) ++ tail) ++ ticks ++ after)
       end = Some (x ++ (123 :: mid ++ [125]) ++ tail).
Proof using Hinfo Hobj Htail Hafter.
  pose proof behind_opening_no_json as Hbehind.
  pose proof capture_to_closing_fence as Hcap.
  destruct Hinfo as [Hi96 Hi123].
  rewrite (ticks_cons ((info ++ (123 :: mid ++ [125]) ++ tail) ++ ticks ++ after)).
  cbn [firstMatch].
  destruct (fenceJsonAt (96 :: [96; 96] ++ (info ++ (123 :: mid ++ [125]) ++ tail) ++ ticks ++ after))
    as [g|] eqn:Hj.
  - (* the block carries the tag, which is the beginning of [info] *)
    unfold fenceJsonAt in Hj. destruct (startsWithCI _ _) eqn:Hci; [|done].
    apply json_tag_inv in Hci as (j1 & j2 & j3 & j4 & s' & Hs & Hne).
    rewrite <- !app_assoc in Hs.
    change ((123 :: mid ++ [125]) ++ tail ++ ticks ++ after)
      with (123 :: (mid ++ [125]) ++ tail ++ ticks ++ after) in Hs.
    apply tag_before_brace in Hs as (info2 & Hinfo2 & _); [|done].
    rewrite Hinfo2 in Hj, Hi96, Hi123.
    apply (noUnit_app 96 [j1; j2; j3; j4] info2) in Hi96 as [_ Hi96].
    apply (noUnit_app 123 [j1; j2; j3; j4] info2) in Hi123 as [_ Hi123].
    assert (Harg : skipn 7 (96 :: [96; 96]
                     ++ ((j1 :: j2 :: j3 :: j4 :: info2) ++ (123 :: mid ++ [125]) ++ tail)
                     ++ ticks ++ after)
                   = info2 ++ (123 :: mid ++ [125]) ++ tail ++ ticks ++ after)
      by (cbn [skipn app]; list_normal).
    rewrite Harg, (Hcap info2 Hi96) in Hj.
    injection Hj as <-. exists (dropSpaces info2). split; [|done].
    by apply noUnit_dropSpaces.
  - (* no tag: the plain fence pattern takes the block *)
    rewrite Hbehind. unfold fenceAt.
    assert (Hopen : startsWith ticks
                      (96 :: [96; 96] ++ (info ++ (123 :: mid ++ [125]) ++ tail) ++ ticks ++ after)
                    = true) by apply (startsWith_app ticks).
    assert (Harg : skipn 3 (96 :: [96; 96] ++ (info ++ (123 :: mid ++ [125]) ++ tail) ++ ticks ++ after)
                   = info ++ (123 :: mid ++ [125]) ++ tail ++ ticks ++ after)
      by (cbn [skipn app]; list_normal).
    rewrite Hopen, Harg, (Hcap info Hi96).
    exists (dropSpaces info). split; [|done]. by apply noUnit_dropSpaces.
Qed.

End Fenced.

Lemma trim_core (a b m : jsstring) (c1 c2 : N) :
  isSpace c1 = false -> isSpace c2 = false ->
  trim (a ++ (c1 :: m ++ [c2]) ++ b)
  = dropSpaces a ++ (c1 :: m ++ [c2]) ++ rev (dropSpaces (rev b)).
Proof.
  intros H1 H2. unfold trim.
  change ((c1 :: m ++ [c2]) ++ b) with (c1 :: (m ++ [c2]) ++ b).
  rewrite (dropSpaces_app_stop a c1 _ H1).
  change (c1 :: (m ++ [c2]) ++ b) with ((c1 :: m ++ [c2]) ++ b).
  rewrite !rev_app_distr. change (rev (c1 :: m ++ [c2])) with (rev (m ++ [c2]) ++ [c1]).
  rewrite (rev_app_distr m [c2]). cbn [rev app]. rewrite <- !app_assoc. cbn [app].
  rewrite (dropSpaces_app_stop (rev b) c2 _ H2).
  rewrite rev_app_distr. cbn [rev]. rewrite !rev_app_distr, !rev_involutive.
  cbn [rev app]. list_normal.
Qed.

Lemma trim_object (mid : jsstring) : trim (123 :: mid ++ [125]) = 123 :: mid ++ [125].
Proof.
  pose proof (trim_core [] [] mid 123 125 eq_refl eq_refl) as Ht.
  cbn [app rev dropSpaces] in Ht. by rewrite !app_nil_r in Ht.
Qed.

Lemma trimEnd_prefix (s : jsstring) : exists sp, s = rev (dropSpaces (rev s)) ++ sp.
Proof.
  destruct (dropSpaces_suffix (rev s)) as [p Hp]. exists (rev p).
  by rewrite <- rev_app_distr, <- Hp, rev_involutive.
Qed.

Section Extraction.
Variables (before info mid tail after : jsstring).
Hypothesis (Hbefore : includes ticks (before ++ js "``") = false).
Hypothesis (Hinfo : noUnit 96 info /\ noUnit 123 info).
Hypothesis (Hobj : includes ticks (123 :: mid ++ [125]) = false).
Hypothesis (Htail : noUnit 96 tail /\ noUnit 125 tail).
Hypothesis (Hafter : includes ticks (js "``" ++ after) = false).

(** The text handed to [JSON.parse] for the fenced object is the object
    text. *)
Lemma extractJson_fenced :
  extractJson (trim (before ++ ticks ++ info ++ (123 :: mid ++ [125]) ++ tail ++ ticks ++ after)) = (123 :: mid ++ [125]).
Proof using Hbefore Hinfo Hobj Htail Hafter.
  assert (Hraw : before ++ ticks ++ info ++ (123 :: mid ++ [125]) ++ tail ++ ticks ++ after
                 = before ++ (96 :: ([96; 96] ++ info ++ (123 :: mid ++ [125]) ++ tail ++ [96; 96]) ++ [96])
                   ++ after)
    by (rewrite ticks_units; list_normal).
  rewrite Hraw, trim_core by reflexivity.
  destruct (dropSpaces_suffix before) as [p Hp].
  destruct (trimEnd_prefix after) as [sp Hsp].
  set (before' := dropSpaces before) in *. set (after' := rev (dropSpaces (rev after))) in *.
  assert (Hb' : includes ticks (before' ++ js "``") = false).
  { rewrite Hp, <- app_assoc in Hbefore. by apply includes_app_r in Hbefore. }
  assert (Ha' : includes ticks (js "``" ++ after') = false).
  { rewrite Hsp, app_assoc in Hafter. by apply includes_app_l in Hafter. }
  assert (Htext : before' ++ (96 :: ([96; 96] ++ info ++ (123 :: mid ++ [125]) ++ tail ++ [96; 96]) ++ [96])
                    ++ after'
                  = before' ++ ticks ++ (info ++ (123 :: mid ++ [125]) ++ tail) ++ ticks ++ after')
    by (rewrite ticks_units; list_normal).
  rewrite Htext. unfold extractJson.
  rewrite (skip_before fenceJsonAt before' _ fenceJsonAt_ticks Hb').
  rewrite (skip_before fenceAt before' _ fenceAt_ticks Hb').
  destruct (fence_capture info mid tail after' Hinfo Hobj Htail Ha') as (x & Hx & ->).
  by rewrite (objectAt_finds x mid tail Hx (proj2 Htail)).
Qed.

(** The text handed to [JSON.parse] for the object text alone is the
    object text. *)
Lemma extractJson_object : extractJson (trim (123 :: mid ++ [125])) = (123 :: mid ++ [125]).
Proof using Hobj.
  rewrite trim_object. unfold extractJson.
  assert (firstMatch fenceJsonAt (123 :: mid ++ [125]) = None) as ->.
  { apply firstMatch_None. intros pre t Ht. apply fenceJsonAt_ticks.
    rewrite Ht in Hobj. by apply includes_app_r, includes_head in Hobj. }
  assert (firstMatch fenceAt (123 :: mid ++ [125]) = None) as ->.
  { apply firstMatch_None. intros pre t Ht. apply fenceAt_ticks.
    rewrite Ht in Hobj. by apply includes_app_r, includes_head in Hobj. }
  pose proof (objectAt_finds [] mid [] eq_refl eq_refl) as Hf.
  cbn [app] in Hf. rewrite app_nil_r in Hf. by rewrite Hf.
Qed.

End Extraction.

(** C7 (as amended).  For a raw output made of prose, a fence marker, an
    info string, one brace-delimited object text, a fence marker and prose,
    where the object text holds no fence marker (and the prose holds none
    and has no backtick next to the fence, the info string has no backtick
    and no opening brace, and no backtick or closing brace stands between
    the object and the closing fence), the response parser hands to
    [JSON.parse] the object text, as it does for the unwrapped object text:
    the issues of the two results are the same, and when the parsed value
    is accepted the two results are the same. *)
Theorem fenced_object_parsed_like_unwrapped `{Runtime}
    (raw before info obj tail after : jsstring) :
  raw = before ++ ticks ++ info ++ obj ++ tail ++ ticks ++ after ->
  includes ticks (before ++ js "``") = false ->
  noUnit 96 info /\ noUnit 123 info ->
  objectText obj -> includes ticks obj = false ->
  noUnit 96 tail /\ noUnit 125 tail ->
  includes ticks (js "``" ++ after) = false ->
  extractJson (trim raw) = obj
  /\ extractJson (trim obj) = obj
  /\ issues (safeParseReview raw) = issues (safeParseReview obj)
  /\ (forall r, (parsed ← JSON_parse obj; coerceReview parsed) = Some r ->
        safeParseReview raw = r /\ safeParseReview obj = r).
Proof.
  intros -> Hbefore Hinfo [mid ->] Hobj Htail Hafter.
  pose proof (extractJson_fenced before info mid tail after Hbefore Hinfo Hobj Htail
                Hafter) as Hraw.
  pose proof (extractJson_object mid Hobj) as Ho.
  split; [done|]. split; [done|].
  unfold safeParseReview. rewrite Hraw, Ho.
  destruct (parsed ← JSON_parse (123 :: mid ++ [125]); coerceReview parsed) as [r|].
  - split; [done|]. by intros r' [= <-].
  - split; [done|]. by intros r' [=].
Qed.

Lemma fenced_object_parsed_like_unwrapped_witness :
  includes ticks (fencedBefore ++ js "``") = false
  /\ objectText okObject
  /\ extractJson (trim fencedOutput) = okObject
  /\ extractJson (trim okObject) = okObject
  /\ issues (@safeParseReview Reference.runtime fencedOutput)
     = issues (@safeParseReview Reference.runtime okObject)
  /\ (forall r, (parsed ← @JSON_parse Reference.runtime okObject;
                 @coerceReview Reference.runtime parsed) = Some r ->
        @safeParseReview Reference.runtime fencedOutput = r
        /\ @safeParseReview Reference.runtime okObject = r).
Proof.
  assert (Hobj : objectText okObject)
    by (exists (removelast (tl okObject)); vm_compute; reflexivity).
  split; [vm_compute; reflexivity|]. split; [exact Hobj|].
  apply (@fenced_object_parsed_like_unwrapped Reference.runtime fencedOutput
           fencedBefore fencedInfo okObject fencedTail fencedAfter);
    try exact Hobj; try reflexivity; split; reflexivity.
Defined.

(** The fenced output of the witness gives the result of its object. *)
Example safeParseReview_fencedOutput :
  @safeParseReview Reference.runtime fencedOutput
  = {| summary := js "ok"; issues := VArr [] [] |}.
Proof. vm_compute. reflexivity. Qed.

(** C7, counterexample: one JSON object in a fence, with a fence marker
    inside its summary.  The unwrapped object gives its summary; the fenced
    one is cut at the marker, does not parse, and gives the raw text as
    summary. *)
Lemma ticked_object_parsed_differently :
  objectText tickedObject
  /\ @JSON_parse Reference.runtime tickedObject
     = Some (VObj [(js "summary", VStr (js "use ``` to quote"));
                   (js "issues", VArr [] [])])
  /\ summary (@safeParseReview Reference.runtime tickedObject) = js "use ``` to quote"
  /\ summary (@safeParseReview Reference.runtime tickedOutput) = tickedOutput
  /\ @safeParseReview Reference.runtime tickedOutput
     <> @safeParseReview Reference.runtime tickedObject.
Proof.
  split; [exists (removelast (tl tickedObject)); vm_compute; reflexivity|].
  repeat split; try (vm_compute; reflexivity).
  vm_compute. discriminate.
Qed.

(** * Further properties *)

(** ** Escaping *)

Lemma escapeUnit_app_inj (c c' : N) (r r' : jsstring) :
  escapeUnit c ++ r = escapeUnit c' ++ r' -> c = c' /\ r = r'.
Proof.
  destruct (escapeUnit_cases c)
    as [[-> ->]|[[-> ->]|[[-> ->]|[[-> ->]|[[-> ->]|(Hc & _ & ->)]]]]];
  destruct (escapeUnit_cases c')
    as [[-> ->]|[[-> ->]|[[-> ->]|[[-> ->]|[[-> ->]|(Hc' & _ & ->)]]]]];
  cbn; intros [= ]; subst; done.
Qed.

Lemma escapeUnit_nonempty (c : N) : escapeUnit c <> [].
Proof.
  destruct (escapeUnit_cases c)
    as [[_ ->]|[[_ ->]|[[_ ->]|[[_ ->]|[[_ ->]|(_ & _ & ->)]]]]]; done.
Qed.

(** X1.  [escapeHtml] loses nothing: two texts with the same escaped form
    are the same text. *)
Theorem escapeHtml_injective (a b : jsstring) :
  escapeHtml a = escapeHtml b -> a = b.
Proof.
  revert b. induction a as [|c a IH]; intros [|c' b]; rewrite ?escapeHtml_cons.
  - done.
  - intros Heq. symmetry in Heq. apply app_eq_nil in Heq as [Heq _].
    by apply escapeUnit_nonempty in Heq.
  - intros Heq. apply app_eq_nil in Heq as [Heq _].
    by apply escapeUnit_nonempty in Heq.
  - intros [-> Heq]%escapeUnit_app_inj. by rewrite (IH _ Heq).
Qed.

Lemma escapeHtml_injective_witness :
  escapeHtml (js "a<b") = escapeHtml (js "a<b") /\ js "a<b" = js "a<b".
Proof. split; [reflexivity | apply (escapeHtml_injective _ _ eq_refl)]. Defined.

(** X2.  Whatever the text, its escaped form contains no angle bracket and
    no quote of either kind, and a text without the five special units is
    its own escaped form. *)
Theorem escapeHtml_output_is_inert (s : jsstring) :
  Forall (fun c => markupUnit c = false) (escapeHtml s)
  /\ (Forall (fun c => markupUnit c = false /\ c <> 38) s -> escapeHtml s = s).
Proof.
  split.
  - apply List.Forall_forall. intros c Hc.
    pose proof (escapeHtml_no_markup s) as Hall.
    rewrite forallb_forall in Hall. by apply negb_true_iff, Hall.
  - intros Hall. apply escapeHtml_plain, forallb_forall. intros c Hc.
    rewrite List.Forall_forall in Hall. destruct (Hall c Hc) as [Hm Ha].
    rewrite Hm. simpl. by apply negb_true_iff, N.eqb_neq.
Qed.

Lemma escapeHtml_output_is_inert_witness :
  escapeHtml (js "a.ts") = js "a.ts".
Proof.
  apply (proj2 (escapeHtml_output_is_inert (js "a.ts"))).
  repeat constructor; done.
Defined.

(** ** The response parser: what it leaves alone, what it gives up on *)

Lemma clampedKey_false (k : jsstring) :
  clampedKey k = false ->
  js "startLine" <> k /\ js "endLine" <> k /\ js "severity" <> k /\ js "file" <> k.
Proof.
  unfold clampedKey. intros Hk.
  apply orb_false_iff in Hk as [Hk H4]. apply orb_false_iff in Hk as [Hk H3].
  apply orb_false_iff in Hk as [H1 H2].
  apply eqb_false in H1, H2, H3, H4. by repeat split; intros <-.
Qed.

(** X3.  The loop of the response parser assigns the start line, the end
    line, the severity and the file of an issue; every other property (the
    message and the suggestion among them) is left exactly as the model
    gave it. *)
Theorem sanitizeIssue_keeps_other_properties `{Runtime} (it it' : value)
    (k : jsstring) :
  sanitizeIssue it = Some it' -> clampedKey k = false ->
  getProp it' k = getProp it k.
Proof.
  unfold sanitizeIssue. intros Hs (K1 & K2 & K3 & K4)%clampedKey_false.
  apply bind_Some in Hs as (a & _ & Hs). apply bind_Some in Hs as (n & _ & Hs).
  apply bind_Some in Hs as (m & _ & Hs). apply bind_Some in Hs as (it1 & S1 & Hs).
  apply bind_Some in Hs as (s & _ & Hs). apply bind_Some in Hs as (b & _ & Hs).
  apply bind_Some in Hs as (n' & _ & Hs). apply bind_Some in Hs as (s' & _ & Hs).
  apply bind_Some in Hs as (m' & _ & Hs). apply bind_Some in Hs as (it2 & S2 & Hs).
  apply bind_Some in Hs as (sev & _ & Hs). apply bind_Some in Hs as (it3 & S3 & Hs).
  apply bind_Some in Hs as (f & _ & Hs). apply bind_Some in Hs as (fs & _ & Hs).
  apply bind_Some in Hs as (it4 & S4 & Hs). apply bind_Some in Hs as (f' & _ & Hs).
  apply bind_Some in Hs as (fs' & _ & S5).
  rewrite (getProp_setProp_ne _ _ _ _ _ S5 K4), (getProp_setProp_ne _ _ _ _ _ S4 K4).
  assert (getProp it3 k = getProp it2 k) as ->.
  { destruct (isSeverity sev); [by injection S3 as <-|].
    apply (getProp_setProp_ne _ _ _ _ _ S3 K3). }
  by rewrite (getProp_setProp_ne _ _ _ _ _ S2 K2), (getProp_setProp_ne _ _ _ _ _ S1 K1).
Qed.

Lemma sanitizeIssue_keeps_other_properties_witness :
  getProp proxyIssueClamped (js "message") = getProp proxyIssue (js "message").
Proof.
  apply (@sanitizeIssue_keeps_other_properties Reference.runtime);
    vm_compute; reflexivity.
Defined.

Lemma sanitizeIssue_primitive `{Runtime} (x : value) :
  primitive x = true -> sanitizeIssue x = None.
Proof. by destruct x as [| |[]|n|s| |]. Qed.

Lemma mapM_None_In {A B : Type} (f : A -> option B) (l : list A) (x : A) :
  In x l -> f x = None -> mapM f l = None.
Proof.
  intros Hin Hx. destruct (mapM f l) as [r|] eqn:Hm; [|done].
  assert (Hs : is_Some (mapM f l)) by (by eexists).
  rewrite mapM_is_Some, List.Forall_forall in Hs.
  destruct (Hs x Hin) as [y Hy]. simpl in Hy. congruence.
Qed.

(** X4.  The response parser keeps all issues or none: when the parsed
    issues array holds one element that is no object (null, a number, a
    string, a boolean), the loop throws at it, and the result is the
    fallback, with no issue at all and the raw text as summary. *)
Theorem primitive_issue_discards_review `{Runtime} (raw : jsstring)
    (parsed : value) (es : list value) (ps : list (jsstring * value))
    (x : value) :
  JSON_parse (extractJson (trim raw)) = Some parsed ->
  getProp parsed (js "issues") = Some (VArr es ps) ->
  In x es -> primitive x = true ->
  safeParseReview raw
  = {| summary := slice0 800 (trim raw); issues := VArr [] [] |}.
Proof.
  intros Hp Hi Hin Hx. unfold safeParseReview. rewrite Hp. simpl.
  unfold coerceReview. rewrite Hi. simpl.
  by rewrite (mapM_None_In _ _ _ Hin (sanitizeIssue_primitive x Hx)).
Qed.

Lemma primitive_issue_discards_review_witness :
  @safeParseReview Reference.runtime nullIssueOutput
  = {| summary := slice0 800 (trim nullIssueOutput); issues := VArr [] [] |}.
Proof.
  apply (@primitive_issue_discards_review Reference.runtime nullIssueOutput
           (VObj [(js "issues", VArr [VNull; VObj []] [])])
           [VNull; VObj []] [] VNull);
    [vm_compute; reflexivity | vm_compute; reflexivity | by left | reflexivity].
Defined.

(** ** Paths *)

Lemma dropSlashes_head (s : jsstring) : startsWith (js "/") (dropSlashes s) = false.
Proof.
  induction s as [|c s IH]; [done|]. cbn [dropSlashes].
  destruct (c =? 47) eqn:E; [done|].
  change (startsWith (js "/") (c :: s)) with ((47 =? c) && true).
  rewrite (N.eqb_sym 47 c), E. reflexivity.
Qed.

Lemma normalizeFile_relative (p : jsstring) :
  startsWith (js "/") (normalizeFile p) = false.
Proof.
  unfold normalizeFile, stripDotSlashesOrSlashes.
  set (x := stripPrefix (js "b/") _).
  destruct (startsWith (js "./") x); [apply dropSlashes_head|].
  destruct (startsWith (js "/") x) eqn:E; [apply dropSlashes_head | done].
Qed.

Lemma cleanPath_relative (p : jsstring) :
  startsWith (js "/") (cleanPath p) = false.
Proof.
  unfold cleanPath, stripSlashes.
  set (x := stripDotSlashes _).
  destruct (startsWith (js "/") x) eqn:E; [apply dropSlashes_head | done].
Qed.

(** X5.  The file name that the response parser stores in an issue is a
    string that never begins with a slash, whatever the model wrote. *)
Theorem stored_file_is_relative `{Runtime} (it it' : value) :
  sanitizeIssue it = Some it' ->
  exists f : jsstring,
    getProp it' (js "file") = Some (VStr f) /\ startsWith (js "/") f = false.
Proof.
  unfold sanitizeIssue. intros Hs.
  apply bind_Some in Hs as (a & _ & Hs). apply bind_Some in Hs as (n & _ & Hs).
  apply bind_Some in Hs as (m & _ & Hs). apply bind_Some in Hs as (it1 & _ & Hs).
  apply bind_Some in Hs as (s & _ & Hs). apply bind_Some in Hs as (b & _ & Hs).
  apply bind_Some in Hs as (n' & _ & Hs). apply bind_Some in Hs as (s' & _ & Hs).
  apply bind_Some in Hs as (m' & _ & Hs). apply bind_Some in Hs as (it2 & _ & Hs).
  apply bind_Some in Hs as (sev & _ & Hs). apply bind_Some in Hs as (it3 & _ & Hs).
  apply bind_Some in Hs as (f & _ & Hs). apply bind_Some in Hs as (fs & _ & Hs).
  apply bind_Some in Hs as (it4 & _ & Hs). apply bind_Some in Hs as (f' & _ & Hs).
  apply bind_Some in Hs as (fs' & _ & S5).
  exists (normalizeFile fs'). split; [|apply normalizeFile_relative].
  apply (getProp_setProp_eq _ _ _ _ S5).
Qed.

Lemma stored_file_is_relative_witness :
  exists f : jsstring,
    getProp proxyIssueClamped (js "file") = Some (VStr f)
    /\ startsWith (js "/") f = false.
Proof.
  apply (@stored_file_is_relative Reference.runtime proxyIssue).
  vm_compute; reflexivity.
Defined.

(** X6.  On a host whose absolute paths are those that begin with a slash,
    [toAbsolutePath] never returns the path of the issue as it is: a string
    that is not empty is always joined to the workspace root, after the
    replacements. *)
Theorem toAbsolutePath_joins_root `{Runtime} (c : N) (p root : jsstring) :
  (forall s, path_isAbsolute s = startsWith (js "/") s) ->
  toAbsolutePath (VStr (c :: p)) root = Some (path_join root (cleanPath (c :: p))).
Proof.
  intros Habs. unfold toAbsolutePath. simpl.
  by rewrite Habs, cleanPath_relative.
Qed.

Lemma toAbsolutePath_joins_root_witness :
  @toAbsolutePath Reference.runtime (VStr (js "/etc/hosts")) (js "/work")
  = Some (js "/work/etc/hosts").
Proof.
  exact (@toAbsolutePath_joins_root Reference.runtime 47 (js "etc/hosts")
           (js "/work") (fun s => eq_refl)).
Defined.

(** ** Diagnostics *)













Lemma isSeverity_cases (sev : value) :
  isSeverity sev = true ->
  sev = VStr (js "blocker") \/ sev = VStr (js "major") \/ sev = VStr (js "nit").
Proof.
  destruct sev as [| | | |s| |]; try done. simpl.
  intros [[Hs|Hs]%orb_true_iff|Hs]%orb_true_iff; apply eqb_true in Hs as ->; auto.
Qed.



(** ** The prompt *)

Lemma trim_between (h t mid : jsstring) :
  trim ((10 :: 89 :: h) ++ mid ++ t ++ [46; 10])
  = (89 :: h) ++ mid ++ t ++ [46].
Proof.
  assert (Hform : (10 :: 89 :: h) ++ mid ++ t ++ [46; 10]
                  = [10] ++ (89 :: (h ++ mid ++ t) ++ [46]) ++ [10]).
  { cbn [app]. do 2 f_equal. rewrite <- !app_assoc. reflexivity. }
  rewrite Hform, trim_core by reflexivity.
  cbn [app]. change (dropSpaces [10]) with (@nil N).
  change (rev (dropSpaces (rev [10]))) with (@nil N).
  cbn [app]. rewrite app_nil_r, <- !app_assoc. reflexivity.
Qed.

(** X9.  Trimming the prompt removes the newline at each end of the
    template and nothing else: the prompt begins with the first line of
    the instructions, and the acceptance criteria (or the words none
    provided, when they are empty) and the diff stand in it exactly as they
    are, white space at their ends included, the diff under its heading. *)
Theorem buildPrompt_keeps_texts (acceptance diff : jsstring) :
  prompt0 = nl ++ promptHead
  /\ prompt2 = promptFoot ++ nl
  /\ startsWith (js "You are a strict PR reviewer.") promptHead = true
  /\ prompt1 = nl ++ nl ++ js "Changed Code (unified diff):" ++ nl
  /\ buildPrompt acceptance diff
     = promptHead
       ++ (match acceptance with [] => js "(none provided)" | _ => acceptance end)
       ++ prompt1 ++ diff ++ promptFoot.
Proof.
  assert (H0 : prompt0 = 10 :: 89 :: skipn 2 prompt0) by (vm_compute; reflexivity).
  assert (Hh : promptHead = 89 :: skipn 2 prompt0) by (vm_compute; reflexivity).
  assert (H2 : prompt2 = removelast (removelast prompt2) ++ [46; 10])
    by (vm_compute; reflexivity).
  assert (Hf : promptFoot = removelast (removelast prompt2) ++ [46])
    by (vm_compute; reflexivity).
  split; [vm_compute; reflexivity|]. split; [vm_compute; reflexivity|].
  split; [vm_compute; reflexivity|]. split; [reflexivity|].
  unfold buildPrompt. rewrite Hh, Hf.
  set (acc := match acceptance with [] => _ | _ => _ end).
  revert H0 H2. generalize (skipn 2 prompt0) (removelast (removelast prompt2)).
  generalize prompt0 prompt1 prompt2. intros p0 p1 p2 h t -> ->.
  pose proof (trim_between h t (acc ++ p1 ++ diff)) as Ht.
  rewrite <- !app_assoc in Ht. rewrite <- ?app_assoc. exact Ht.
Qed.

(** ** The command: what it calls, and when *)

Section Traces.
Context {P : event -> Prop}.

Lemma trace_ret {A : Type} (a : A) : Forall P (snd (ret a)).
Proof. constructor. Qed.

Lemma trace_throw {A : Type} (e : exn) : Forall P (snd (@throw A e)).
Proof. constructor. Qed.

Lemma trace_engine {A : Type} (o : option A) : Forall P (snd (engine o)).
Proof. destruct o; constructor. Qed.

Lemma trace_emit (e : event) : P e -> Forall P (snd (emit e)).
Proof. intros He. constructor; [done | constructor]. Qed.

Lemma trace_bind {A B : Type} (m : M A) (k : A -> M B) :
  Forall P (snd m) -> (forall a, Forall P (snd (k a))) ->
  Forall P (snd (bind m k)).
Proof.
  intros Hm Hk. unfold bind. destruct m as [[a|e] t]; [|done].
  specialize (Hk a). destruct (k a) as [r t']. simpl in *.
  apply Forall_app. by split.
Qed.

Lemma trace_tryCatch {A : Type} (m : M A) (h : exn -> M A) :
  Forall P (snd m) -> (forall e, Forall P (snd (h e))) ->
  Forall P (snd (tryCatch m h)).
Proof.
  intros Hm Hh. unfold tryCatch. destruct m as [[a|e] t]; [done|].
  specialize (Hh e). destruct (h e) as [r t']. simpl in *.
  apply Forall_app. by split.
Qed.

Lemma trace_loadTexts `{Runtime} (w : World) (root : jsstring) (l : list value)
    (m : textMap) :
  (forall p, P (OpenTextDocument p)) ->
  Forall P (snd (loadTexts w root l m)).
Proof.
  intros Hp. revert m. induction l as [|it l IH]; intros m; cbn [loadTexts].
  - constructor.
  - apply trace_bind; [apply trace_engine|]. intros f.
    apply trace_bind; [apply trace_engine|]. intros p.
    apply trace_bind; [by apply trace_emit|]. intros _. apply IH.
Qed.

End Traces.

Lemma bind_result {A B : Type} (m : M A) (k : A -> M B) (a : A) (t : list event) :
  m = (inl a, t) -> bind m k = (fst (k a), t ++ snd (k a)).
Proof. intros ->. unfold bind. by destruct (k a). Qed.

Lemma bind_failure {A B : Type} (m : M A) (k : A -> M B) (e : exn) (t : list event) :
  m = (inr e, t) -> bind m k = (inr e, t).
Proof. by intros ->. Qed.

Lemma readAcceptance_result (w : World) :
  readAcceptance w
  = (inl (acceptanceOf w),
     match specFile w with Some _ => [] | None => [ShowInputBox] end).
Proof. unfold readAcceptance, acceptanceOf. by destruct (specFile w). Qed.



Lemma trace_getReview `{Runtime} (P : event -> Prop) (w : World)
    (prompt model url : jsstring) :
  (forall e, isNetworkCall e = true -> P e) ->
  Forall P (snd (getReview w prompt model url)).
Proof.
  intros HP. unfold getReview, ensureOllamaReady.
  destruct url;
    repeat match goal with
           | |- Forall _ (snd (bind _ _)) => apply trace_bind; [|intros ?]
           | |- Forall _ (snd (tryCatch _ _)) => apply trace_tryCatch; [|intros ?]
           | |- Forall _ (snd (emit _)) => apply trace_emit, HP; reflexivity
           | |- Forall _ (snd (ret _)) => apply trace_ret
           | |- Forall _ (snd (throw _)) => apply trace_throw
           | |- Forall _ (snd (engine _)) => apply trace_engine
           | |- Forall _ (snd (match ?b with _ => _ end)) => destruct b
           | |- _ => progress cbv zeta
           end.
Qed.

Lemma trace_review `{Runtime} (P : event -> Prop) (w : World) (root : jsstring) :
  (forall e, isErrorReport e = false -> P e) ->
  Forall P (snd (review w root)).
Proof.
  intros HP. unfold review, readAcceptance, getGitDiff, showReviewPanel,
    publishDiagnostics.
  repeat match goal with
         | |- Forall _ (snd (getReview _ _ _ _)) =>
             apply trace_getReview; intros e He; apply HP; by destruct e
         | |- Forall _ (snd (loadTexts _ _ _ _)) =>
             apply trace_loadTexts; intros p; by apply HP
         | |- Forall _ (snd (bind _ _)) => apply trace_bind; [|intros ?]
         | |- Forall _ (snd (emit _)) => apply trace_emit, HP; reflexivity
         | |- Forall _ (snd (ret _)) => apply trace_ret
         | |- Forall _ (snd (throw _)) => apply trace_throw
         | |- Forall _ (snd (engine _)) => apply trace_engine
         | |- Forall _ (snd (match ?b with _ => _ end)) => destruct b
         | |- _ => progress cbv zeta
         end.
Qed.

(** X11.  The command never throws, and it reports at most one failure: a
    run shows the request to open a folder and does nothing else, or it
    reports no error at all, or its last two calls log and show one error
    and no call before them reports any. *)
Theorem reviewCommand_reports_once `{Runtime} (w : World) :
  exists t : list event,
    reviewCommand w = (inl tt, t)
    /\ (t = [ShowErrorMessage (js "Open a folder/workspace first.")]
        \/ Forall (fun e => isErrorReport e = false) t
        \/ exists (t' : list event) (err : exn),
             t = t' ++ [ConsoleError err; ShowReviewFailed err]
             /\ Forall (fun e => isErrorReport e = false) t').
Proof.
  unfold reviewCommand. destruct (workspaceFolder w) as [root|].
  - pose proof (trace_review (fun e => isErrorReport e = false) w root
                  (fun e He => He)) as Ht.
    destruct (review w root) as [[[]|err] t]; simpl in Ht.
    + eexists. split; [reflexivity|]. right; left. by constructor.
    + exists (WithProgress (js "AI Review: running" ++ [8230]) :: t
              ++ [ConsoleError err; ShowReviewFailed err]).
      split; [reflexivity|]. right; right.
      exists (WithProgress (js "AI Review: running" ++ [8230]) :: t), err.
      split; [reflexivity | by constructor].
  - eexists. split; [reflexivity|]. by left.
Qed.

Lemma stringify_object `{Runtime} (ps : list (jsstring * value)) :
  exists body, stringify (VObj ps) = Some body.
Proof. simpl. by eexists. Qed.

(** X12.  The requests of [getReview].  With a remote address configured it
    sends one POST to that address and never asks the local server; in
    local mode it first asks the local server for its models, and the
    prompt is posted, to the local server only, just when that check
    passed. *)
Theorem getReview_requests `{Runtime} (w : World) (prompt model url : jsstring) :
  match url with
  | [] =>
      exists body : jsstring,
        stringify (VObj [(js "model", VStr model); (js "prompt", VStr prompt);
                         (js "options", VObj [(js "temperature", VNum (Fin 0))])])
        = Some body
        /\ ((ensureOllamaReady w model
             = (inl tt, [FetchGet (js "http://127.0.0.1:11434/api/tags")])
             /\ snd (getReview w prompt model url)
                = [FetchGet (js "http://127.0.0.1:11434/api/tags");
                   FetchPost (js "http://127.0.0.1:11434/api/generate") body])
            \/ (exists err : exn,
                  ensureOllamaReady w model
                  = (inr err, [FetchGet (js "http://127.0.0.1:11434/api/tags")])
                  /\ getReview w prompt model url
                     = (inr err, [FetchGet (js "http://127.0.0.1:11434/api/tags")])))
  | _ =>
      exists body : jsstring,
        stringify (VObj [(js "prompt", VStr prompt)]) = Some body
        /\ snd (getReview w prompt model url) = [FetchPost url body]
  end.
Proof.
  destruct url as [|c url].
  - destruct (stringify_object
                [(js "model", VStr model); (js "prompt", VStr prompt);
                 (js "options", VObj [(js "temperature", VNum (Fin 0))])])
      as [body Hb].
    exists body. split; [done|]. unfold getReview. rewrite Hb.
    rewrite ensureOllamaReady_body.
    destruct (res ← fetchGet w ollamaTags; resJson res) as [json|];
      [destruct (hasModel json model) as [[]|]|];
      try (right; eexists; split; reflexivity).
    left. split; [done|].
    unfold bind, engine, emit, ret, throw.
    destruct (fetchPost w ollamaGenerate body) as [res|]; [|done].
    destruct (negb (ok res)); [done|].
    destruct (bodyText res) as [text|]; [|done].
    by destruct (arrayJoin [] _).
  - destruct (stringify_object [(js "prompt", VStr prompt)]) as [body Hb].
    exists body. split; [done|]. unfold getReview. rewrite Hb.
    unfold bind, engine, emit, ret, throw.
    destruct (fetchPost w (c :: url) body) as [res|]; [|done].
    destruct (negb (ok res)); [done|].
    destruct (resJson res) as [data|]; [|done].
    destruct (ps ← getProp data (js "summary"); ToString (jsOr ps (VStr []))); [|done].
    by destruct (getProp data (js "issues")).
Qed.

Lemma getGitDiff_result (w : World) (diff : jsstring) :
  gitVersion w = true -> gitDiff w = Some diff ->
  getGitDiff w
  = (inl diff, [Exec (js "git --version"); Exec (js "git diff --no-color")]).
Proof. intros Hv Hd. unfold getGitDiff. by rewrite Hv, Hd. Qed.

Lemma review_until_getReview `{Runtime} (w : World) (root diff : jsstring) :
  gitVersion w = true -> gitDiff w = Some diff -> trim diff <> [] ->
  review w root
  = bind (inl tt,
          [ProgressReport (js "Reading acceptance criteria")]
          ++ match specFile w with Some _ => [] | None => [ShowInputBox] end
          ++ [ProgressReport (js "Collecting diff (git)");
              Exec (js "git --version"); Exec (js "git diff --no-color");
              ProgressReport (js "Calling local model (Ollama)")])
      (fun _ : unit =>
         do review <- getReview w (buildPrompt (acceptanceOf w) diff)
                        (modelOf w) (remoteUrlOf w) ;
         do its <- engine (iterate (issues review)) ;
         do fileTextByPath <- loadTexts w root its [] ;
         do kept <- engine (filterIssuesAgainstSpec (issues review)
                              (acceptanceOf w) fileTextByPath) ;
         emit (ProgressReport (js "Publishing results")) ;;
         showReviewPanel {| summary := summary review; issues := kept |} ;;
         publishDiagnostics kept root ;;
         do es <- engine (asArray kept) ;
         emit (ShowInformationMessage
                 (js "AI Review complete: "
                  ++ NumberToString (num_of_nat (length es))
                  ++ js " issue(s)."))).
Proof.
  intros Hv Hd Ht. unfold review.
  rewrite readAcceptance_result, (getGitDiff_result w diff Hv Hd).
  rewrite (bind_result (emit _) _ tt [_] eq_refl). cbv beta.
  rewrite (bind_result _ _ _ _ eq_refl). cbv beta.
  rewrite (bind_result (emit _) _ tt [_] eq_refl). cbv beta.
  rewrite (bind_result (inl diff, _) _ _ _ eq_refl). cbv beta.
  rewrite (bind_result (inl tt, _) _ _ _ eq_refl). cbv beta.
  destruct (trim diff) as [|c d] eqn:E; [done|]. cbv zeta.
  rewrite (bind_result (emit _) _ tt [_] eq_refl). cbv beta.
  fold (modelOf w) (remoteUrlOf w).
  cbn [fst snd]. f_equal. rewrite <- !app_assoc. reflexivity.
Qed.

(** X13.  Whenever the review cannot be obtained (the server is down, the
    model is missing, the answer has an error status, the remote body is no
    JSON), the command shows no panel and leaves the diagnostics as they
    were: after the requests of [getReview] it only logs and shows that
    error. *)
Theorem failed_review_shows_nothing `{Runtime} (w : World) (root diff : jsstring)
    (err : exn) (t : list event) :
  workspaceFolder w = Some root -> gitVersion w = true ->
  gitDiff w = Some diff -> trim diff <> [] ->
  getReview w (buildPrompt (acceptanceOf w) diff) (modelOf w) (remoteUrlOf w)
  = (inr err, t) ->
  exists t0 : list event,
    reviewCommand w
    = (inl tt, t0 ++ t ++ [ConsoleError err; ShowReviewFailed err])
    /\ Forall (fun e => isPresentation e = false) (t0 ++ t).
Proof.
  intros Hw Hv Hd Ht Hg. unfold reviewCommand. rewrite Hw.
  rewrite (review_until_getReview w root diff Hv Hd Ht).
  match goal with
  | |- context [bind (inl tt, ?L) ?k] => set (pre := L); set (rest := k)
  end.
  assert (Hb : bind (inl tt, pre) rest = (inr err, pre ++ t)).
  { unfold bind. assert (Hr : rest tt = (inr err, t)); [|by rewrite Hr].
    unfold rest. apply bind_failure. exact Hg. }
  rewrite Hb. clear Hb rest.
  assert (Hpre : Forall (fun e => isPresentation e = false) pre).
  { unfold pre. apply Forall_app. split; [by repeat constructor|].
    apply Forall_app. split; [by destruct (specFile w); repeat constructor|].
    by repeat constructor. }
  clearbody pre.
  exists (WithProgress (js "AI Review: running" ++ [8230]) :: pre). split.
  - unfold tryCatch, bind, emit. cbv beta iota zeta.
    f_equal. cbn [app]. f_equal. rewrite <- !app_assoc. reflexivity.
  - pose proof (trace_getReview (fun e => isPresentation e = false) w
                  (buildPrompt (acceptanceOf w) diff) (modelOf w) (remoteUrlOf w)) as Hn.
    rewrite Hg in Hn. cbn [snd] in Hn.
    change ((WithProgress (js "AI Review: running" ++ [8230]) :: pre) ++ t)
      with (WithProgress (js "AI Review: running" ++ [8230]) :: (pre ++ t)).
    constructor; [done|]. apply Forall_app. split; [done|].
    apply Hn. intros e He. by destruct e.
Qed.

Lemma failed_review_shows_nothing_witness :
  exists t0 : list event,
    @reviewCommand Reference.runtime quietWorld
    = (inl tt,
       t0 ++ [FetchGet (js "http://127.0.0.1:11434/api/tags")]
       ++ [ConsoleError
             (Error (js "Ollama server not reachable at 127.0.0.1:11434. Run `ollama serve`."));
           ShowReviewFailed
             (Error (js "Ollama server not reachable at 127.0.0.1:11434. Run `ollama serve`."))])
    /\ Forall (fun e => isPresentation e = false)
         (t0 ++ [FetchGet (js "http://127.0.0.1:11434/api/tags")]).
Proof.
  apply (@failed_review_shows_nothing Reference.runtime quietWorld (js "/ws")
           (js "diff --git a/app.js b/app.js"));
    [reflexivity | reflexivity | reflexivity | by vm_compute | vm_compute; reflexivity].
Defined.

(** ** The streamed answer *)

Lemma joinWith_nil_cons (x : jsstring) (l : list jsstring) :
  joinWith [] (x :: l) = x ++ joinWith [] l.
Proof. destruct l; simpl; [by rewrite app_nil_r | done]. Qed.

Lemma arrayJoin_nil_cons `{Runtime} (v : value) (l : list value) :
  arrayJoin [] (v :: l)
  = (s ← match v with VUndefined | VNull => Some [] | _ => ToString v end;
     t ← arrayJoin [] l; Some (s ++ t)).
Proof.
  unfold arrayJoin. cbn [mapM].
  destruct (match v with VUndefined | VNull => Some [] | _ => ToString v end)
    as [s|]; [|done].
  cbn [mbind option_bind mret option_ret]. 
  destruct (mapM _ l) as [strs|]; [|done]. cbn [mbind option_bind mret option_ret].
  by rewrite joinWith_nil_cons.
Qed.

Lemma silentLine_text `{Runtime} (l : jsstring) :
  silentLine l = true ->
  match lineResponse l with
  | VUndefined | VNull => Some []
  | _ => ToString (lineResponse l)
  end = Some [].
Proof.
  unfold silentLine, lineResponse.
  destruct (v ← JSON_parse l; getProp v (js "response")) as [[| | | |[|]| |]|]; done.
Qed.

(** X14.  A streamed line that carries no text (it does not parse, or has
    no response) adds nothing to the answer and does not stop it: the text
    put together from the lines is the same as without that line. *)
Theorem silent_line_adds_nothing `{Runtime} (a b : list jsstring) (l : jsstring) :
  silentLine l = true ->
  arrayJoin [] (List.map lineResponse (a ++ l :: b))
  = arrayJoin [] (List.map lineResponse (a ++ b)).
Proof.
  intros Hl. induction a as [|x a IH]; cbn [app List.map].
  - rewrite arrayJoin_nil_cons, (silentLine_text l Hl). cbn [mbind option_bind mret option_ret].
    by destruct (arrayJoin [] _).
  - by rewrite !arrayJoin_nil_cons, IH.
Qed.

Lemma silent_line_adds_nothing_witness :
  @arrayJoin Reference.runtime []
    (List.map (@lineResponse Reference.runtime)
       ([okObject] ++ js "not json" :: [okObject]))
  = @arrayJoin Reference.runtime []
      (List.map (@lineResponse Reference.runtime) ([okObject] ++ [okObject])).
Proof.
  apply (@silent_line_adds_nothing Reference.runtime). vm_compute; reflexivity.
Defined.

(** ** The spec filter *)

Lemma filterIssues_again (cb : value -> option bool) (es kept : list value) :
  filterIssues cb es = Some kept ->
  filterIssues cb kept = Some kept /\ sublist kept es.
Proof.
  revert kept. induction es as [|x es IH]; intros kept; cbn [filterIssues].
  - intros [= <-]. split; [done | constructor].
  - intros Hf. apply bind_Some in Hf as (b & Hb & Hf).
    apply bind_Some in Hf as (r & Hr & [= <-]).
    destruct (IH _ Hr) as [Hagain Hsub]. destruct b.
    + split; [|by constructor]. cbn [filterIssues]. by rewrite Hb, Hagain.
    + split; [done | by constructor].
Qed.

(** X15.  The spec filter only removes: what it returns is the issues it
    was given with some left out, in the same order, and filtering its
    result once more changes nothing. *)
Theorem spec_filter_only_removes `{Runtime} (es : list value)
    (ps : list (jsstring * value)) (acceptance : jsstring) (m : textMap)
    (kept : value) :
  filterIssuesAgainstSpec (VArr es ps) acceptance m = Some kept ->
  filterIssuesAgainstSpec kept acceptance m = Some kept
  /\ exists (es' : list value) (ps' : list (jsstring * value)),
       kept = VArr es' ps' /\ sublist es' es.
Proof.
  unfold filterIssuesAgainstSpec.
  destruct (firstMatch requireAt acceptance) as [m1|].
  - intros Hf. apply bind_Some in Hf as (required & Hr & Hf).
    apply bind_Some in Hf as (es' & Hes & [= <-]).
    destruct (filterIssues_again _ _ _ Hes) as [Hagain Hsub].
    rewrite Hr. cbn [mbind option_bind mret option_ret]. rewrite Hagain. split; [done|].
    by exists es', [].
  - intros [= <-]. split; [done|]. by exists es, ps.
Qed.

Lemma spec_filter_only_removes_witness :
  @filterIssuesAgainstSpec Reference.runtime (VArr [] []) requireFour fourMarksFile
  = Some (VArr [] [])
  /\ exists (es' : list value) (ps' : list (jsstring * value)),
       VArr [] [] = VArr es' ps' /\ sublist es' [marksIssue].
Proof.
  apply (@spec_filter_only_removes Reference.runtime [marksIssue] [] requireFour
           fourMarksFile (VArr [] [])).
  vm_compute; reflexivity.
Defined.

(** ** The model check *)

Lemma strictEq_string (v : value) (s : jsstring) :
  strictEq v (VStr s) = true <-> v = VStr s.
Proof.
  destruct v; simpl; try (split; [discriminate | done]).
  rewrite eqb_true. split; [by intros -> | by intros [= ->]].
Qed.

Lemma some_name_spec (model : jsstring) (ms : list value) :
  Forall (fun y => y <> VNull /\ y <> VUndefined) ms ->
  exists b : bool,
    some (fun m => n ← getProp m (js "name"); Some (strictEq n (VStr model))) ms
    = Some b
    /\ (b = true <->
        exists y, In y ms /\ getProp y (js "name") = Some (VStr model)).
Proof.
  induction 1 as [|y ms [Hn Hu] _ (b & Hb & Hiff)]; cbn [some].
  - exists false. split; [done|]. split; [done | by intros (? & [] & _)].
  - destruct (getProp y (js "name")) as [n|] eqn:Hy; [|by destruct y].
    cbn [mbind option_bind mret option_ret]. destruct (strictEq n (VStr model)) eqn:E.
    + exists true. split; [done|]. split; [|done]. intros _.
      exists y. split; [by left|]. apply strictEq_string in E. by subst.
    + exists b. split; [done|]. rewrite Hiff. split.
      * intros (z & Hz & Hname). exists z. split; [by right | done].
      * intros (z & [<-|Hz] & Hname); [|by exists z].
        rewrite Hy in Hname. injection Hname as ->.
        assert (strictEq (VStr model) (VStr model) = true) by (by apply strictEq_string).
        congruence.
Qed.

(** X16.  The model check compares whole names.  For a catalogue whose
    models are a list without null entries, the check finds the model
    exactly when some entry has a name that is the configured string,
    unit for unit: a name that only begins with it, or differs in case,
    does not count. *)
Theorem hasModel_exact_name (json : value) (ms : list value)
    (ps : list (jsstring * value)) (model : jsstring) :
  getProp json (js "models") = Some (VArr ms ps) ->
  Forall (fun y => y <> VNull /\ y <> VUndefined) ms ->
  exists b : bool,
    hasModel json model = Some b
    /\ (b = true <->
        exists y, In y ms /\ getProp y (js "name") = Some (VStr model)).
Proof.
  intros Hm Hall. destruct (some_name_spec model ms Hall) as (b & Hb & Hiff).
  exists b. split; [|done]. unfold hasModel. rewrite Hm.
  destruct json; try done.
Qed.

Lemma hasModel_exact_name_witness :
  exists b : bool,
    hasModel (VObj [(js "models", VArr [VObj [(js "name", VStr (js "llama3.1:8b"))]] [])])
      (js "llama3.1")
    = Some b
    /\ (b = true <->
        exists y, In y [VObj [(js "name", VStr (js "llama3.1:8b"))]]
                  /\ getProp y (js "name") = Some (VStr (js "llama3.1"))).
Proof.
  apply (hasModel_exact_name _ _ []); [reflexivity|].
  constructor; [by split | constructor].
Defined.

(** ** The panel *)

Lemma getProp_msgProp (it : value) (k : jsstring) :
  it <> VUndefined -> it <> VNull -> getProp it k = Some (msgProp it k).
Proof. intros Hu Hn. unfold msgProp. by destruct it. Qed.

Lemma asString_or_textual (v : value) :
  asString (jsOr v (VStr []))
  = if textual v then Some (match v with VStr s => s | _ => [] end) else None.
Proof.
  unfold jsOr, textual. destruct v as [| |[]|n|[|c s]| |]; simpl; try done.
  by destruct (num_truthy n).
Qed.

Lemma suggestion_textual (sg : value) (wrap : jsstring -> jsstring) :
  (if truthy sg then s ← asString sg; Some (wrap s) else Some [])
  = if textual sg
    then Some (match sg with VStr (c :: s) => wrap (c :: s) | _ => [] end)
    else None.
Proof.
  unfold textual. destruct sg as [| |[]|n|[|c s]| |]; simpl; try done.
  by destruct (num_truthy n).
Qed.

Lemma issueCard_printable `{Runtime} (it : value) (i : nat) :
  is_Some (issueCard it i) <-> printable it = true.
Proof.
  assert (Hnone : ~ is_Some (@None jsstring)) by (by intros [? ?]).
  assert (Hcase : it = VUndefined \/ it = VNull
                  \/ (it <> VUndefined /\ it <> VNull))
    by (destruct it; auto).
  destruct Hcase as [->|[->|[Hu Hn]]]; [done | done |].
  unfold issueCard. rewrite !(getProp_msgProp it _ Hu Hn). cbn [mbind option_bind mret option_ret].
  rewrite !asString_or_textual.
  rewrite (suggestion_textual _ (fun s => sug0 ++ escapeHtml s ++ sug1)).
  assert (printable it
          = textual (msgProp it (js "file")) && textual (msgProp it (js "message"))
            && textual (msgProp it (js "suggestion"))
            && (match msgProp it (js "severity") with VStr _ => true | _ => false end)
            && converts (msgProp it (js "startLine"))
            && converts (msgProp it (js "endLine"))) as ->
    by (by destruct it).
  unfold converts.
  destruct (textual (msgProp it (js "file"))); [|done].
  destruct (textual (msgProp it (js "message"))); [|done].
  destruct (textual (msgProp it (js "suggestion"))); [|done].
  cbn [mbind option_bind mret option_ret andb].
  destruct (msgProp it (js "severity")) as [| | | |sev| |]; try done.
  cbn [asString mbind option_bind mret option_ret andb].
  destruct (ToString (msgProp it (js "startLine"))); [|done].
  destruct (ToString (msgProp it (js "endLine"))); [|done].
  cbn [mbind option_bind mret option_ret andb]. split; [done | by eexists].
Qed.

Lemma issueCards_printable `{Runtime} (l : list value) (i : nat) :
  is_Some (issueCards l i) <-> forallb printable l = true.
Proof.
  revert i. induction l as [|it l IH]; intros i; cbn [issueCards forallb].
  - split; [done | by eexists].
  - rewrite andb_true_iff, <- (IH (S i)), <- (issueCard_printable it i).
    destruct (issueCard it i) as [c|]; cbn [mbind option_bind mret option_ret].
    + destruct (issueCards l (S i)) as [cs|]; cbn [mbind option_bind mret option_ret].
      * split; [by split; eexists | by eexists].
      * split; [by intros [? ?] | by intros [_ [? ?]]].
    + split; [by intros [? ?] | by intros [[? ?] _]].
Qed.

Lemma panelHtml_printable `{Runtime} (s : jsstring) (es : list value)
    (ps : list (jsstring * value)) :
  is_Some (panelHtml {| summary := s; issues := VArr es ps |})
  <-> forallb printable es = true.
Proof.
  rewrite <- (issueCards_printable es 0). unfold panelHtml.
  cbn [issues summary jsOr truthy asArray mbind option_bind mret option_ret].
  destruct (issueCards es 0) as [items|]; cbn [mbind option_bind mret option_ret].
  - split; [by eexists | intros _].
    destruct (stringify (VArr es ps)) as [json|] eqn:Hj; [by eexists | done].
  - done.
Qed.

(** X17.  What the panel needs of the issues.  The panel gets its markup
    exactly when every issue is printable (it has properties, its file,
    message and suggestion are strings or falsy, its severity is a string);
    with one issue that is not, the panel has already been created and
    stays empty, and an engine error is thrown. *)
Theorem panel_needs_printable_issues `{Runtime} (s : jsstring) (es : list value)
    (ps : list (jsstring * value)) :
  if forallb printable es
  then exists html : jsstring,
         panelHtml {| summary := s; issues := VArr es ps |} = Some html
         /\ showReviewPanel {| summary := s; issues := VArr es ps |}
            = (inl tt, [CreateWebviewPanel; SetWebviewHtml html])
  else showReviewPanel {| summary := s; issues := VArr es ps |}
       = (inr EngineError, [CreateWebviewPanel]).
Proof.
  pose proof (panelHtml_printable s es ps) as Hp. unfold showReviewPanel.
  destruct (panelHtml _) as [html|]; destruct (forallb printable es).
  - by exists html.
  - assert (Hf : false = true) by (apply Hp; by eexists). discriminate Hf.
  - destruct (proj2 Hp eq_refl) as [? Hx]. discriminate Hx.
  - done.
Qed.

Lemma clamped_printable `{Runtime} (it : value) :
  clamped it ->
  textual (msgProp it (js "message")) = true ->
  textual (msgProp it (js "suggestion")) = true ->
  printable it = true.
Proof.
  intros (n0 & n1 & sev & f & Hs & _ & He & _ & Hv & Hsev & Hf) Hm Hg.
  assert (Hu : it <> VUndefined) by (by intros ->).
  assert (Hn : it <> VNull) by (by intros ->).
  rewrite (getProp_msgProp it _ Hu Hn) in Hs. rewrite (getProp_msgProp it _ Hu Hn) in He.
  rewrite (getProp_msgProp it _ Hu Hn) in Hv. rewrite (getProp_msgProp it _ Hu Hn) in Hf.
  injection Hs as Hs. injection He as He. injection Hv as Hv. injection Hf as Hf.
  assert (printable it
          = textual (msgProp it (js "file")) && textual (msgProp it (js "message"))
            && textual (msgProp it (js "suggestion"))
            && (match msgProp it (js "severity") with VStr _ => true | _ => false end)
            && converts (msgProp it (js "startLine"))
            && converts (msgProp it (js "endLine"))) as ->
    by (by destruct it).
  rewrite Hm, Hg, Hs, He, Hv, Hf.
  by destruct (isSeverity_cases _ Hsev) as [->|[->| ->]].
Qed.

(** X18.  Issues as the response parser leaves them are printed whenever
    the message and the suggestion that the model wrote are strings or
    falsy: the panel is created and gets its markup, and nothing is
    thrown. *)
Theorem clamped_issues_are_shown `{Runtime} (s : jsstring) (es : list value)
    (ps : list (jsstring * value)) :
  Forall (fun it => clamped it
                    /\ textual (msgProp it (js "message")) = true
                    /\ textual (msgProp it (js "suggestion")) = true) es ->
  exists html : jsstring,
    showReviewPanel {| summary := s; issues := VArr es ps |}
    = (inl tt, [CreateWebviewPanel; SetWebviewHtml html]).
Proof.
  intros Hall.
  assert (Hp : forallb printable es = true).
  { apply forallb_forall. intros it Hin. rewrite List.Forall_forall in Hall.
    destruct (Hall it Hin) as (Hc & Hm & Hg). by apply clamped_printable. }
  apply panelHtml_printable with (s := s) (ps := ps) in Hp as [html Hh].
  exists html. unfold showReviewPanel. by rewrite Hh.
Qed.

Lemma clamped_issues_are_shown_witness :
  exists html : jsstring,
    @showReviewPanel Reference.runtime
      {| summary := js "ok"; issues := VArr [proxyIssueClamped] [] |}
    = (inl tt, [CreateWebviewPanel; SetWebviewHtml html]).
Proof.
  apply (@clamped_issues_are_shown Reference.runtime).
  constructor; [|constructor]. split; [|split; reflexivity].
  exists (Fin 5), (Fin 5), (VStr (js "major")), (js "x.ts").
  repeat split; vm_compute; reflexivity.
Defined.

(** ** Navigation from the panel *)

Lemma nav_trace_bind {A B : Type} (P : navEvent -> Prop) (m : Nav A)
    (k : A -> Nav B) :
  Forall P (snd m) ->
  (forall a t, m = (inl a, t) -> Forall P (snd (k a))) ->
  Forall P (snd (navBind m k)).
Proof.
  intros Hm Hk. unfold navBind. destruct m as [[a|e] t]; [|done].
  specialize (Hk a t eq_refl). destruct (k a) as [r t']. simpl in *.
  apply Forall_app. by split.
Qed.

Lemma nav_trace_try {A : Type} (P : navEvent -> Prop) (m : Nav A)
    (h : exn -> Nav A) :
  Forall P (snd m) -> (forall e, Forall P (snd (h e))) ->
  Forall P (snd (navTry m h)).
Proof.
  intros Hm Hh. unfold navTry. destruct m as [[a|e] t]; [done|].
  specialize (Hh e). destruct (h e) as [r t']. simpl in *.
  apply Forall_app. by split.
Qed.

Lemma nav_trace_engine {A : Type} (P : navEvent -> Prop) (o : option A) :
  Forall P (snd (navEngine o)).
Proof. destruct o; constructor. Qed.

Lemma nav_trace_emit (P : navEvent -> Prop) (e : navEvent) :
  P e -> Forall P (snd (navEmit e)).
Proof. intros He. constructor; [done | constructor]. Qed.

Lemma navEngine_inl {A : Type} (o : option A) (a : A) (t : list navEvent) :
  navEngine o = (inl a, t) -> o = Some a.
Proof. destruct o; [by intros [= ->] | done]. Qed.

Lemma rowOf_notNegative `{Runtime} (v r : value) :
  rowOf v = Some r -> notNegative r.
Proof.
  unfold rowOf. intros (d & _ & Hm)%bind_Some. unfold Math_max in Hm.
  apply bind_Some in Hm as (x & [= <-] & Hm).
  apply bind_Some in Hm as (y & _ & [= <-]).
  eexists. split; [reflexivity|].
  destruct y as [|[]|q]; try done. simpl.
  destruct (negb (Qle_bool q 0)) eqn:E; [|done].
  apply (num_ltb_asym (Fin 0) (Fin q)). simpl. exact E.
Qed.

Lemma trace_resolve `{Runtime} (P : navEvent -> Prop) (ws : Workspace)
    (p : value) (root : jsstring) :
  (forall x, P (Stat x)) -> (forall x, P (FindFiles x)) ->
  Forall P (snd (resolveToExistingPath ws p root)).
Proof.
  intros Hs Hf. unfold resolveToExistingPath.
  apply nav_trace_bind; [apply nav_trace_engine|]. intros abs _ _.
  apply nav_trace_bind; [by apply nav_trace_emit|]. intros _ _ _.
  destruct (stat ws abs); [constructor|].
  apply nav_trace_bind; [apply nav_trace_engine|]. intros s _ _.
  apply nav_trace_bind; [by apply nav_trace_emit|]. intros _ _ _.
  apply nav_trace_bind; [apply nav_trace_engine|]. intros [|first rest] _ _;
    constructor.
Qed.

(** X20.  Whatever message the panel receives and whatever the workspace
    answers, the rows of a selection that the handler sets are numbers that
    are not negative. *)
Theorem selection_rows_not_negative `{Runtime} (ws : Workspace)
    (root : jsstring) (msg a b : value) :
  In (SetSelection a b) (snd (onDidReceiveMessage ws root msg)) ->
  notNegative a /\ notNegative b.
Proof.
  set (P := fun e => match e with
                     | SetSelection x y | RevealRange x y =>
                         notNegative x /\ notNegative y
                     | _ => True
                     end).
  assert (Hall : Forall P (snd (onDidReceiveMessage ws root msg))).
  { unfold onDidReceiveMessage.
    destruct (strictEq _ _); [|constructor].
    apply nav_trace_try.
    - apply nav_trace_bind; [apply nav_trace_engine|]. intros file _ _.
      apply nav_trace_bind; [by apply trace_resolve|]. intros abs _ _.
      apply nav_trace_bind; [by apply nav_trace_emit|]. intros _ _ _.
      destruct (openTextDocument ws abs); [|constructor].
      apply nav_trace_bind; [by apply nav_trace_emit|]. intros _ _ _.
      destruct (showTextDocument ws abs); [|constructor].
      apply nav_trace_bind; [apply nav_trace_engine|].
      intros startRow ? Hs%navEngine_inl%rowOf_notNegative.
      apply nav_trace_bind; [apply nav_trace_engine|].
      intros endRow ? He%navEngine_inl%rowOf_notNegative.
      apply nav_trace_bind; [|intros _ _ _]; apply nav_trace_emit; by split.
    - intros e.
      apply nav_trace_bind; [apply nav_trace_engine|]. intros ? _ _.
      apply nav_trace_bind; [apply nav_trace_engine|]. intros ? _ _.
      apply nav_trace_bind; [apply nav_trace_engine|]. intros ? _ _.
      by apply nav_trace_emit. }
  intros Hin. rewrite List.Forall_forall in Hall. exact (Hall _ Hin).
Qed.

Lemma selection_rows_not_negative_witness :
  notNegative (VNum (Fin 2)) /\ notNegative (VNum (Fin 3)).
Proof.
  apply (@selection_rows_not_negative Reference.runtime
           (oneFileWorkspace (js "/ws/app.js")) (js "/ws")
           (openMessage (VStr (js "app.js")) (VNum (Fin 3)) (VNum (Fin 4)))).
  vm_compute. do 3 right. left. reflexivity.
Defined.






Lemma open_tail `{Runtime} (ws : Workspace) (abs : jsstring) (sl el : value) :
  let m := (navEmit (OpenDocument abs) ;;;
            if openTextDocument ws abs then
              navEmit (ShowDocument abs) ;;;
              if showTextDocument ws abs then
                step startRow <- navEngine (rowOf sl) ;
                step endRow <- navEngine (rowOf el) ;
                navEmit (SetSelection startRow endRow) ;;;
                navEmit (RevealRange startRow endRow)
              else navThrow EngineError
            else navThrow EngineError) in
  (exists a b : value,
     m = (inl tt, [OpenDocument abs; ShowDocument abs] ++ [SetSelection a b; RevealRange a b]))
  \/ (exists (err : exn) (t : list navEvent),
        m = (inr err, t)
        /\ Forall (fun ev => match ev with
                             | SetSelection _ _ | RevealRange _ _ => False
                             | _ => True
                             end) t).
Proof.
  cbv zeta. destruct (openTextDocument ws abs).
  - destruct (showTextDocument ws abs).
    + destruct (rowOf sl) as [a|].
      * destruct (rowOf el) as [b|].
        -- left. by exists a, b.
        -- right. eexists _, _. split; [reflexivity|]. by repeat constructor.
      * right. eexists _, _. split; [reflexivity|]. by repeat constructor.
    + right. eexists _, _. split; [reflexivity|]. by repeat constructor.
  - right. eexists _, _. split; [reflexivity|]. by repeat constructor.
Qed.

(** X22.  A failed Open is reported, not thrown.  For an open message whose
    file and lines convert to strings, the handler never rejects: either
    its last two calls select and reveal the range, or its last call shows
    that the file could not be opened, with the file and the lines of the
    message, and no range was selected before. *)
Theorem open_failure_is_reported `{Runtime} (ws : Workspace) (root : jsstring)
    (file sl el : value) :
  converts file = true -> converts sl = true -> converts el = true ->
  exists t : list navEvent,
    onDidReceiveMessage ws root (openMessage file sl el) = (inl tt, t)
    /\ ((exists (t' : list navEvent) (a b : value),
           t = t' ++ [SetSelection a b; RevealRange a b])
        \/ (exists (t' : list navEvent) (f s e : jsstring) (err : exn),
              t = t' ++ [CouldNotOpen f s e err]
              /\ ToString file = Some f /\ ToString sl = Some s
              /\ ToString el = Some e
              /\ Forall (fun ev => match ev with
                                   | SetSelection _ _ | RevealRange _ _ => False
                                   | _ => True
                                   end) t')).
Proof.
  unfold converts. intros Hf Hs He.
  destruct (ToString file) as [f|] eqn:Ef; [|done].
  destruct (ToString sl) as [s|] eqn:Es; [|done].
  destruct (ToString el) as [e|] eqn:Ee; [|done].
  unfold onDidReceiveMessage.
  change (strictEq (msgProp (openMessage file sl el) (js "cmd"))
            (VStr (js "open"))) with true.
  change (getProp (openMessage file sl el) (js "file")) with (Some file).
  change (msgProp (openMessage file sl el) (js "file")) with file.
  change (msgProp (openMessage file sl el) (js "startLine")) with sl.
  change (msgProp (openMessage file sl el) (js "endLine")) with el.
  rewrite Ef, Es, Ee. cbn [navEngine navRet navBind].
  pose proof (trace_resolve
                (fun ev => match ev with
                           | SetSelection _ _ | RevealRange _ _ => False
                           | _ => True
                           end) ws file root (fun _ => I) (fun _ => I)) as Hres.
  destruct (resolveToExistingPath ws file root) as [[abs|err] t0].
  - destruct (open_tail ws abs sl el) as [(a & b & Hm)|(err & t1 & Hm & Hall)];
      cbv zeta in Hm; cbn [navBind]; rewrite Hm; cbn [navBind navTry navEmit app].
    + eexists. split; [reflexivity|]. left.
      exists (t0 ++ [OpenDocument abs; ShowDocument abs]), a, b.
      by rewrite <- !app_assoc.
    + eexists. split; [reflexivity|]. right.
      exists (t0 ++ t1), f, s, e, err. split; [reflexivity|].
      do 3 (split; [reflexivity|]). apply Forall_app. by split.
  - cbn [navBind navTry navEmit app].
    eexists. split; [reflexivity|]. right.
    exists t0, f, s, e, err. by do 4 (split; [reflexivity|]).
Qed.

Lemma open_failure_is_reported_witness :
  exists t : list navEvent,
    @onDidReceiveMessage Reference.runtime (oneFileWorkspace (js "/ws/app.js"))
      (js "/ws") (openMessage (VStr (js "gone.js")) (VNum (Fin 3)) (VNum (Fin 4)))
    = (inl tt, t)
    /\ ((exists (t' : list navEvent) (a b : value),
           t = t' ++ [SetSelection a b; RevealRange a b])
        \/ (exists (t' : list navEvent) (f s e : jsstring) (err : exn),
              t = t' ++ [CouldNotOpen f s e err]
              /\ @ToString Reference.runtime (VStr (js "gone.js")) = Some f
              /\ @ToString Reference.runtime (VNum (Fin 3)) = Some s
              /\ @ToString Reference.runtime (VNum (Fin 4)) = Some e
              /\ Forall (fun ev => match ev with
                                   | SetSelection _ _ | RevealRange _ _ => False
                                   | _ => True
                                   end) t')).
Proof.
  apply (@open_failure_is_reported Reference.runtime); vm_compute; reflexivity.
Defined.

(** *** The name that is searched for *)

Lemma wholeSegments_app (a b : jsstring) :
  wholeSegments a -> wholeSegments b -> wholeSegments (a ++ b).
Proof.
  intros Ha [->|[b' ->]].
  - by rewrite app_nil_r.
  - right. exists (a ++ b'). by rewrite app_assoc.
Qed.

Lemma stripPrefix_split (pre s : jsstring) :
  exists cut, s = cut ++ stripPrefix pre s /\ (cut = [] \/ cut = pre).
Proof.
  unfold stripPrefix. destruct (startsWith pre s) eqn:E.
  - apply startsWith_inv in E as [r ->]. exists pre. split; [|by right].
    by rewrite drop_app_length.
  - exists []. split; [done | by left].
Qed.

Lemma dropSlashes_split (s : jsstring) :
  exists cut, s = cut ++ dropSlashes s /\ (cut = [] \/ wholeSegments cut).
Proof.
  induction s as [|c s (cut & Hs & Hcut)]; cbn [dropSlashes].
  - exists []. split; [done | by left].
  - destruct (N.eqb_spec c 47) as [->|Hc].
    + exists (47 :: cut). split; [by rewrite Hs at 1|]. right.
      destruct Hcut as [->|[->|[cut' ->]]].
      * right. by exists [].
      * right. by exists [].
      * right. by exists (47 :: cut').
    + exists []. split; [done | by left].
Qed.

Lemma dropDots_split (s : jsstring) : exists dots, s = dots ++ dropDots s.
Proof.
  induction s as [|c s (dots & Hs)]; cbn [dropDots].
  - by exists [].
  - destruct (c =? 46); [|by exists []].
    exists (c :: dots). by rewrite Hs at 1.
Qed.

Lemma stripSlashesOrDots_split (s : jsstring) :
  exists cut, s = cut ++ stripSlashesOrDots s /\ wholeSegments cut.
Proof.
  unfold stripSlashesOrDots. destruct (startsWith (js "/") s).
  - destruct (dropSlashes_split s) as (cut & Hs & [->|Hw]).
    + exists []. split; [done | by left].
    + by exists cut.
  - destruct (startsWith (js ".") s); [|exists []; split; [done | by left]].
    destruct (dropDots_split s) as (dots & Hs).
    destruct (dropDots s) as [|c r]; [exists []; split; [done | by left]|].
    destruct (N.eqb_spec c 47) as [->|Hc]; [|exists []; split; [done | by left]].
    exists (dots ++ [47]). split; [by rewrite <- app_assoc|].
    right. by exists dots.
Qed.

Lemma searchName_split (p : jsstring) :
  exists cut, p = cut ++ searchName p /\ wholeSegments cut.
Proof.
  unfold searchName.
  destruct (stripPrefix_split (js "a/") p) as (c1 & H1 & W1).
  destruct (stripPrefix_split (js "b/") (stripPrefix (js "a/") p)) as (c2 & H2 & W2).
  destruct (stripSlashesOrDots_split
              (stripPrefix (js "b/") (stripPrefix (js "a/") p))) as (c3 & H3 & W3).
  exists (c1 ++ c2 ++ c3). split.
  - rewrite <- !app_assoc, <- H3, <- H2. exact H1.
  - apply wholeSegments_app; [|apply wholeSegments_app; [|done]].
    + destruct W1 as [->| ->]; [by left | right; by exists [97]].
    + destruct W2 as [->| ->]; [by left | right; by exists [98]].
Qed.

Lemma dropSlashes_app (a b : jsstring) :
  dropSlashes a <> [] -> dropSlashes (a ++ b) = dropSlashes a ++ b.
Proof.
  induction a as [|c a IH]; [done|]. cbn [dropSlashes app].
  destruct (c =? 47); [exact IH | done].
Qed.

Lemma lastSegment_after_slash (s t acc : jsstring) :
  lastSegment (s ++ 47 :: t) acc = lastSegment t [].
Proof.
  revert acc. induction s as [|c s IH]; intros acc; cbn [lastSegment app].
  - reflexivity.
  - destruct (c =? 47); apply IH.
Qed.

(** X19.  The three replacements that [resolveToExistingPath] applies
    before it takes the base name never change the name that is searched
    for: on a host with the path rules of POSIX the base name of the
    stripped path is the base name of the path itself, unless the
    replacements leave nothing but slashes, in which case the name is
    empty. *)
Theorem searched_name_is_base_name (p : jsstring) :
  posixBasename (searchName p) = []
  \/ posixBasename (searchName p) = posixBasename p.
Proof.
  destruct (searchName_split p) as (cut & Hp & Hw).
  unfold posixBasename.
  destruct (dropSlashes (rev (searchName p))) as [|c r] eqn:E; [by left|].
  right. rewrite Hp at 1. rewrite rev_app_distr, dropSlashes_app by (by rewrite E).
  rewrite E, rev_app_distr, rev_involutive.
  destruct Hw as [->|[cut' ->]]; [done|].
  rewrite <- app_assoc. cbn [app]. by rewrite lastSegment_after_slash.
Qed.
